(** * The chapter model of the m4b generator

    A shallow embedding of [core/chapter_manager.py] (classes [Chapter] and
    [ChapterManager]), of the texts and of the command that [M4BCreator]
    builds in [core/m4b_creator.py], of [AudioHandler.sort_files] from
    [core/audio_handler.py] and of the editing methods of
    [ChapterEditorScreen] from [ui/chapter_editor.py], with the properties
    of the timestamp codec, title normalisation, chapter building,
    validation, rendering, sorting and editing.

    Conventions of the embedding:
    - a Python [str] is a [list ascii], each character read as the code point
      of the same number (U+0000 to U+00FF);
    - a Python [int] is a [Z]; the interpreter's optional limit on the number
      of digits converted between [int] and [str] is not modelled;
    - a method of [ChapterManager] is a computation in the monad [M], which
      threads the manager and carries a raised exception;
    - a method of [ChapterEditorScreen] is a computation in a monad of the
      same kind over the screen; what it calls in Textual is an operation
      of the class [Toolkit], of which nothing is assumed. *)

From Stdlib Require Import ZArith Ascii String DecimalString DecimalPos Lia Bool.
From stdpp Require Import base tactics option list sorting.

#[local] Open Scope Z_scope.
#[local] Open Scope list_scope.

(** ** Text *)

Module Text.

Definition text := list ascii.

(** A string literal of the source is written [t{...}]. *)
Definition of_string : string -> text := list_ascii_of_string.

#[global] Instance ascii_eq_dec : EqDecision ascii := Ascii.ascii_dec.

Definition chr (n : nat) : ascii := ascii_of_nat n.
Definition code (c : ascii) : nat := nat_of_ascii c.

Definition is_digit (c : ascii) : bool :=
  (48 <=? code c)%nat && (code c <=? 57)%nat.

Definition digit_value (c : ascii) : Z := Z.of_nat (code c) - 48.

(** [Py_UNICODE_ISSPACE] on U+0000..U+00FF: what [str.strip], [str.isspace]
    and the pattern class [\s] take as whitespace. *)
Definition is_space (c : ascii) : bool :=
  let n := code c in
  ((9 <=? n)%nat && (n <=? 13)%nat) || ((28 <=? n)%nat && (n <=? 32)%nat)
  || (n =? 133)%nat || (n =? 160)%nat.

(** Whitespace skipped by [int(str)]: [Py_ISSPACE] on the ASCII part, the
    Unicode whitespace above U+007F being turned into a blank first. *)
Definition is_int_space (c : ascii) : bool :=
  let n := code c in
  ((9 <=? n)%nat && (n <=? 13)%nat) || (n =? 32)%nat
  || (n =? 133)%nat || (n =? 160)%nat.

(** ASCII lower-casing; on U+0000..U+00FF no other character folds to one of
    the letters used by the patterns of the source. *)
Definition lower (c : ascii) : ascii :=
  let n := code c in
  if (65 <=? n)%nat && (n <=? 90)%nat then chr (n + 32) else c.

(** [sep in s] for a one-character [sep]. *)
Definition contains (sep : ascii) (s : text) : bool :=
  existsb (Ascii.eqb sep) s.

(** [s.split(sep)] for a one-character [sep]: never empty. *)
Fixpoint split (sep : ascii) (s : text) : list text :=
  match s with
  | [] => [[]]
  | c :: s' =>
      if Ascii.eqb c sep then [] :: split sep s'
      else match split sep s' with
           | p :: ps => (c :: p) :: ps
           | [] => [[c]]
           end
  end.

(** [s.ljust(width, fill)]. *)
Definition ljust (width : nat) (fill : ascii) (s : text) : text :=
  s ++ replicate (width - length s) fill.

(** [s.rjust(width, fill)]. *)
Definition rjust (width : nat) (fill : ascii) (s : text) : text :=
  replicate (width - length s) fill ++ s.

(** [s.lstrip()], [s.rstrip()], [s.strip()]. *)
Fixpoint lstrip (s : text) : text :=
  match s with
  | c :: s' => if is_space c then lstrip s' else s
  | [] => []
  end.

Definition rstrip (s : text) : text := rev (lstrip (rev s)).

Definition strip (s : text) : text := rstrip (lstrip s).

(** [s.replace(old, new)] for a one-character [old]. *)
Fixpoint replace (old : ascii) (new : text) (s : text) : text :=
  match s with
  | [] => []
  | c :: s' => (if Ascii.eqb c old then new else [c]) ++ replace old new s'
  end.

(** [s.split()]: the words between runs of whitespace. *)
Fixpoint words (s : text) : list text :=
  match s with
  | [] => []
  | c :: s' =>
      if is_space c then words s'
      else
        match s' with
        | c' :: _ =>
            if is_space c' then [c] :: words s'
            else match words s' with
                 | w :: ws => (c :: w) :: ws
                 | [] => [[c]]
                 end
        | [] => [[c]]
        end
  end.

(** [sep.join(pieces)]. *)
Fixpoint join (sep : text) (pieces : list text) : text :=
  match pieces with
  | [] => []
  | [p] => p
  | p :: rest => p ++ sep ++ join sep rest
  end.

(** The text before and after the last [sep], if there is one. *)
Fixpoint rpartition (sep : ascii) (s : text) : option (text * text) :=
  match s with
  | [] => None
  | c :: s' =>
      match rpartition sep s' with
      | Some (before, after) => Some (c :: before, after)
      | None => if Ascii.eqb c sep then Some ([], s') else None
      end
  end.

(** [s.rsplit(sep, 1)] for a one-character [sep]. *)
Definition rsplit1 (sep : ascii) (s : text) : list text :=
  match rpartition sep s with
  | Some (before, after) => [before; after]
  | None => [s]
  end.

(** [s.rstrip(chars)]. *)
Fixpoint lstrip_chars (chars : text) (s : text) : text :=
  match s with
  | c :: s' => if existsb (Ascii.eqb c) chars then lstrip_chars chars s' else s
  | [] => []
  end.

Definition rstrip_chars (chars : text) (s : text) : text :=
  rev (lstrip_chars chars (rev s)).

End Text.

Import Text.

Notation "t{ s }" := (Text.of_string s) (at level 0, s at level 0, format "t{ s }").

(** ** Exceptions *)

(** What a raised exception says; the payload is the text the message is
    built from. *)
Inductive message : Type :=
  | InvalidTimestampFormat (time_str : text)
      (* f"Invalid timestamp format: {time_str}" *)
  | InvalidLiteralForInt (literal : text)
      (* "invalid literal for int() with base 10: " + repr(literal) *)
  | TooManyValuesToUnpack (expected : nat)
      (* "too many values to unpack (expected N)" *)
  | NotEnoughValuesToUnpack (expected : nat)
  | PopIndexOutOfRange
  | ListIndexOutOfRange
  | ReplacementIndexOutOfRange
      (* "Replacement index N out of range for positional args tuple" *)
  | TooManyDecimalDigits
      (* "Too many decimal digits in format string" *)
  | SingleOpeningBrace
      (* "Single '{' encountered in format string" *)
  | SingleClosingBrace
      (* "Single '}' encountered in format string" *)
  | UnclosedReplacementField
      (* "expected '}' before end of string" *)
  | UnexpectedOpeningBrace
      (* "unexpected '{' in field name" *)
  | EndOfStringInConversion
      (* "end of string while looking for conversion specifier" *)
  | ExpectedColonAfterConversion
      (* "expected ':' after conversion specifier" *)
  | UnmatchedBraceInFormatSpec
      (* "unmatched '{' in format spec" *)
  | UnknownConversionSpecifier (conversion : ascii)
      (* "Unknown conversion specifier C" *)
  | MissingFormatKey (key : text).

(** [Unsupported] is not an exception of the source: it marks an input on
    which the source goes on with behaviour that this embedding does not
    interpret. *)
Inductive exn : Type :=
  | ValueError (m : message)
  | IndexError (m : message)
  | KeyError (m : message)
  | Unsupported (what : text).

Inductive result (A : Type) : Type :=
  | Ok (a : A)
  | Raise (e : exn).
Arguments Ok {A} a.
Arguments Raise {A} e.

Definition is_ok {A} (r : result A) : bool :=
  match r with Ok _ => true | Raise _ => false end.

Definition rbind {A B} (r : result A) (f : A -> result B) : result B :=
  match r with Ok a => f a | Raise e => Raise e end.

(** [map(f, xs)] consumed in order: the first failure is the one raised. *)
Fixpoint rmap {A B} (f : A -> result B) (xs : list A) : result (list B) :=
  match xs with
  | [] => Ok []
  | x :: xs' =>
      rbind (f x) (fun y => rbind (rmap f xs') (fun ys => Ok (y :: ys)))
  end.

(** ** Integers and their decimal text *)

Module PyInt.

(** [str(n)]. *)
Definition str (n : Z) : text :=
  Text.of_string (NilZero.string_of_int (Z.to_int n)).

(** The run of digits and single underscores that [int()] reads once a first
    digit is in: the value so far, and the text left over.  An underscore
    must stand between two digits. *)
Fixpoint scan_digits (acc : Z) (s : text) : option (Z * text) :=
  match s with
  | [] => Some (acc, [])
  | c :: s' =>
      if is_digit c then scan_digits (10 * acc + digit_value c) s'
      else if Ascii.eqb c "_" then
        match s' with
        | c' :: s'' =>
            if is_digit c' then scan_digits (10 * acc + digit_value c') s''
            else None
        | [] => None
        end
      else Some (acc, s)
  end.

Fixpoint skip_int_space (s : text) : text :=
  match s with
  | c :: s' => if is_int_space c then skip_int_space s' else s
  | [] => []
  end.

(** The digits after the optional sign. *)
Definition magnitude (s : text) : option Z :=
  match s with
  | c :: s' =>
      if is_digit c then
        match scan_digits (digit_value c) s' with
        | Some (v, rest) =>
            match skip_int_space rest with [] => Some v | _ => None end
        | None => None
        end
      else None
  | [] => None
  end.

(** [int(s)] in base 10: blanks, one optional sign, digits, blanks. *)
Definition int (s : text) : result Z :=
  let body := skip_int_space s in
  let signed :=
    match body with
    | c :: s' =>
        if Ascii.eqb c "-" then option_map Z.opp (magnitude s')
        else if Ascii.eqb c "+" then magnitude s'
        else magnitude body
    | [] => None
    end in
  match signed with
  | Some v => Ok v
  | None => Raise (ValueError (InvalidLiteralForInt s))
  end.

(** [f"{n:0Wd}"]: the sign first, then zeros up to the width, then the
    digits. *)
Definition format_0d (width : nat) (n : Z) : text :=
  if n <? 0 then "-"%char :: rjust (width - 1) "0" (str (- n))
  else rjust width "0" (str n).

End PyInt.

(** ** Regular expressions

    The patterns of the source use literals, character classes, sequence,
    alternation, an optional group, greedy repetition of a class, and the
    anchors [^] and [$].  [Re.run] is a backtracking matcher with the
    priorities of Python's [re]: the left alternative first, the optional
    group and the longer repetition first. *)

Module Re.

Inductive regex : Type :=
  | Eps                                  (* the empty pattern *)
  | Bos                                  (* ^ *)
  | Eos                                  (* $ *)
  | Chr (c : ascii)                      (* one literal character *)
  | Class (p : ascii -> bool)            (* \d, \s, [...] *)
  | Seq (r1 r2 : regex)
  | Alt (r1 r2 : regex)                  (* r1|r2 *)
  | Opt (r : regex)                      (* (r)? *)
  | Star (p : ascii -> bool)             (* class* *)
  | Plus (p : ascii -> bool).            (* class+ *)

(** A literal word. *)
Fixpoint Word (w : text) : regex :=
  match w with
  | [] => Eps
  | c :: w' => Seq (Chr c) (Word w')
  end.

(** The greedy repetition of a class, at position [pos] with [s] left to
    read: as many characters as possible, giving back one at a time while
    the continuation [k] fails. *)
Fixpoint star {R} (p : ascii -> bool) (pos : nat) (s : text)
    (k : nat -> text -> option R) : option R :=
  match s with
  | c :: s' =>
      if p c then
        match star p (S pos) s' k with
        | Some r => Some r
        | None => k pos s
        end
      else k pos s
  | [] => k pos s
  end.

(** [run ignorecase r pos s k]: match [r] at position [pos] of the subject,
    [s] being the subject from [pos] on, then go on with [k]. *)
Fixpoint run {R} (ignorecase : bool) (r : regex) (pos : nat) (s : text)
    (k : nat -> text -> option R) : option R :=
  match r with
  | Eps => k pos s
  | Bos => if (pos =? 0)%nat then k pos s else None
  | Eos =>
      match s with
      | [] => k pos s
      | [c] => if Ascii.eqb c (chr 10) then k pos s else None
      | _ => None
      end
  | Chr c =>
      match s with
      | x :: s' =>
          if (if ignorecase then Ascii.eqb (lower x) (lower c)
              else Ascii.eqb x c)
          then k (S pos) s' else None
      | [] => None
      end
  | Class p =>
      match s with
      | x :: s' => if p x then k (S pos) s' else None
      | [] => None
      end
  | Seq r1 r2 =>
      run ignorecase r1 pos s (fun pos' s' => run ignorecase r2 pos' s' k)
  | Alt r1 r2 =>
      match run ignorecase r1 pos s k with
      | Some x => Some x
      | None => run ignorecase r2 pos s k
      end
  | Opt r' =>
      match run ignorecase r' pos s k with
      | Some x => Some x
      | None => k pos s
      end
  | Star p => star p pos s k
  | Plus p =>
      match s with
      | x :: s' => if p x then star p (S pos) s' k else None
      | [] => None
      end
  end.

(** The end of the match of [r] that starts at [pos], if there is one. *)
Definition match_at (ignorecase : bool) (r : regex) (pos : nat) (s : text)
    : option nat :=
  run ignorecase r pos s (fun e _ => Some e).

(** [re.match(r, s)]: a match at the beginning. *)
Definition match_ (ignorecase : bool) (r : regex) (s : text) : option nat :=
  match_at ignorecase r 0 s.

(** [re.search(r, s)]: the leftmost match, as (start, end). *)
Fixpoint search_from (ignorecase : bool) (r : regex) (pos : nat) (s : text)
    : option (nat * nat) :=
  match match_at ignorecase r pos s with
  | Some e => Some (pos, e)
  | None =>
      match s with
      | _ :: s' => search_from ignorecase r (S pos) s'
      | [] => None
      end
  end.

Definition search (ignorecase : bool) (r : regex) (s : text)
    : option (nat * nat) :=
  search_from ignorecase r 0 s.

(** [re.sub(r, repl, s)]: every match, left to right and without overlap, is
    replaced by [repl].  [skip] counts the characters still covered by the
    last match; an empty match is replaced too and the scan moves on by one
    character. *)
Fixpoint sub_from (ignorecase : bool) (r : regex) (repl : text)
    (pos skip : nat) (s : text) : text :=
  match s with
  | [] =>
      match skip, match_at ignorecase r pos [] with
      | O, Some _ => repl
      | _, _ => []
      end
  | c :: s' =>
      match skip with
      | S n => sub_from ignorecase r repl (S pos) n s'
      | O =>
          match match_at ignorecase r pos s with
          | Some e =>
              if (e =? pos)%nat
              then repl ++ c :: sub_from ignorecase r repl (S pos) 0 s'
              else repl ++ sub_from ignorecase r repl (S pos) (e - pos - 1) s'
          | None => c :: sub_from ignorecase r repl (S pos) 0 s'
          end
      end
  end.

Definition sub (ignorecase : bool) (r : regex) (repl : text) (s : text)
    : text :=
  sub_from ignorecase r repl 0 0 s.

End Re.

(** ** [class Chapter] *)

Definition nl : ascii := chr 10.

Module Chapter.

Record t : Type := mk {
  title : text;
  start_ms : Z;
  duration_ms : option Z;
  file_path : option text;
}.

(** The pattern [\.(mp3|m4a|m4b)$]. *)
Definition EXTENSION : Re.regex :=
  Re.Seq (Re.Chr ".")
    (Re.Seq (Re.Alt (Re.Word t{"mp3"})
               (Re.Alt (Re.Word t{"m4a"}) (Re.Word t{"m4b"})))
       Re.Eos).

(** The class [[\s\-_\.]]. *)
Definition is_separator (c : ascii) : bool :=
  is_space c || Ascii.eqb c "-" || Ascii.eqb c "_" || Ascii.eqb c ".".

(** The pattern [^(track\s* )?\d+[\s\-_\.]+] (written here with a blank
    before the closing parenthesis). *)
Definition TRACK_NUMBER : Re.regex :=
  Re.Seq Re.Bos
    (Re.Seq (Re.Opt (Re.Seq (Re.Word t{"track"}) (Re.Star is_space)))
       (Re.Seq (Re.Plus is_digit) (Re.Plus is_separator))).

(** The patterns [[_]+] and [\s+]. *)
Definition UNDERSCORES : Re.regex := Re.Plus (Ascii.eqb "_").
Definition WHITESPACE : Re.regex := Re.Plus is_space.

Definition _clean_title (title : text) : text :=
  let original := title in
  let has_extension := bool_decide (is_Some (Re.search true EXTENSION title)) in
  let title := Re.sub true EXTENSION [] title in
  let title :=
    if has_extension
       || bool_decide (is_Some (Re.match_ true TRACK_NUMBER title))
    then Re.sub true TRACK_NUMBER [] title
    else title in
  let title := Re.sub false UNDERSCORES t{" "} title in
  let title := Re.sub false WHITESPACE t{" "} title in
  let result := strip title in
  match result with
  | [] => original
  | _ => result
  end.

(** The dataclass constructor followed by [__post_init__]. *)
Definition new (title : text) (start_ms : Z) (duration_ms : option Z)
    (file_path : option text) : t :=
  mk (_clean_title title) start_ms duration_ms file_path.

(** [if x:] on an [Optional[int]]: neither [None] nor [0]. *)
Definition truthy (x : option Z) : bool :=
  match x with
  | Some d => negb (d =? 0)
  | None => false
  end.

Definition to_ffmpeg_format (self : t) : text :=
  let end_ms :=
    if truthy (duration_ms self)
    then start_ms self + default 0 (duration_ms self)
    else start_ms self in
  t{"[CHAPTER]"} ++ [nl]
  ++ t{"TIMEBASE=1/1000"} ++ [nl]
  ++ t{"START="} ++ PyInt.str (start_ms self) ++ [nl]
  ++ t{"END="} ++ PyInt.str end_ms ++ [nl]
  ++ t{"title="} ++ title self ++ [nl].

End Chapter.

(** ** [str.format] with the one keyword argument [num]

    The format string is read as CPython reads it: literal text with the
    doubled braces, and replacement fields made of a name, an optional
    conversion and an optional format specification; an error of the
    syntax is raised where the scan meets it.  A field is expanded as soon
    as it is closed, and its name is looked up before anything else is
    done with it: without positional arguments an index finds nothing, and
    a name other than [num] is no keyword of the call.  A field that
    inserts [num] as it is, or through one of the conversions [r], [s] and
    [a], gives its decimal digits.  Whatever else a field does with [num]
    (an attribute, an index, a format specification) is not interpreted
    and is reported as [Unsupported]. *)

Module PyFormat.

(** [PY_SSIZE_T_MAX] of a 64-bit build. *)
Definition PY_SSIZE_T_MAX : Z := 2 ^ 63 - 1.

(** Where the scan is in the format string. *)
Inductive position : Type :=
  | Literal
  | FieldName (name : text)
  | Subscript (name : text)
  | Conversion (name : text)
  | AfterConversion (name : text) (conversion : ascii)
  | FormatSpec (name : text) (conversion : option ascii) (spec : text)
      (depth : nat).

(** The index that the digits of [name] stand for, after [accumulator];
    [None] for a name that is no index.  The overflow is detected at the
    digit that causes it. *)
Fixpoint get_integer (accumulator : Z) (name : text) : result (option Z) :=
  match name with
  | [] => Ok (Some accumulator)
  | c :: rest =>
      if is_digit c then
        let digitval := digit_value c in
        if (PY_SSIZE_T_MAX - digitval) / 10 <? accumulator
        then Raise (ValueError TooManyDecimalDigits)
        else get_integer (accumulator * 10 + digitval) rest
      else Ok None
  end.

(** The part of the name that is looked up: what comes before the first
    attribute or index. *)
Fixpoint first_of (name : text) : text :=
  match name with
  | [] => []
  | c :: rest =>
      if Ascii.eqb c "." || Ascii.eqb c "[" then [] else c :: first_of rest
  end.

(** The text of a closed field. *)
Definition expand_field (name : text) (conversion : option ascii)
    (spec : text) (num : Z) : result text :=
  let first := first_of name in
  rbind (get_integer 0 first) (fun index =>
    match first, index with
    | [], _ | _, Some _ => Raise (IndexError ReplacementIndexOutOfRange)
    | _, None =>
        if bool_decide (first = t{"num"}) then
          if bool_decide (name = first) then
            rbind
              (match conversion with
               | None => Ok tt
               | Some c =>
                   if existsb (Ascii.eqb c) t{"rsa"} then Ok tt
                   else if Ascii.eqb c Ascii.zero then Ok tt
                   else Raise (ValueError (UnknownConversionSpecifier c))
               end)
              (fun _ =>
                 match spec with
                 | [] => Ok (PyInt.str num)
                 | _ => Raise (Unsupported name)
                 end)
          else Raise (Unsupported name)
        else Raise (KeyError (MissingFormatKey first))
    end).

Fixpoint format_from (num : Z) (at_ : position) (s : text) : result text :=
  match at_, s with
  | Literal, [] => Ok []
  | Literal, c :: s' =>
      if Ascii.eqb c "{" then
        match s' with
        | c' :: s'' =>
            if Ascii.eqb c' "{"
            then rbind (format_from num Literal s'') (fun rest =>
                   Ok (c :: rest))
            else format_from num (FieldName []) s'
        | [] => Raise (ValueError SingleOpeningBrace)
        end
      else if Ascii.eqb c "}" then
        match s' with
        | c' :: s'' =>
            if Ascii.eqb c' "}"
            then rbind (format_from num Literal s'') (fun rest =>
                   Ok (c :: rest))
            else Raise (ValueError SingleClosingBrace)
        | [] => Raise (ValueError SingleClosingBrace)
        end
      else rbind (format_from num Literal s') (fun rest => Ok (c :: rest))
  | FieldName name, [] => Raise (ValueError UnclosedReplacementField)
  | FieldName name, c :: s' =>
      if Ascii.eqb c "{" then Raise (ValueError UnexpectedOpeningBrace)
      else if Ascii.eqb c "[" then format_from num (Subscript (name ++ [c])) s'
      else if Ascii.eqb c "}" then
        rbind (expand_field name None [] num) (fun piece =>
          rbind (format_from num Literal s') (fun rest => Ok (piece ++ rest)))
      else if Ascii.eqb c ":" then format_from num (FormatSpec name None [] 1) s'
      else if Ascii.eqb c "!" then format_from num (Conversion name) s'
      else format_from num (FieldName (name ++ [c])) s'
  | Subscript name, [] => Raise (ValueError UnclosedReplacementField)
  | Subscript name, c :: s' =>
      if Ascii.eqb c "]" then format_from num (FieldName (name ++ [c])) s'
      else format_from num (Subscript (name ++ [c])) s'
  | Conversion name, [] => Raise (ValueError EndOfStringInConversion)
  | Conversion name, c :: s' => format_from num (AfterConversion name c) s'
  | AfterConversion name conversion, [] =>
      Raise (ValueError UnmatchedBraceInFormatSpec)
  | AfterConversion name conversion, c :: s' =>
      if Ascii.eqb c "}" then
        rbind (expand_field name (Some conversion) [] num) (fun piece =>
          rbind (format_from num Literal s') (fun rest => Ok (piece ++ rest)))
      else if Ascii.eqb c ":"
      then format_from num (FormatSpec name (Some conversion) [] 1) s'
      else Raise (ValueError ExpectedColonAfterConversion)
  | FormatSpec name conversion spec depth, [] =>
      Raise (ValueError UnmatchedBraceInFormatSpec)
  | FormatSpec name conversion spec depth, c :: s' =>
      if Ascii.eqb c "{"
      then format_from num (FormatSpec name conversion (spec ++ [c]) (S depth))
             s'
      else if Ascii.eqb c "}" then
        match depth with
        | S (S depth') =>
            format_from num
              (FormatSpec name conversion (spec ++ [c]) (S depth')) s'
        | _ =>
            rbind (expand_field name conversion spec num) (fun piece =>
              rbind (format_from num Literal s') (fun rest =>
                Ok (piece ++ rest)))
        end
      else format_from num (FormatSpec name conversion (spec ++ [c]) depth) s'
  end.

(** [pattern.format(num=num)] *)
Definition format (pattern : text) (num : Z) : result text :=
  format_from num Literal pattern.

End PyFormat.

(** ** [class AudioFile]

    The duration is a Python [float]; floating-point arithmetic is not
    embedded, and the type of durations is left open. *)

Module AudioFile.

Record t (float : Type) : Type := mk {
  path : text;
  filename : text;
  duration_seconds : float;
  sample_rate : Z;
  channels : Z;
  bitrate : option Z;
  track_number : option Z;
  title : option text;
}.
Arguments mk {float}.
Arguments path {float}.
Arguments filename {float}.
Arguments duration_seconds {float}.
Arguments sample_rate {float}.
Arguments channels {float}.
Arguments bitrate {float}.
Arguments track_number {float}.
Arguments title {float}.

End AudioFile.

(** ** [class ChapterManager] *)

Module ChapterManager.

Record t : Type := mk {
  chapters : list Chapter.t;
  last_create_stats : list (text * Z);
}.

(** A method: it reads and updates the manager, and returns or raises.  The
    manager is threaded through a raise as well: what was changed before an
    exception stays changed. *)
Definition M (A : Type) : Type := t -> result A * t.

Definition ret {A} (a : A) : M A := fun self => (Ok a, self).

Definition bind {A B} (m : M A) (f : A -> M B) : M B :=
  fun self =>
    match m self with
    | (Ok a, self') => f a self'
    | (Raise e, self') => (Raise e, self')
    end.

Definition lift {A} (r : result A) : M A := fun self => (r, self).

Definition get_chapters : M (list Chapter.t) :=
  fun self => (Ok (chapters self), self).

Definition set_chapters (cs : list Chapter.t) : M unit :=
  fun self => (Ok tt, mk cs (last_create_stats self)).

Notation "x <- m ;; k" := (bind m (fun x => k))
  (at level 100, m at next level, right associativity).
Notation "m ;;; k" := (bind m (fun _ => k))
  (at level 100, right associativity).

(** [for x in xs: body(x)] *)
Fixpoint for_each {A} (xs : list A) (body : A -> M unit) : M unit :=
  match xs with
  | [] => ret tt
  | x :: xs' => body x ;;; for_each xs' body
  end.

(** A loop that builds a value and may raise. *)
Fixpoint rfold {A B} (f : B -> A -> result B) (acc : B) (xs : list A)
    : result B :=
  match xs with
  | [] => Ok acc
  | x :: xs' => rbind (f acc x) (fun acc' => rfold f acc' xs')
  end.

(** [enumerate(xs, start)] *)
Fixpoint enumerate {A} (start : Z) (xs : list A) : list (Z * A) :=
  match xs with
  | [] => []
  | x :: xs' => (start, x) :: enumerate (start + 1) xs'
  end.

(** [range(n)] *)
Definition range (n : Z) : list Z := map Z.of_nat (seq 0 (Z.to_nat n)).

Definition len {A} (xs : list A) : Z := Z.of_nat (length xs).

(** [xs[i]], a negative [i] counting from the end. *)
Definition item {A} (xs : list A) (i : Z) : result A :=
  let j := if i <? 0 then i + len xs else i in
  if (0 <=? j) && (j <? len xs) then
    match xs !! Z.to_nat j with
    | Some x => Ok x
    | None => Raise (IndexError ListIndexOutOfRange)
    end
  else Raise (IndexError ListIndexOutOfRange).

(** [xs.pop(i)]: the removed element and the list left. *)
Definition list_pop {A} (xs : list A) (i : Z) : result (A * list A) :=
  let j := if i <? 0 then i + len xs else i in
  if (0 <=? j) && (j <? len xs) then
    match xs !! Z.to_nat j with
    | Some x => Ok (x, delete (Z.to_nat j) xs)
    | None => Raise (IndexError PopIndexOutOfRange)
    end
  else Raise (IndexError PopIndexOutOfRange).

(** [xs.insert(i, x)]: the index is clamped to the list. *)
Definition list_insert {A} (xs : list A) (i : Z) (x : A) : list A :=
  let j := if i <? 0 then Z.max 0 (i + len xs) else Z.min i (len xs) in
  take (Z.to_nat j) xs ++ x :: drop (Z.to_nat j) xs.

(** The chapters of the list are objects that the methods change in place;
    a change to the chapter at a valid index [i] is a write to slot [i]. *)
Definition list_set {A} (xs : list A) (i : Z) (x : A) : list A :=
  <[Z.to_nat i := x]> xs.

(** [sorted(xs, key=key)] and [xs.sort(key=key)]: stable, ascending. *)
Fixpoint insert_by {A} (key : A -> Z) (x : A) (xs : list A) : list A :=
  match xs with
  | [] => [x]
  | y :: ys =>
      if key x <=? key y then x :: y :: ys else y :: insert_by key x ys
  end.

Definition sorted {A} (key : A -> Z) (xs : list A) : list A :=
  foldr (insert_by key) [] xs.

Definition add_chapter (title : text) (start_ms : Z)
    (duration_ms : option Z) (file_path : option text) : M Chapter.t :=
  let chapter := Chapter.new title start_ms duration_ms file_path in
  cs <- get_chapters ;;
  set_chapters (cs ++ [chapter]) ;;;
  ret chapter.

Definition remove_chapter (index : Z) : M unit :=
  cs <- get_chapters ;;
  if (0 <=? index) && (index <? len cs) then
    popped <- lift (list_pop cs index) ;;
    set_chapters (snd popped)
  else ret tt.

Definition update_chapter (index : Z) (title : option text)
    (start_ms : option Z) (duration_ms : option Z) : M unit :=
  cs <- get_chapters ;;
  if (0 <=? index) && (index <? len cs) then
    chapter <- lift (item cs index) ;;
    let chapter :=
      match title with
      | Some title =>
          Chapter.mk (Chapter._clean_title title) (Chapter.start_ms chapter)
            (Chapter.duration_ms chapter) (Chapter.file_path chapter)
      | None => chapter
      end in
    let chapter :=
      match start_ms with
      | Some start_ms =>
          Chapter.mk (Chapter.title chapter) start_ms
            (Chapter.duration_ms chapter) (Chapter.file_path chapter)
      | None => chapter
      end in
    let chapter :=
      match duration_ms with
      | Some duration_ms =>
          Chapter.mk (Chapter.title chapter) (Chapter.start_ms chapter)
            (Some duration_ms) (Chapter.file_path chapter)
      | None => chapter
      end in
    set_chapters (list_set cs index chapter)
  else ret tt.

Definition reorder_chapter (from_index to_index : Z) : M unit :=
  cs <- get_chapters ;;
  if ((0 <=? from_index) && (from_index <? len cs))
     && ((0 <=? to_index) && (to_index <? len cs)) then
    popped <- lift (list_pop cs from_index) ;;
    set_chapters (list_insert (snd popped) to_index (fst popped))
  else ret tt.

Definition sort_by_start_time : M unit :=
  cs <- get_chapters ;;
  set_chapters (sorted Chapter.start_ms cs).

Definition _parse_timestamp (time_str : text) : result Z :=
  rbind
    (if contains "." time_str then
       match split "." time_str with
       | [time_part; ms_part] =>
           rbind (PyInt.int (take 3 (ljust 3 "0" ms_part)))
             (fun ms => Ok (time_part, ms))
       | [] | [_] => Raise (ValueError (NotEnoughValuesToUnpack 2))
       | _ => Raise (ValueError (TooManyValuesToUnpack 2))
       end
     else Ok (time_str, 0))
    (fun '(time_part, ms) =>
       let parts := split ":" time_part in
       rbind
         (match length parts with
          | 3%nat =>
              rbind (rmap PyInt.int parts) (fun values =>
                match values with
                | [hours; minutes; seconds] => Ok (hours, minutes, seconds)
                | _ => Raise (ValueError (TooManyValuesToUnpack 3))
                end)
          | 2%nat =>
              rbind (rmap PyInt.int parts) (fun values =>
                match values with
                | [minutes; seconds] => Ok (0, minutes, seconds)
                | _ => Raise (ValueError (TooManyValuesToUnpack 2))
                end)
          | 1%nat =>
              rbind (item parts 0) (fun part =>
                rbind (PyInt.int part) (fun seconds => Ok (0, 0, seconds)))
          | _ => Raise (ValueError (InvalidTimestampFormat time_str))
          end)
         (fun '(hours, minutes, seconds) =>
            Ok ((hours * 3600 + minutes * 60 + seconds) * 1000 + ms))).

Definition format_timestamp (milliseconds : Z) : text :=
  let ms := milliseconds mod 1000 in
  let total_seconds := milliseconds / 1000 in
  let hours := total_seconds / 3600 in
  let minutes := (total_seconds mod 3600) / 60 in
  let seconds := total_seconds mod 60 in
  PyInt.format_0d 2 hours ++ t{":"} ++ PyInt.format_0d 2 minutes ++ t{":"}
  ++ PyInt.format_0d 2 seconds ++ t{"."} ++ PyInt.format_0d 3 ms.

Definition create_from_timestamps (timestamps : list (text * text))
    : M unit :=
  set_chapters [] ;;;
  parsed_chapters <-
    lift (rfold (fun parsed '(time_str, title) =>
                   rbind (_parse_timestamp time_str) (fun start_ms =>
                     Ok (parsed ++ [(start_ms, title)])))
            [] timestamps) ;;
  let parsed_chapters := sorted fst parsed_chapters in
  for_each (enumerate 0 parsed_chapters) (fun '(i, (start_ms, title)) =>
    duration_ms <-
      (if i <? len parsed_chapters - 1 then
         following <- lift (item parsed_chapters (i + 1)) ;;
         ret (Some (fst following - start_ms))
       else ret None) ;;
    add_chapter title start_ms duration_ms None ;;;
    ret tt).

Definition auto_name_chapters (pattern : text) : M unit :=
  cs <- get_chapters ;;
  for_each (enumerate 1 cs) (fun '(i, chapter) =>
    title <- lift (PyFormat.format pattern i) ;;
    now <- get_chapters ;;
    set_chapters
      (list_set now (i - 1)
         (Chapter.mk title (Chapter.start_ms chapter)
            (Chapter.duration_ms chapter) (Chapter.file_path chapter)))).

Definition to_ffmpeg_metadata : M text :=
  cs <- get_chapters ;;
  match cs with
  | [] => ret []
  | _ =>
      ret (foldl (fun metadata chapter =>
                    metadata ++ Chapter.to_ffmpeg_format chapter)
             (t{";FFMETADATA1"} ++ [nl]) cs)
  end.

Definition validate : M (list text) :=
  cs <- get_chapters ;;
  let warnings : list text := [] in
  match cs with
  | [] => ret (warnings ++ [t{"No chapters defined"}])
  | _ =>
      let warnings :=
        foldl (fun warnings '(i, chapter) =>
                 match strip (Chapter.title chapter) with
                 | [] => warnings ++ [t{"Chapter "} ++ PyInt.str i
                                      ++ t{" has empty title"}]
                 | _ => warnings
                 end)
          warnings (enumerate 1 cs) in
      let warnings :=
        foldl (fun warnings '(i, chapter) =>
                 let warnings :=
                   if Chapter.start_ms chapter <? 0
                   then warnings ++ [t{"Chapter "} ++ PyInt.str i
                                     ++ t{" has negative start time"}]
                   else warnings in
                 match Chapter.duration_ms chapter with
                 | Some d =>
                     if d <? 0
                     then warnings ++ [t{"Chapter "} ++ PyInt.str i
                                       ++ t{" has negative duration"}]
                     else warnings
                 | None => warnings
                 end)
          warnings (enumerate 1 cs) in
      let sorted_chapters := sorted Chapter.start_ms cs in
      warnings <-
        lift (rfold (fun warnings i =>
                rbind (item sorted_chapters i) (fun current =>
                rbind (item sorted_chapters (i + 1)) (fun next_chapter =>
                  if Chapter.truthy (Chapter.duration_ms current) then
                    let current_end :=
                      Chapter.start_ms current
                      + default 0 (Chapter.duration_ms current) in
                    if current_end >? Chapter.start_ms next_chapter
                    then Ok (warnings
                             ++ [t{"Chapters '"} ++ Chapter.title current
                                 ++ t{"' and '"}
                                 ++ Chapter.title next_chapter
                                 ++ t{"' overlap"}])
                    else Ok warnings
                  else Ok warnings)))
               warnings (range (len sorted_chapters - 1))) ;;
      ret warnings
  end.

Definition get_chapter_count : M Z :=
  cs <- get_chapters ;;
  ret (len cs).

Definition set_last_create_stats (stats : list (text * Z)) : M unit :=
  fun self => (Ok tt, mk (chapters self) stats).

(** A loop that carries local variables. *)
Fixpoint for_fold {A S} (xs : list A) (vars : S) (body : S -> A -> M S)
    : M S :=
  match xs with
  | [] => ret vars
  | x :: xs' => vars' <- body vars x ;; for_fold xs' vars' body
  end.

(** [if s:] on an [Optional[str]]: neither [None] nor empty. *)
Definition text_truthy (s : option text) : bool :=
  match s with
  | Some (_ :: _) => true
  | _ => false
  end.

(** [to_ms seconds] stands for [int(seconds * 1000)], which is float
    arithmetic and may raise. *)
Definition create_from_files {float} (to_ms : float -> result Z)
    (audio_files : list (AudioFile.t float)) (prefer_id3_titles : bool)
    : M unit :=
  set_chapters [] ;;;
  counters <-
    for_fold audio_files (0, 0, 0)
      (fun '(current_time_ms, titles_from_id3, titles_from_filename)
           audio_file =>
         duration_ms <-
           lift (to_ms (AudioFile.duration_seconds audio_file)) ;;
         let '(title, titles_from_id3, titles_from_filename) :=
           if prefer_id3_titles && text_truthy (AudioFile.title audio_file)
           then (default [] (AudioFile.title audio_file),
                 titles_from_id3 + 1, titles_from_filename)
           else (AudioFile.filename audio_file,
                 titles_from_id3, titles_from_filename + 1) in
         add_chapter title current_time_ms (Some duration_ms)
           (Some (AudioFile.path audio_file)) ;;;
         ret (current_time_ms + duration_ms,
              titles_from_id3, titles_from_filename)) ;;
  let '(_, titles_from_id3, titles_from_filename) := counters in
  set_last_create_stats
    [(t{"from_id3"}, titles_from_id3);
     (t{"from_filename"}, titles_from_filename);
     (t{"total"}, len audio_files)].

End ChapterManager.

(** ** [class BookMetadata] *)

Module BookMetadata.

Record t : Type := mk {
  title : text;
  authors : list text;
  description : option text;
  cover_url : option text;
  publication_year : option Z;
  language : option text;
  isbn : option text;
  publisher : option text;
  source : option text;
}.

End BookMetadata.

(** ** [class M4BCreator] *)

Module M4BCreator.

Definition _format_chapter_mdta (chapter_num : Z) (chapter : Chapter.t)
    : text :=
  let total_ms := Chapter.start_ms chapter in
  let milliseconds := total_ms mod 1000 in
  let total_seconds := total_ms / 1000 in
  let hours := total_seconds / 3600 in
  let minutes := (total_seconds mod 3600) / 60 in
  let seconds := total_seconds mod 60 in
  t{"Menu "} ++ PyInt.str chapter_num ++ t{"# _"}
  ++ PyInt.format_0d 2 hours ++ t{"_"} ++ PyInt.format_0d 2 minutes
  ++ t{"_"} ++ PyInt.format_0d 2 seconds ++ t{"_"}
  ++ PyInt.format_0d 3 milliseconds ++ t{": "} ++ Chapter.title chapter.

(** The text that [_create_metadata_file] writes to [metadata.txt]. *)
Definition _create_metadata_file (chapter_manager : ChapterManager.t)
    (metadata : BookMetadata.t) (narrator : option text) : text :=
  let content := t{";FFMETADATA1"} ++ [nl] in
  let content := content ++ t{"title="} ++ BookMetadata.title metadata ++ [nl] in
  let content :=
    match BookMetadata.authors metadata with
    | [] => content
    | authors =>
        content
        ++ t{"artist="} ++ join t{", "} authors ++ [nl]
        ++ t{"album_artist="} ++ join t{", "} authors ++ [nl]
    end in
  let content := content ++ t{"album="} ++ BookMetadata.title metadata ++ [nl] in
  let content :=
    if ChapterManager.text_truthy narrator
    then content ++ t{"composer="} ++ default [] narrator ++ [nl]
    else content in
  let content :=
    if Chapter.truthy (BookMetadata.publication_year metadata)
    then content ++ t{"date="}
         ++ PyInt.str (default 0 (BookMetadata.publication_year metadata))
         ++ [nl]
    else content in
  let content :=
    if ChapterManager.text_truthy (BookMetadata.description metadata)
    then
      let desc :=
        replace ";" t{","}
          (replace nl t{" "} (default [] (BookMetadata.description metadata))) in
      content ++ t{"comment="} ++ desc ++ [nl]
    else content in
  let content := content ++ t{"genre=Audiobook"} ++ [nl] in
  let content := content ++ [nl] in
  foldl (fun content chapter =>
           (content ++ Chapter.to_ffmpeg_format chapter) ++ [nl])
    content (ChapterManager.chapters chapter_manager).

(** The command that [_run_ffmpeg] builds before it runs it; the paths are
    given as the texts that [str] makes of them. *)
Definition _run_ffmpeg_cmd (concat_file metadata_file : text)
    (cover_file : option text) (output_path : text)
    (chapter_manager : ChapterManager.t) : list text :=
  let cmd :=
    [t{"ffmpeg"}; t{"-f"}; t{"concat"}; t{"-safe"}; t{"0"}; t{"-i"};
     concat_file] in
  let cmd :=
    match cover_file with
    | Some cover => cmd ++ [t{"-i"}; cover]
    | None => cmd
    end in
  let cmd := cmd ++ [t{"-i"}; metadata_file; t{"-map"}; t{"0:a"}] in
  let cmd :=
    match cover_file with
    | Some _ =>
        cmd ++ [t{"-map"}; t{"1:v"}; t{"-disposition:v:0"}; t{"attached_pic"}]
    | None => cmd
    end in
  let cmd := cmd ++ [t{"-map_metadata"}; t{"2"}] in
  let cmd :=
    foldl (fun cmd '(i, chapter) =>
             let chapter_str := _format_chapter_mdta i chapter in
             (cmd ++ [t{"-metadata"};
                      t{"chapter"} ++ PyInt.str i ++ t{"="} ++ chapter_str])
             ++ [t{"-metadata"};
                 [chr 169] ++ t{"chp"} ++ PyInt.str i ++ t{"="} ++ chapter_str])
      cmd (ChapterManager.enumerate 1 (ChapterManager.chapters chapter_manager)) in
  let cmd := cmd ++ [t{"-c:a"}; t{"copy"}] in
  let cmd :=
    match cover_file with
    | Some _ => cmd ++ [t{"-c:v"}; t{"copy"}]
    | None => cmd
    end in
  cmd ++ [t{"-f"}; t{"mp4"}; t{"-y"}; output_path].

(** The timestamp of one line of [chapters.txt]: the formatted start with
    the trailing zeros of the milliseconds removed. *)
Definition _mp4chaps_timestamp (start_ms : Z) : text :=
  let timestamp := ChapterManager.format_timestamp start_ms in
  let time_parts := rsplit1 "." timestamp in
  match time_parts with
  | [base_time; ms] =>
      let ms := rstrip_chars t{"."} (rstrip_chars t{"0"} ms) in
      match ms with
      | [] => base_time
      | _ => base_time ++ t{"."} ++ ms
      end
  | _ => timestamp
  end.




End M4BCreator.

(** ** [class AudioHandler]

    The list [self.audio_files] and the method that sorts it.  Python sorts
    with the comparison [<] of the keys only, and keeps the order of the
    files whose keys do not differ: the insertion below does the same, and
    gives the list of [list.sort] whenever [<] is a strict total order on
    the keys, as it is on texts and on pairs of an integer and a text.  For
    the durations [float_lt] stands for [<] on floats. *)

Module AudioHandler.

(** [a < b] on [str]: the first code point that differs decides, and a
    proper prefix comes first. *)
Fixpoint text_lt (a b : text) : bool :=
  match a, b with
  | _, [] => false
  | [], _ :: _ => true
  | x :: a', y :: b' =>
      if (code x <? code y)%nat then true
      else if (code y <? code x)%nat then false
      else text_lt a' b'
  end.

(** [a < b] on tuples of an [int] and a [str]. *)
Definition key_lt (a b : Z * text) : bool :=
  if fst a =? fst b then text_lt (snd a) (snd b) else fst a <? fst b.

Fixpoint insert_sorted {A K} (lt : K -> K -> bool) (key : A -> K) (x : A)
    (xs : list A) : list A :=
  match xs with
  | [] => [x]
  | y :: ys =>
      if lt (key x) (key y) then x :: y :: ys
      else y :: insert_sorted lt key x ys
  end.

(** [xs.sort(key=key)]: each element, from the first to the last, goes
    after the elements before it that are not greater. *)
Definition list_sort {A K} (lt : K -> K -> bool) (key : A -> K)
    (xs : list A) : list A :=
  foldl (fun sorted x => insert_sorted lt key x sorted) [] xs.

(** The key [(x.track_number if x.track_number is not None else 999,
    x.filename)]. *)
Definition track_key {float} (x : AudioFile.t float) : Z * text :=
  (match AudioFile.track_number x with
   | Some track_number => track_number
   | None => 999
   end,
   AudioFile.filename x).

(** The new value of [self.audio_files], which is also what is returned. *)
Definition sort_files {float} (float_lt : float -> float -> bool)
    (sort_by : text) (audio_files : list (AudioFile.t float))
    : list (AudioFile.t float) :=
  if bool_decide (sort_by = t{"filename"})
  then list_sort text_lt AudioFile.filename audio_files
  else if bool_decide (sort_by = t{"track"})
  then list_sort key_lt track_key audio_files
  else if bool_decide (sort_by = t{"duration"})
  then list_sort float_lt AudioFile.duration_seconds audio_files
  else audio_files.

End AudioHandler.

(** ** [class ChapterEditorScreen]

    The screen holds the chapter manager and the selected row; the table
    [#chapter-table], the input [#edit-title-input] and the notifications
    belong to Textual.  What Textual does is left open: the widgets are a
    state of any type, and every call into them may change that state and
    may raise.  The same holds for the formatting of a duration, which
    divides in floating point. *)

Module ChapterEditorScreen.

(** The calls that leave the code of the screen. *)
Class Toolkit (widgets : Type) : Type := {
  (** [self.query_one(selector, ...)] *)
  query_one : text -> widgets -> result unit * widgets;
  (** [table.clear(columns=True)] *)
  clear : widgets -> result unit * widgets;
  (** [table.add_columns(...)] *)
  add_columns : list text -> widgets -> result unit * widgets;
  (** [table.add_row(...)] *)
  add_row : list text -> widgets -> result unit * widgets;
  (** [title_input.value] *)
  get_value : widgets -> result text * widgets;
  (** [title_input.value = value] *)
  set_value : text -> widgets -> result unit * widgets;
  (** [title_input.focus()] *)
  focus : widgets -> result unit * widgets;
  (** [self.notify(message, severity=severity)] *)
  notify : text -> text -> widgets -> result unit * widgets;
  (** [self.audio_handler.format_duration(duration_ms / 1000)] *)
  format_duration : Z -> result text;
}.

Record t (widgets : Type) : Type := mk {
  chapter_manager : ChapterManager.t;
  selected_row : Z;
  app : widgets;
}.
Arguments mk {widgets}.
Arguments chapter_manager {widgets}.
Arguments selected_row {widgets}.
Arguments app {widgets}.

Section Screen.

Context {widgets : Type} `{Toolkit widgets}.

(** A method of the screen: it reads and updates the screen, and returns
    or raises; what was changed before an exception stays changed. *)
Definition M (A : Type) : Type := t widgets -> result A * t widgets.

Definition ret {A} (a : A) : M A := fun self => (Ok a, self).

Definition bind {A B} (m : M A) (f : A -> M B) : M B :=
  fun self =>
    match m self with
    | (Ok a, self') => f a self'
    | (Raise e, self') => (Raise e, self')
    end.

Notation "x <- m ;; k" := (bind m (fun x => k))
  (at level 100, m at next level, right associativity).
Notation "m ;;; k" := (bind m (fun _ => k))
  (at level 100, right associativity).

Definition lift {A} (r : result A) : M A := fun self => (r, self).

(** A call into the widgets. *)
Definition call {A} (op : widgets -> result A * widgets) : M A :=
  fun self =>
    let '(r, widgets') := op (app self) in
    (r, mk (chapter_manager self) (selected_row self) widgets').

(** A method of [self.chapter_manager]. *)
Definition manager {A} (method : ChapterManager.M A) : M A :=
  fun self =>
    let '(r, chapter_manager') := method (chapter_manager self) in
    (r, mk chapter_manager' (selected_row self) (app self)).

Definition get_selected_row : M Z := fun self => (Ok (selected_row self), self).

Definition set_selected_row (row : Z) : M unit :=
  fun self => (Ok tt, mk (chapter_manager self) row (app self)).

(** [for x in xs: body(x)] *)
Fixpoint for_each {A} (xs : list A) (body : A -> M unit) : M unit :=
  match xs with
  | [] => ret tt
  | x :: xs' => body x ;;; for_each xs' body
  end.

(** [0 <= self.selected_row < len(self.chapter_manager.chapters)] *)
Definition row_in_range (row : Z) (chapters : list Chapter.t) : bool :=
  (0 <=? row) && (row <? ChapterManager.len chapters).

Definition _populate_table : M unit :=
  call (query_one t{"#chapter-table"}) ;;;
  call clear ;;;
  call (add_columns [t{"#"}; t{"Title"}; t{"Start"}; t{"Duration"}]) ;;;
  chapters <- manager ChapterManager.get_chapters ;;
  for_each (ChapterManager.enumerate 1 chapters) (fun '(i, chapter) =>
    let start_time :=
      ChapterManager.format_timestamp (Chapter.start_ms chapter) in
    duration <-
      (if Chapter.truthy (Chapter.duration_ms chapter)
       then lift (format_duration (default 0 (Chapter.duration_ms chapter)))
       else ret []) ;;
    call (add_row [PyInt.str i; Chapter.title chapter; start_time; duration])).

Definition on_data_table_row_selected (cursor_row : Z) : M unit :=
  set_selected_row cursor_row ;;;
  row <- get_selected_row ;;
  chapters <- manager ChapterManager.get_chapters ;;
  if row_in_range row chapters then
    chapter <- lift (ChapterManager.item chapters row) ;;
    call (query_one t{"#edit-title-input"}) ;;;
    call (set_value (Chapter.title chapter)) ;;;
    call focus
  else ret tt.

Definition _auto_name_chapters : M unit :=
  manager (ChapterManager.auto_name_chapters t{"Chapter {num}"}) ;;;
  _populate_table ;;;
  call (notify t{"Chapters auto-named"} t{"information"}).

Definition _update_chapter : M unit :=
  row <- get_selected_row ;;
  chapters <- manager ChapterManager.get_chapters ;;
  if negb (row_in_range row chapters)
  then call (notify t{"No chapter selected"} t{"warning"})
  else
    call (query_one t{"#edit-title-input"}) ;;;
    value <- call get_value ;;
    let new_title := strip value in
    match new_title with
    | [] => call (notify t{"Chapter title cannot be empty"} t{"error"})
    | _ =>
        row <- get_selected_row ;;
        manager (ChapterManager.update_chapter row (Some new_title) None None) ;;;
        _populate_table ;;;
        call (notify t{"Chapter updated"} t{"information"})
    end.

Definition _delete_chapter : M unit :=
  row <- get_selected_row ;;
  chapters <- manager ChapterManager.get_chapters ;;
  if negb (row_in_range row chapters)
  then call (notify t{"No chapter selected"} t{"warning"})
  else
    chapters <- manager ChapterManager.get_chapters ;;
    if ChapterManager.len chapters =? 1
    then call (notify t{"Cannot delete the only chapter"} t{"error"})
    else
      row <- get_selected_row ;;
      manager (ChapterManager.remove_chapter row) ;;;
      _populate_table ;;;
      call (notify t{"Chapter deleted"} t{"information"}).

End Screen.

Arguments M : clear implicits.

End ChapterEditorScreen.

(** ** Notions used to state the properties *)

(** A run of decimal digits and the number it denotes. *)
Definition all_digits (s : text) : bool := forallb is_digit s.

Definition value_from (acc : Z) (s : text) : Z :=
  foldl (fun a c => 10 * a + digit_value c) acc s.

Definition value (s : text) : Z := value_from 0 s.

(** A colon segment that [int] does not accept. *)
Definition rejected (seg : text) : bool := negb (is_ok (PyInt.int seg)).

(** The milliseconds denoted by the digits of a fractional part. *)
Definition fraction_ms (frac : text) : Z := value (take 3 (ljust 3 "0" frac)).

(** The seconds denoted by the values of one, two or three colon segments. *)
Definition seconds_of (values : list Z) : Z :=
  match values with
  | [hours; minutes; seconds] => hours * 3600 + minutes * 60 + seconds
  | [minutes; seconds] => minutes * 60 + seconds
  | [seconds] => seconds
  | _ => 0
  end.

(** *** Title normalisation, in the words of its description *)

(** The number of leading characters of [s] in the class [p]. *)
Fixpoint run_length (p : ascii -> bool) (s : text) : nat :=
  match s with
  | c :: s' => if p c then S (run_length p s') else O
  | [] => O
  end.

(** [s] begins with the word [w], whatever the case of the letters. *)
Fixpoint begins_with (w s : text) : bool :=
  match w, s with
  | [], _ => true
  | a :: w', c :: s' => Ascii.eqb (lower c) (lower a) && begins_with w' s'
  | _ :: _, [] => false
  end.

(** Where [$] matches: at the end of the text, or before a last newline. *)
Definition at_end (s : text) : bool :=
  match s with
  | [] => true
  | [c] => Ascii.eqb c nl
  | _ => false
  end.

Definition AUDIO_EXTENSIONS : list text := [t{"mp3"}; t{"m4a"}; t{"m4b"}].

(** [s] is a dot, a recognized audio extension, and the end of the text. *)
Definition extension_at (s : text) : bool :=
  match s with
  | c :: s' =>
      Ascii.eqb c "."
      && existsb (fun ext => begins_with ext s' && at_end (drop 3 s'))
           AUDIO_EXTENSIONS
  | [] => false
  end.

(** The text ends in a recognized audio extension. *)
Fixpoint ends_with_audio_extension (s : text) : bool :=
  extension_at s
  || match s with
     | _ :: s' => ends_with_audio_extension s'
     | [] => false
     end.

(** Step 1: the extension is stripped. *)
Fixpoint strip_extension (s : text) : text :=
  match s with
  | [] => []
  | c :: s' => if extension_at s then drop 4 s else c :: strip_extension s'
  end.

(** The length of the leading numeric label: an optional [track] word and
    blanks, a number, and at least one separator. *)
Definition track_number_length (s : text) : option nat :=
  let word :=
    if begins_with t{"track"} s
    then (5 + run_length is_space (drop 5 s))%nat else O in
  let number := run_length is_digit (drop word s) in
  let separators := run_length Chapter.is_separator (drop (word + number) s) in
  if (0 <? number)%nat && (0 <? separators)%nat
  then Some (word + number + separators)%nat
  else None.

Definition begins_with_track_number (s : text) : bool :=
  bool_decide (is_Some (track_number_length s)).

(** Step 2: the leading numeric label is stripped. *)
Definition strip_track_number (s : text) : text :=
  match track_number_length s with
  | Some n => drop n s
  | None => s
  end.

(** Every maximal run of characters of the class [p] becomes one blank. *)
Fixpoint collapse (p : ascii -> bool) (in_run : bool) (s : text) : text :=
  match s with
  | [] => []
  | c :: s' =>
      if p c then
        if in_run then collapse p true s'
        else " "%char :: collapse p true s'
      else c :: collapse p false s'
  end.

(** Step 3: the light cleanup. *)
Definition light_cleanup (s : text) : text :=
  strip (collapse is_space false (collapse (Ascii.eqb "_") false s)).

(** Step 4: an empty result gives way to the original text. *)
Definition or_original (original cleaned : text) : text :=
  match cleaned with
  | [] => original
  | _ => cleaned
  end.

(** *** Chapters built from timestamps *)

(** The chapters for a list of (start, title) pairs: each lasts until the
    next one starts, and the last has no duration. *)
Fixpoint with_durations (pairs : list (Z * text)) : list Chapter.t :=
  match pairs with
  | [] => []
  | (start_ms, title) :: rest =>
      Chapter.new title start_ms
        (match rest with
         | (next, _) :: _ => Some (next - start_ms)
         | [] => None
         end) None
      :: with_durations rest
  end.

(** One (time string, title) pair, parsed. *)
Definition parse_pair (pair : text * text) : result (Z * text) :=
  rbind (ChapterManager._parse_timestamp (fst pair))
    (fun start_ms => Ok (start_ms, snd pair)).

(** What a chapter list has to satisfy after [create_from_timestamps]: each
    chapter lasts until the next one starts, the last has no duration. *)
Definition durations_follow (cs : list Chapter.t) : Prop :=
  forall k c,
    cs !! k = Some c ->
    Chapter.duration_ms c
    = match cs !! S k with
      | Some next => Some (Chapter.start_ms next - Chapter.start_ms c)
      | None => None
      end.

(** The value of a computation that returned. *)
Definition returned {A} (r : result A) : option A :=
  match r with
  | Ok a => Some a
  | Raise _ => None
  end.

(** *** Validation *)

(** [s] begins with the text [w], letter for letter. *)
Fixpoint starts_with (w s : text) : bool :=
  match w, s with
  | [], _ => true
  | a :: w', c :: s' => Ascii.eqb c a && starts_with w' s'
  | _ :: _, [] => false
  end.

(** The earlier chapter has a known duration and ends after the later one
    starts. *)
Definition overlaps (earlier later : Chapter.t) : bool :=
  match Chapter.duration_ms earlier with
  | Some d => Chapter.start_ms later <? Chapter.start_ms earlier + d
  | None => false
  end.

Definition overlap_warning (earlier later : Chapter.t) : text :=
  t{"Chapters '"} ++ Chapter.title earlier ++ t{"' and '"}
  ++ Chapter.title later ++ t{"' overlap"}.

(** One warning for each adjacent pair that overlaps, in the order of the
    list. *)
Fixpoint overlap_warnings (cs : list Chapter.t) : list text :=
  match cs with
  | earlier :: rest =>
      match rest with
      | later :: _ =>
          (if overlaps earlier later then [overlap_warning earlier later]
           else [])
          ++ overlap_warnings rest
      | [] => []
      end
  | [] => []
  end.

(** The warnings on titles and on times, for chapters numbered from [i]. *)
Fixpoint title_warnings (i : Z) (cs : list Chapter.t) : list text :=
  match cs with
  | c :: cs' =>
      (match strip (Chapter.title c) with
       | [] => [t{"Chapter "} ++ PyInt.str i ++ t{" has empty title"}]
       | _ => []
       end)
      ++ title_warnings (i + 1) cs'
  | [] => []
  end.

Fixpoint time_warnings (i : Z) (cs : list Chapter.t) : list text :=
  match cs with
  | c :: cs' =>
      (if Chapter.start_ms c <? 0
       then [t{"Chapter "} ++ PyInt.str i ++ t{" has negative start time"}]
       else [])
      ++ (match Chapter.duration_ms c with
          | Some d =>
              if d <? 0
              then [t{"Chapter "} ++ PyInt.str i
                    ++ t{" has negative duration"}]
              else []
          | None => []
          end)
      ++ time_warnings (i + 1) cs'
  | [] => []
  end.

(** A warning about an overlap begins with [Chapters '], which no other
    warning does. *)
Definition is_overlap_warning (w : text) : bool := starts_with t{"Chapters '"} w.

(** *** Rendering *)

Definition line (s : text) : text := s ++ [nl].

(** The end offset of a chapter. *)
Definition end_ms (c : Chapter.t) : Z :=
  match Chapter.duration_ms c with
  | Some d => Chapter.start_ms c + d
  | None => Chapter.start_ms c
  end.

Definition chapter_block (c : Chapter.t) : text :=
  line t{"[CHAPTER]"}
  ++ line t{"TIMEBASE=1/1000"}
  ++ line (t{"START="} ++ PyInt.str (Chapter.start_ms c))
  ++ line (t{"END="} ++ PyInt.str (end_ms c))
  ++ line (t{"title="} ++ Chapter.title c).

(** *** Chapters built from files *)

(** The title that [create_from_files] takes for a file. *)
Definition chosen_title {float} (prefer_id3_titles : bool)
    (audio_file : AudioFile.t float) : text :=
  if prefer_id3_titles && ChapterManager.text_truthy (AudioFile.title audio_file)
  then default [] (AudioFile.title audio_file)
  else AudioFile.filename audio_file.

(** One chapter for each file and its duration in milliseconds, each
    starting where the one before ends. *)
Fixpoint consecutive {float} (prefer_id3_titles : bool) (start_ms : Z)
    (files : list (AudioFile.t float * Z)) : list Chapter.t :=
  match files with
  | [] => []
  | (audio_file, duration_ms) :: rest =>
      Chapter.new (chosen_title prefer_id3_titles audio_file) start_ms
        (Some duration_ms) (Some (AudioFile.path audio_file))
      :: consecutive prefer_id3_titles (start_ms + duration_ms) rest
  end.

(** The number of files whose title comes from the tag. *)
Definition tagged {float} (prefer_id3_titles : bool)
    (files : list (AudioFile.t float)) : Z :=
  Z.of_nat
    (length (List.filter
               (fun f => prefer_id3_titles
                         && ChapterManager.text_truthy (AudioFile.title f))
               files)).

Definition sum_list (xs : list Z) : Z := foldr Z.add 0 xs.

(** *** A model without warnings *)

Definition well_titled (c : Chapter.t) : Prop := strip (Chapter.title c) <> [].

Definition well_timed (c : Chapter.t) : Prop :=
  0 <= Chapter.start_ms c
  /\ forall d, Chapter.duration_ms c = Some d -> 0 <= d.

(** No chapter overlaps the one that follows it in the list. *)
Definition no_overlap (cs : list Chapter.t) : Prop :=
  forall k earlier later,
    cs !! k = Some earlier -> cs !! S k = Some later ->
    overlaps earlier later = false.

(** *** Words *)

(** A word: not empty and without whitespace. *)
Definition is_word (w : text) : Prop :=
  w <> [] /\ Forall (fun c => is_space c = false) w.

(** The arguments that follow the option [flag] in a command line. *)
Fixpoint following (flag : text) (cmd : list text) : list text :=
  match cmd with
  | a :: rest =>
      match rest with
      | b :: rest' =>
          if bool_decide (a = flag) then b :: following flag rest'
          else following flag rest
      | [] => []
      end
  | [] => []
  end.

(** The value of a chapter tag: a key, the number of the chapter and the
    chapter in the MDTA form. *)
Definition mdta_tag (key : text) (chapter_num : Z) (chapter : Chapter.t)
    : text :=
  key ++ PyInt.str chapter_num ++ t{"="}
  ++ M4BCreator._format_chapter_mdta chapter_num chapter.

(** The arguments that give the two tags of each numbered chapter. *)
Definition mdta_arguments (numbered : list (Z * Chapter.t)) : list text :=
  concat (map (fun '(i, chapter) =>
                 [t{"-metadata"}; mdta_tag t{"chapter"} i chapter;
                  t{"-metadata"};
                  mdta_tag ([chr 169] ++ t{"chp"}) i chapter])
            numbered).

(** *** The lines of the metadata file *)

Definition unlines (lines : list text) : text := concat (map line lines).

(** What is written for a character of the description. *)
Definition sanitise (c : ascii) : ascii :=
  if Ascii.eqb c nl then " "%char
  else if Ascii.eqb c ";" then ","%char
  else c.

(** The lines on the book. *)
Definition book_lines (metadata : BookMetadata.t) (narrator : option text)
    : list text :=
  [t{";FFMETADATA1"}; t{"title="} ++ BookMetadata.title metadata]
  ++ match BookMetadata.authors metadata with
     | [] => []
     | authors =>
         [t{"artist="} ++ join t{", "} authors;
          t{"album_artist="} ++ join t{", "} authors]
     end
  ++ [t{"album="} ++ BookMetadata.title metadata]
  ++ match narrator with
     | Some (c :: name) => [t{"composer="} ++ c :: name]
     | _ => []
     end
  ++ match BookMetadata.publication_year metadata with
     | Some year => if year =? 0 then [] else [t{"date="} ++ PyInt.str year]
     | None => []
     end
  ++ match BookMetadata.description metadata with
     | Some (c :: description) =>
         [t{"comment="} ++ map sanitise (c :: description)]
     | _ => []
     end
  ++ [t{"genre=Audiobook"}].

(** The lines of a chapter. *)
Definition chapter_lines (c : Chapter.t) : list text :=
  [t{"[CHAPTER]"}; t{"TIMEBASE=1/1000"};
   t{"START="} ++ PyInt.str (Chapter.start_ms c);
   t{"END="} ++ PyInt.str (end_ms c);
   t{"title="} ++ Chapter.title c].

(** *** Expansions *)

(** The outcome of a computation without its value. *)
Definition outcome {A} (r : result A) : result unit :=
  match r with
  | Ok _ => Ok tt
  | Raise e => Raise e
  end.

(** *** A session in the chapter editor *)

(** What happens on the screen: the user selects a row of the table or
    presses one of the three buttons (or the key bound to the same
    method); or something else happens to the widgets, as when the user
    types a text into the input. *)
Inductive user_action (widgets : Type) : Type :=
  | SelectRow (cursor_row : Z)
  | PressAutoName
  | PressUpdate
  | PressDelete
  | Elsewhere (change : widgets -> widgets).
Arguments SelectRow {widgets}.
Arguments PressAutoName {widgets}.
Arguments PressUpdate {widgets}.
Arguments PressDelete {widgets}.
Arguments Elsewhere {widgets}.

Definition handle {widgets} {toolkit : ChapterEditorScreen.Toolkit widgets}
    (action : user_action widgets) : ChapterEditorScreen.M widgets unit :=
  match action with
  | SelectRow cursor_row =>
      ChapterEditorScreen.on_data_table_row_selected cursor_row
  | PressAutoName => ChapterEditorScreen._auto_name_chapters
  | PressUpdate => ChapterEditorScreen._update_chapter
  | PressDelete => ChapterEditorScreen._delete_chapter
  | Elsewhere change =>
      fun self =>
        (Ok tt,
         ChapterEditorScreen.mk (ChapterEditorScreen.chapter_manager self)
           (ChapterEditorScreen.selected_row self)
           (change (ChapterEditorScreen.app self)))
  end.

(** The actions are handled one after the other, up to the first one that
    raises. *)
Fixpoint session {widgets} {toolkit : ChapterEditorScreen.Toolkit widgets}
    (actions : list (user_action widgets))
    : ChapterEditorScreen.M widgets unit :=
  match actions with
  | [] => ChapterEditorScreen.ret tt
  | action :: rest =>
      ChapterEditorScreen.bind (handle action) (fun _ => session rest)
  end.

(** Widgets whose calls all return. *)
Definition quiet {widgets} (toolkit : ChapterEditorScreen.Toolkit widgets)
    : Prop :=
  (forall selector w, fst (ChapterEditorScreen.query_one selector w) = Ok tt)
  /\ (forall w, fst (ChapterEditorScreen.clear w) = Ok tt)
  /\ (forall labels w, fst (ChapterEditorScreen.add_columns labels w) = Ok tt)
  /\ (forall cells w, fst (ChapterEditorScreen.add_row cells w) = Ok tt)
  /\ (forall w, is_ok (fst (ChapterEditorScreen.get_value w)) = true)
  /\ (forall value w, fst (ChapterEditorScreen.set_value value w) = Ok tt)
  /\ (forall w, fst (ChapterEditorScreen.focus w) = Ok tt)
  /\ (forall message severity w,
        fst (ChapterEditorScreen.notify message severity w) = Ok tt)
  /\ (forall duration_ms,
        is_ok (ChapterEditorScreen.format_duration duration_ms) = true).

(** A computation that leaves the chapter manager and the selected row as
    they are, whether it returns or raises, and returns when the calls
    into the widgets do. *)
Definition steady {widgets} {toolkit : ChapterEditorScreen.Toolkit widgets}
    {A} (m : ChapterEditorScreen.M widgets A) : Prop :=
  forall self, exists r w,
    m self
    = (r, ChapterEditorScreen.mk (ChapterEditorScreen.chapter_manager self)
            (ChapterEditorScreen.selected_row self) w)
    /\ (quiet toolkit -> is_ok r = true).

(** Widgets that are the text of the input and nothing else; every call
    returns. *)
Definition input_only : ChapterEditorScreen.Toolkit text := {|
  ChapterEditorScreen.query_one := fun _ value => (Ok tt, value);
  ChapterEditorScreen.clear := fun value => (Ok tt, value);
  ChapterEditorScreen.add_columns := fun _ value => (Ok tt, value);
  ChapterEditorScreen.add_row := fun _ value => (Ok tt, value);
  ChapterEditorScreen.get_value := fun value => (Ok value, value);
  ChapterEditorScreen.set_value := fun value _ => (Ok tt, value);
  ChapterEditorScreen.focus := fun value => (Ok tt, value);
  ChapterEditorScreen.notify := fun _ _ value => (Ok tt, value);
  ChapterEditorScreen.format_duration := fun _ => Ok [];
|}.

(** What the editor has no way to change in a chapter. *)
Definition timing (c : Chapter.t) : Z * option Z * option text :=
  (Chapter.start_ms c, Chapter.duration_ms c, Chapter.file_path c).

(** What an action of the editor may do to the chapters: those left were
    there, in their order and with their times; the statistics stay; a
    chapter is left when there was one; no blank title appears. *)
Definition kept (before after : ChapterManager.t) : Prop :=
  sublist (map timing (ChapterManager.chapters after))
    (map timing (ChapterManager.chapters before))
  /\ ChapterManager.last_create_stats after
     = ChapterManager.last_create_stats before
  /\ (ChapterManager.chapters before <> [] ->
      ChapterManager.chapters after <> [])
  /\ (Forall well_titled (ChapterManager.chapters before) ->
      Forall well_titled (ChapterManager.chapters after)).

(** What is shown of a computation of the screen that starts in [self],
    in a session that began with the manager [before]: whether it returns
    or raises, the manager it leaves is one that the editor may make of
    [before]; and it returns when the calls into the widgets do. *)
Definition goes_well {widgets} {toolkit : ChapterEditorScreen.Toolkit widgets}
    {A} (before : ChapterManager.t) (m : ChapterEditorScreen.M widgets A)
    (self : ChapterEditorScreen.t widgets) : Prop :=
  kept before (ChapterEditorScreen.chapter_manager (snd (m self)))
  /\ (quiet toolkit -> is_ok (fst (m self)) = true).

(** ** Facts on text *)

Section TextFacts.

Implicit Types (s a b : text) (sep c : ascii).

Lemma contains_app sep a b :
  contains sep (a ++ b) = contains sep a || contains sep b.
Proof. unfold contains. apply existsb_app. Qed.

Lemma split_without sep s : contains sep s = false -> split sep s = [s].
Proof.
  induction s as [|c s IH]; cbn; [done|].
  rewrite (Ascii.eqb_sym c sep).
  destruct (Ascii.eqb sep c); cbn; [done|].
  intros H. by rewrite IH.
Qed.

Lemma split_app sep a b :
  contains sep a = false -> split sep (a ++ sep :: b) = a :: split sep b.
Proof.
  induction a as [|c a IH]; cbn.
  - intros _. by rewrite Ascii.eqb_refl.
  - rewrite (Ascii.eqb_sym c sep).
    destruct (Ascii.eqb sep c); cbn; [done|].
    intros H. by rewrite IH.
Qed.

Lemma contains_digits sep s :
  is_digit sep = false -> all_digits s = true -> contains sep s = false.
Proof.
  intros Hsep. unfold contains, all_digits.
  induction s as [|c s IH]; cbn; [done|].
  intros [Hc Hs]%andb_prop.
  rewrite IH by done. rewrite orb_false_r.
  destruct (Ascii.eqb_spec sep c) as [->|]; [congruence|done].
Qed.

Lemma all_digits_app a b :
  all_digits (a ++ b) = all_digits a && all_digits b.
Proof. unfold all_digits. apply forallb_app. Qed.

Lemma all_digits_replicate n : all_digits (replicate n "0"%char) = true.
Proof. induction n; cbn; auto. Qed.

Lemma value_from_app acc a b :
  value_from acc (a ++ b) = value_from (value_from acc a) b.
Proof. unfold value_from. apply foldl_app. Qed.

Lemma value_from_zeros n s :
  value_from 0 (replicate n "0"%char ++ s) = value_from 0 s.
Proof. induction n; cbn; auto. Qed.

Lemma value_from_bounds acc s :
  0 <= acc -> all_digits s = true ->
  acc * 10 ^ Z.of_nat (length s) <= value_from acc s
  < (acc + 1) * 10 ^ Z.of_nat (length s).
Proof.
  revert acc. induction s as [|c s IH]; intros acc Hacc Hs.
  - cbn. lia.
  - cbn in Hs. apply andb_prop in Hs as [Hc Hs].
    assert (0 <= digit_value c <= 9) as Hd.
    { unfold is_digit in Hc. unfold digit_value.
      apply andb_prop in Hc as [?%Nat.leb_le ?%Nat.leb_le]. lia. }
    cbn [value_from foldl length].
    specialize (IH (10 * acc + digit_value c) ltac:(lia) Hs).
    unfold value_from in IH.
    rewrite Nat2Z.inj_succ, Z.pow_succ_r by lia.
    set (p := 10 ^ Z.of_nat (length s)) in *.
    assert (0 < p) by (subst p; apply Z.pow_pos_nonneg; lia).
    nia.
Qed.

End TextFacts.

(** ** Facts on the conversions between integers and text *)

Section PyIntFacts.

Import PyInt.

Lemma scan_digits_all acc s :
  all_digits s = true -> scan_digits acc s = Some (value_from acc s, []).
Proof.
  revert acc. induction s as [|c s IH]; intros acc; cbn; [done|].
  intros [Hc Hs]%andb_prop. rewrite Hc. by apply IH.
Qed.

Lemma is_digit_not_int_space c : is_digit c = true -> is_int_space c = false.
Proof.
  unfold is_digit, is_int_space.
  intros [?%Nat.leb_le ?%Nat.leb_le]%andb_prop.
  repeat (apply orb_false_intro);
    try apply andb_false_iff; rewrite ?Nat.leb_gt, ?Nat.eqb_neq; lia.
Qed.

(** [int] on a non-empty run of digits gives its value. *)
Lemma int_digits s :
  s <> [] -> all_digits s = true -> int s = Ok (value s).
Proof.
  destruct s as [|c s]; [done|]. intros _ Hs.
  pose proof Hs as [Hc Hs']%andb_prop.
  unfold int. cbn [skip_int_space].
  rewrite (is_digit_not_int_space c Hc).
  assert (Ascii.eqb c "-" = false) as ->.
  { destruct (Ascii.eqb_spec c "-") as [->|]; [by cbv in Hc|done]. }
  assert (Ascii.eqb c "+" = false) as ->.
  { destruct (Ascii.eqb_spec c "+") as [->|]; [by cbv in Hc|done]. }
  unfold magnitude. rewrite Hc, (scan_digits_all _ _ Hs'). done.
Qed.

Lemma string_of_uint_digits d :
  all_digits (Text.of_string (NilEmpty.string_of_uint d)) = true.
Proof. induction d; cbn; auto. Qed.

Ltac eval_digit :=
  repeat match goal with
  | |- context [digit_value ?c] =>
      let v := eval vm_compute in (digit_value c) in
      change (digit_value c) with v
  end.

Lemma value_from_uint_acc d acc :
  value_from (Z.pos acc) (Text.of_string (NilEmpty.string_of_uint d))
  = Z.pos (Pos.of_uint_acc d acc).
Proof.
  revert acc. induction d; intros acc; cbn [NilEmpty.string_of_uint
    Text.of_string list_ascii_of_string value_from foldl Pos.of_uint_acc];
    [done|..]; unfold value_from in *;
    rewrite <- IHd; f_equal; eval_digit; lia.
Qed.

Lemma value_of_uint d :
  value (Text.of_string (NilEmpty.string_of_uint d))
  = Z.of_N (Pos.of_uint d).
Proof.
  unfold value.
  induction d; cbn [NilEmpty.string_of_uint Text.of_string
    list_ascii_of_string value_from foldl Pos.of_uint]; [done|..];
    eval_digit; [done|..]; cbn [Z.mul Z.add Z.of_N];
    apply value_from_uint_acc.
Qed.

Lemma str_nonneg n :
  0 <= n -> all_digits (PyInt.str n) = true /\ PyInt.str n <> [] /\ value (PyInt.str n) = n.
Proof.
  intros Hn. unfold PyInt.str. destruct n as [|p|p]; [by cbn| |lia].
  cbn [Z.to_int NilZero.string_of_int].
  assert (NilZero.string_of_uint (Pos.to_uint p)
          = NilEmpty.string_of_uint (Pos.to_uint p)) as ->.
  { pose proof (DecimalPos.Unsigned.to_uint_nonnil p).
    by destruct (Pos.to_uint p). }
  split_and!.
  - apply string_of_uint_digits.
  - pose proof (DecimalPos.Unsigned.to_uint_nonnil p).
    by destruct (Pos.to_uint p).
  - rewrite value_of_uint, DecimalPos.Unsigned.of_to. done.
Qed.

Lemma format_0d_nonneg w n :
  0 <= n ->
  all_digits (PyInt.format_0d w n) = true
  /\ PyInt.format_0d w n <> []
  /\ value (PyInt.format_0d w n) = n
  /\ (w <= length (PyInt.format_0d w n))%nat.
Proof.
  intros Hn. destruct (str_nonneg n Hn) as (Hd & Hne & Hv).
  unfold PyInt.format_0d. destruct (Z.ltb_spec n 0) as [|_]; [lia|].
  unfold rjust. split_and!.
  - by rewrite all_digits_app, all_digits_replicate.
  - destruct (PyInt.str n); [done|]. by destruct (replicate _ _).
  - unfold value. by rewrite value_from_zeros.
  - rewrite length_app, length_replicate. lia.
Qed.

(** Below [10 ^ w] the field is exactly [w] wide, for the widths in use. *)
Lemma format_0d_width_2 n :
  0 <= n < 100 -> length (PyInt.format_0d 2 n) = 2%nat.
Proof.
  intros Hn.
  assert (forallb (fun k =>
            (length (PyInt.format_0d 2 (Z.of_nat k)) =? 2)%nat)
            (seq 0 100) = true) as Hall by (vm_compute; reflexivity).
  rewrite forallb_forall in Hall.
  specialize (Hall (Z.to_nat n)). rewrite Z2Nat.id in Hall by lia.
  apply Nat.eqb_eq, Hall, in_seq. lia.
Qed.

Lemma format_0d_width_3 n :
  0 <= n < 1000 -> length (PyInt.format_0d 3 n) = 3%nat.
Proof.
  intros Hn.
  assert (forallb (fun k =>
            (length (PyInt.format_0d 3 (Z.of_nat k)) =? 3)%nat)
            (seq 0 1000) = true) as Hall by (vm_compute; reflexivity).
  rewrite forallb_forall in Hall.
  specialize (Hall (Z.to_nat n)). rewrite Z2Nat.id in Hall by lia.
  apply Nat.eqb_eq, Hall, in_seq. lia.
Qed.

(** A field as wide as its minimum holds a number below [10 ^ w]. *)
Lemma format_0d_width_bound w n :
  0 <= n -> length (PyInt.format_0d w n) = w -> n < 10 ^ Z.of_nat w.
Proof.
  intros Hn Hlen. destruct (format_0d_nonneg w n Hn) as (Hd & _ & Hv & _).
  pose proof (value_from_bounds 0 _ ltac:(lia) Hd) as Hb.
  unfold value in Hv. rewrite Hv, Hlen in Hb. lia.
Qed.

End PyIntFacts.

(** ** Facts on computations that may raise *)

Section ResultFacts.

Context {A B : Type} (f : A -> result B).

Lemma rmap_ok xs ys :
  rmap f xs = Ok ys <-> Forall2 (fun x y => f x = Ok y) xs ys.
Proof.
  revert ys. induction xs as [|x xs IH]; intros ys; cbn.
  - split; [intros [= <-]; constructor|by inversion 1].
  - destruct (f x) as [y|e] eqn:Hx; cbn.
    + destruct (rmap f xs) as [ys'|e] eqn:Hxs; cbn.
      * split.
        -- intros [= <-]. constructor; [done|by apply IH].
        -- inversion 1 as [|? y' ? ys'' Hy Hys]; subst.
           apply IH in Hys. congruence.
      * split; [done|].
        inversion 1 as [|? y' ? ys'' Hy Hys]; subst.
        apply IH in Hys. congruence.
    + split; [done|]. inversion 1; congruence.
Qed.

Lemma rmap_raise xs e :
  rmap f xs = Raise e <->
  exists pre x post,
    xs = pre ++ x :: post
    /\ Forall (fun p => is_ok (f p) = true) pre /\ f x = Raise e.
Proof.
  split.
  - induction xs as [|x xs IH]; cbn; [done|].
    destruct (f x) as [y|e'] eqn:Hx; cbn.
    + destruct (rmap f xs) as [ys'|e'] eqn:Hxs; cbn; [done|].
      intros [= ->]. destruct (IH eq_refl) as (pre & x' & post & -> & ? & ?).
      exists (x :: pre), x', post. split_and!; [done| |done].
      constructor; [by rewrite Hx|done].
    + intros [= ->]. exists [], x, xs. by split_and!.
  - intros (pre & x & post & -> & Hpre & Hx).
    induction Hpre as [|p pre Hp _ IH]; cbn.
    + by rewrite Hx.
    + destruct (f p); [|done]. cbn. by rewrite IH.
Qed.

End ResultFacts.

(** ** The timestamp codec *)

Section TimestampCodec.

Import ChapterManager.

(** The fields of a formatted timestamp. *)
Lemma format_timestamp_fields ms :
  0 <= ms ->
  let H := PyInt.format_0d 2 (ms / 1000 / 3600) in
  let M := PyInt.format_0d 2 ((ms / 1000) mod 3600 / 60) in
  let S := PyInt.format_0d 2 ((ms / 1000) mod 60) in
  let F := PyInt.format_0d 3 (ms mod 1000) in
  format_timestamp ms = H ++ t{":"} ++ M ++ t{":"} ++ S ++ t{"."} ++ F
  /\ (all_digits H = true /\ H <> [] /\ value H = ms / 1000 / 3600)
  /\ (all_digits M = true /\ length M = 2%nat
      /\ value M = (ms / 1000) mod 3600 / 60)
  /\ (all_digits S = true /\ length S = 2%nat /\ value S = (ms / 1000) mod 60)
  /\ (all_digits F = true /\ length F = 3%nat /\ value F = ms mod 1000).
Proof.
  intros Hms H M S F.
  assert (0 <= ms / 1000 / 3600) as Hh by (repeat apply Z.div_pos; lia).
  assert (0 <= (ms / 1000) mod 3600 / 60 < 60) as Hm.
  { pose proof (Z.mod_pos_bound (ms / 1000) 3600 ltac:(lia)).
    split; [apply Z.div_pos; lia|apply Z.div_lt_upper_bound; lia]. }
  assert (0 <= (ms / 1000) mod 60 < 60) as Hs
    by (apply Z.mod_pos_bound; lia).
  assert (0 <= ms mod 1000 < 1000) as Hf by (apply Z.mod_pos_bound; lia).
  destruct (format_0d_nonneg 2 _ Hh) as (? & ? & ? & _).
  destruct (format_0d_nonneg 2 _ (proj1 Hm)) as (? & _ & ? & _).
  destruct (format_0d_nonneg 2 _ (proj1 Hs)) as (? & _ & ? & _).
  destruct (format_0d_nonneg 3 _ (proj1 Hf)) as (? & _ & ? & _).
  split_and!; try done.
  - apply format_0d_width_2; lia.
  - apply format_0d_width_2; lia.
  - by apply format_0d_width_3.
Qed.

(** Parsing a text made of well-formed fields. *)
Lemma parse_timestamp_fields H M S F :
  all_digits H = true -> H <> [] ->
  all_digits M = true -> M <> [] ->
  all_digits S = true -> S <> [] ->
  all_digits F = true -> length F = 3%nat ->
  _parse_timestamp (H ++ t{":"} ++ M ++ t{":"} ++ S ++ t{"."} ++ F)
  = Ok ((value H * 3600 + value M * 60 + value S) * 1000 + value F).
Proof.
  intros HH HHne HM HMne HS HSne HF HFlen.
  assert (contains "." (H ++ t{":"} ++ M ++ t{":"} ++ S) = false) as Hnodot.
  { rewrite !contains_app.
    rewrite (contains_digits "." H), (contains_digits "." M),
      (contains_digits "." S) by done. done. }
  unfold _parse_timestamp.
  replace (H ++ t{":"} ++ M ++ t{":"} ++ S ++ t{"."} ++ F)
    with ((H ++ t{":"} ++ M ++ t{":"} ++ S) ++ "."%char :: F)
    by (by rewrite <- !app_assoc).
  rewrite contains_app.
  replace (contains "." ("."%char :: F)) with true by done.
  rewrite orb_true_r.
  rewrite split_app, (split_without "." F) by (done || by apply contains_digits).
  assert (take 3 (ljust 3 "0" F) = F) as ->.
  { unfold ljust. rewrite HFlen. cbn. rewrite app_nil_r.
    apply take_ge. lia. }
  rewrite int_digits by (done || by intros ->).
  cbn [rbind].
  replace (H ++ t{":"} ++ M ++ t{":"} ++ S)
    with (H ++ ":"%char :: (M ++ ":"%char :: S)) by done.
  rewrite split_app, split_app, split_without by (by apply contains_digits).
  cbn [length rmap rbind]. rewrite !int_digits by done. done.
Qed.

Lemma hours_field_width ms :
  0 <= ms ->
  length (PyInt.format_0d 2 (ms / 1000 / 3600)) = 2%nat <-> ms < 360000000.
Proof.
  intros Hms.
  assert (0 <= ms / 1000 / 3600) as Hh by (repeat apply Z.div_pos; lia).
  split.
  - intros Hlen%format_0d_width_bound; [|done].
    change (10 ^ Z.of_nat 2) with 100 in Hlen.
    Z.to_euclidean_division_equations; lia.
  - intros Hlt. apply format_0d_width_2.
    Z.to_euclidean_division_equations; lia.
Qed.

(** C1, the counterexample: at one hundred hours the hour field takes three
    digits, so the rendered width is not fixed. *)
Lemma format_timestamp_width_not_fixed :
  format_timestamp 360000000 = t{"100:00:00.000"}
  /\ ~ (forall ms, 0 <= ms ->
          length (format_timestamp ms) = length (format_timestamp 0)).
Proof.
  split; [by vm_compute|].
  intros Hfixed. specialize (Hfixed 360000000 ltac:(lia)).
  vm_compute in Hfixed. discriminate.
Qed.

(** C1, as amended: for every [ms >= 0], parsing the formatted timestamp
    gives [ms] back; the rendering is hours, minutes, seconds and
    milliseconds in decimal digits, separated by [:], [:] and [.], with
    minutes and seconds on exactly two digits, milliseconds on exactly three,
    and hours zero-padded to at least two digits: exactly two, for a total
    width of 12, if and only if [ms < 360000000]. *)
Theorem timestamp_roundtrip ms :
  0 <= ms ->
  _parse_timestamp (format_timestamp ms) = Ok ms
  /\ (exists H M S F : text,
        format_timestamp ms = H ++ t{":"} ++ M ++ t{":"} ++ S ++ t{"."} ++ F
        /\ all_digits H = true /\ value H = ms / 3600000
        /\ all_digits M = true /\ value M = ms / 60000 mod 60
        /\ all_digits S = true /\ value S = ms / 1000 mod 60
        /\ all_digits F = true /\ value F = ms mod 1000
        /\ (2 <= length H)%nat /\ length M = 2%nat /\ length S = 2%nat
        /\ length F = 3%nat
        /\ (length H = 2%nat <-> ms < 360000000))
  /\ (length (format_timestamp ms) = 12%nat <-> ms < 360000000).
Proof.
  intros Hms.
  destruct (format_timestamp_fields ms Hms)
    as (Heq & (HH & HHne & HHv) & (HM & HMlen & HMv) & (HS & HSlen & HSv)
        & (HF & HFlen & HFv)).
  pose proof (hours_field_width ms Hms) as Hwidth.
  destruct (format_0d_nonneg 2 (ms / 1000 / 3600)) as (_ & _ & _ & HHlen);
    [repeat apply Z.div_pos; lia|].
  set (H := PyInt.format_0d 2 (ms / 1000 / 3600)) in *.
  set (M := PyInt.format_0d 2 ((ms / 1000) mod 3600 / 60)) in *.
  set (S := PyInt.format_0d 2 ((ms / 1000) mod 60)) in *.
  set (F := PyInt.format_0d 3 (ms mod 1000)) in *.
  split_and!.
  - rewrite Heq, parse_timestamp_fields; try done.
    + f_equal. rewrite HHv, HMv, HSv, HFv.
      Z.to_euclidean_division_equations; lia.
    + intros E. by rewrite E in HMlen.
    + intros E. by rewrite E in HSlen.
  - exists H, M, S, F. split_and!; try done.
    + rewrite HHv. Z.to_euclidean_division_equations; lia.
    + rewrite HMv. Z.to_euclidean_division_equations; lia.
  - rewrite Heq, !length_app, HMlen, HSlen, HFlen. cbn [length Text.of_string
      list_ascii_of_string]. rewrite <- Hwidth. lia.
Qed.

Lemma timestamp_roundtrip_witness :
  _parse_timestamp (format_timestamp 33970954) = Ok 33970954.
Proof. exact (proj1 (timestamp_roundtrip 33970954 ltac:(lia))). Defined.

End TimestampCodec.

(** ** Timestamp parse failures *)

Section ParseOutcome.

Import ChapterManager.

Lemma int_raise seg e :
  PyInt.int seg = Raise e -> e = ValueError (InvalidLiteralForInt seg).
Proof. unfold PyInt.int. by destruct (match PyInt.skip_int_space seg with [] => _ | _ => _ end); intros [=]. Qed.

Lemma rejected_raise seg :
  rejected seg = true ->
  PyInt.int seg = Raise (ValueError (InvalidLiteralForInt seg)).
Proof.
  unfold rejected. destruct (PyInt.int seg) as [v|e] eqn:E; [done|].
  intros _. by rewrite (int_raise _ _ E).
Qed.

Lemma accepted_not_rejected ps vs :
  Forall2 (fun p v => PyInt.int p = Ok v) ps vs ->
  ~ Exists (fun p => rejected p = true) ps.
Proof.
  induction 1 as [|p v ps vs Hp _ IH]; inversion 1 as [? ? Hr|]; subst.
  - unfold rejected in Hr. by rewrite Hp in Hr.
  - by apply IH.
Qed.

Lemma fraction_accepted frac :
  all_digits frac = true ->
  PyInt.int (take 3 (ljust 3 "0" frac)) = Ok (fraction_ms frac).
Proof.
  intros Hfrac. apply int_digits.
  - unfold ljust. destruct frac as [|a [|b [|c frac]]]; done.
  - unfold ljust, all_digits. apply forallb_forall. intros c Hc.
    apply list_elem_of_In, elem_of_take in Hc as (i & Hc & _).
    apply lookup_app_Some in Hc as [Hc|[_ Hc]].
    + unfold all_digits in Hfrac. rewrite forallb_forall in Hfrac.
      apply Hfrac, list_elem_of_In. by eapply list_elem_of_lookup_2.
    + apply lookup_replicate in Hc as [-> _]. done.
Qed.

(** With at most one dot and digits after it, parsing comes down to the
    colon segments of the part before the dot. *)
Lemma parse_timestamp_segments time_part frac s ms :
  contains "." time_part = false ->
  (s = time_part /\ ms = 0)
  \/ (all_digits frac = true /\ s = time_part ++ t{"."} ++ frac
      /\ ms = fraction_ms frac) ->
  _parse_timestamp s =
    if bool_decide (1 <= length (split ":" time_part) <= 3)%nat
    then rbind (rmap PyInt.int (split ":" time_part))
           (fun values => Ok (seconds_of values * 1000 + ms))
    else Raise (ValueError (InvalidTimestampFormat s)).
Proof.
  intros Hnodot Hs. unfold _parse_timestamp.
  assert ((if contains "." s then
             match split "." s with
             | [time_part; ms_part] =>
                 rbind (PyInt.int (take 3 (ljust 3 "0" ms_part)))
                   (fun ms => Ok (time_part, ms))
             | [] | [_] => Raise (ValueError (NotEnoughValuesToUnpack 2))
             | _ => Raise (ValueError (TooManyValuesToUnpack 2))
             end
           else Ok (s, 0)) = Ok (time_part, ms)) as ->.
  { destruct Hs as [[-> ->]|(Hfrac & -> & ->)].
    - by rewrite Hnodot.
    - cbn [Text.of_string list_ascii_of_string app].
      rewrite contains_app.
      replace (contains "." ("."%char :: frac)) with true by done.
      rewrite orb_true_r, split_app, split_without
        by (done || by apply contains_digits).
      by rewrite fraction_accepted. }
  cbn [rbind].
  destruct (split ":" time_part) as [|a [|b [|c [|d parts]]]] eqn:Hparts.
  - done.
  - rewrite bool_decide_eq_true_2 by (cbn; lia).
    change (item [a] 0) with (Ok a). cbn.
    destruct (PyInt.int a); cbn; [f_equal; lia|done].
  - rewrite bool_decide_eq_true_2 by (cbn; lia). cbn.
    destruct (PyInt.int a); cbn; [|done].
    destruct (PyInt.int b); cbn; [f_equal; lia|done].
  - rewrite bool_decide_eq_true_2 by (cbn; lia). cbn.
    destruct (PyInt.int a); cbn; [|done].
    destruct (PyInt.int b); cbn; [|done].
    destruct (PyInt.int c); cbn; [f_equal; lia|done].
  - rewrite bool_decide_eq_false_2 by (cbn; lia). done.
Qed.

Lemma take_fraction (digits rest : text) :
  length digits = 3%nat ->
  take 3 (ljust 3 "0" (digits ++ rest)) = take 3 (ljust 3 "0" digits).
Proof.
  intros Hlen. by destruct digits as [|a [|b [|c [|d digits]]]].
Qed.

(** C8: [_parse_timestamp] returns 0 for [0.000:0:0:0], a text of four
    colon segments, and for [0.000 this is not a timestamp], where the
    same segments without the dot raise the error on the format, which
    carries the text: the text is cut at the dot before the segments are
    counted, and of what follows the dot only three characters are
    converted.  So whatever follows three characters after the dot is
    ignored: a text that parses to a value still parses to it with any
    text without a dot appended.  The other errors do not carry the input:
    [1:xx] raises the error of [int] on [xx] and [1.2.3] that of the
    unpacking. *)
Theorem parse_timestamp_ignores_rest_of_fraction :
  length (split ":" t{"0.000:0:0:0"}) = 4%nat
  /\ _parse_timestamp t{"0.000:0:0:0"} = Ok 0
  /\ _parse_timestamp t{"0.000 this is not a timestamp"} = Ok 0
  /\ _parse_timestamp t{"0:0:0:0"}
     = Raise (ValueError (InvalidTimestampFormat t{"0:0:0:0"}))
  /\ _parse_timestamp t{"1:xx"}
     = Raise (ValueError (InvalidLiteralForInt t{"xx"}))
  /\ _parse_timestamp t{"1.2.3"} = Raise (ValueError (TooManyValuesToUnpack 2))
  /\ (forall time_part digits rest value,
        contains "." (time_part ++ digits ++ rest) = false ->
        length digits = 3%nat ->
        _parse_timestamp (time_part ++ t{"."} ++ digits) = Ok value ->
        _parse_timestamp (time_part ++ t{"."} ++ digits ++ rest) = Ok value).
Proof.
  do 6 (split; [by vm_compute|]).
  intros time_part digits rest value Hnodot Hlen.
  rewrite !contains_app in Hnodot.
  apply orb_false_elim in Hnodot as [Htime Hnodot].
  apply orb_false_elim in Hnodot as [Hdigits Hrest].
  unfold _parse_timestamp. cbn [Text.of_string list_ascii_of_string app].
  rewrite !contains_app.
  replace (contains "." ("."%char :: digits ++ rest)) with true by done.
  replace (contains "." ("."%char :: digits)) with true by done.
  rewrite !orb_true_r, !split_app by done.
  rewrite !split_without by (by rewrite ?contains_app, ?Hdigits, ?Hrest).
  rewrite take_fraction by done.
  destruct (PyInt.int (take 3 (ljust 3 "0" digits))) as [ms|e]; [|done].
  cbn [rbind].
  by destruct (length (split ":" time_part)) as [|[|[|[|n]]]].
Qed.

(** X25: for a text with no dot, or with one dot followed by
    digits only, [_parse_timestamp] raises [ValueError] if and only if the
    part before the dot has not 1, 2 or 3 colon segments or one of them is
    not accepted by [int]; when the segment count is wrong the error carries
    the whole input text, otherwise it carries the first segment that is not
    accepted; and when nothing is raised the result is
    [(H * 3600 + M * 60 + S) * 1000 + ms], the fraction being padded or cut
    to three digits. *)
Theorem parse_timestamp_outcome (time_part frac s : text) (ms : Z) :
  contains "." time_part = false ->
  (s = time_part /\ ms = 0)
  \/ (all_digits frac = true /\ s = time_part ++ t{"."} ++ frac
      /\ ms = fraction_ms frac) ->
  let parts := split ":" time_part in
  (~ (1 <= length parts <= 3)%nat ->
     _parse_timestamp s = Raise (ValueError (InvalidTimestampFormat s)))
  /\ ((1 <= length parts <= 3)%nat ->
      forall pre seg post,
        parts = pre ++ seg :: post ->
        Forall (fun p => rejected p = false) pre -> rejected seg = true ->
        _parse_timestamp s = Raise (ValueError (InvalidLiteralForInt seg)))
  /\ ((1 <= length parts <= 3)%nat ->
      Forall (fun p => rejected p = false) parts ->
      exists values,
        Forall2 (fun p v => PyInt.int p = Ok v) parts values
        /\ _parse_timestamp s = Ok (seconds_of values * 1000 + ms))
  /\ ((exists e, _parse_timestamp s = Raise e) <->
      ~ (1 <= length parts <= 3)%nat
      \/ Exists (fun p => rejected p = true) parts).
Proof.
  intros Hnodot Hs parts.
  pose proof (parse_timestamp_segments _ _ _ _ Hnodot Hs) as Hparse.
  fold parts in Hparse.
  assert (forall pre seg post,
            parts = pre ++ seg :: post ->
            Forall (fun p => rejected p = false) pre -> rejected seg = true ->
            rmap PyInt.int parts
            = Raise (ValueError (InvalidLiteralForInt seg))) as Hfirst.
  { intros pre seg post E Hpre Hseg. apply rmap_raise.
    exists pre, seg, post. split_and!; [done| |by apply rejected_raise].
    eapply Forall_impl; [exact Hpre|]. unfold rejected.
    intros p. by destruct (is_ok _). }
  assert (Forall (fun p => rejected p = false) parts ->
          exists values, rmap PyInt.int parts = Ok values) as Hall.
  { intros Hacc. destruct (rmap PyInt.int parts) as [vs|e] eqn:E; [by eexists|].
    apply rmap_raise in E as (pre & seg & post & E & _ & Hseg).
    rewrite E in Hacc. apply Forall_app in Hacc as [_ Hacc].
    inversion Hacc as [|? ? Hrej]; subst. unfold rejected in Hrej.
    by rewrite Hseg in Hrej. }
  split_and!.
  - intros Hcount. by rewrite Hparse, bool_decide_eq_false_2.
  - intros Hcount pre seg post E Hpre Hseg.
    by rewrite Hparse, bool_decide_eq_true_2, (Hfirst _ _ _ E Hpre Hseg).
  - intros Hcount Hacc. destruct (Hall Hacc) as [values Hvalues].
    exists values. split; [by apply rmap_ok|].
    by rewrite Hparse, bool_decide_eq_true_2, Hvalues.
  - rewrite Hparse. case_bool_decide as Hcount.
    + split.
      * intros [e He]. right.
        destruct (rmap PyInt.int parts) as [vs|e'] eqn:E; [done|].
        apply rmap_raise in E as (pre & seg & post & E & _ & Hseg).
        rewrite E. apply Exists_app. right. constructor.
        unfold rejected. by rewrite Hseg.
      * intros [?|Hrej]; [done|].
        destruct (rmap PyInt.int parts) as [vs|e'] eqn:E; [|by eexists].
        apply rmap_ok in E. by destruct (accepted_not_rejected _ _ E).
    + split; [by left|by eexists].
Qed.

Lemma parse_timestamp_outcome_witness :
  _parse_timestamp t{"1:02.5"} = Ok (62 * 1000 + 500)
  /\ _parse_timestamp t{"1:2:3:4"}
     = Raise (ValueError (InvalidTimestampFormat t{"1:2:3:4"}))
  /\ _parse_timestamp t{"1:x2.5"}
     = Raise (ValueError (InvalidLiteralForInt t{"x2"})).
Proof.
  split_and!.
  - destruct (parse_timestamp_outcome t{"1:02"} t{"5"} t{"1:02.5"} 500)
      as (_ & _ & Hok & _); [by vm_compute|right; by vm_compute|].
    destruct Hok as (values & Hvalues & ->);
      [vm_compute; lia|repeat constructor|].
    inversion Hvalues as [|? v1 ? ? H1 Hrest]; subst.
    inversion Hrest as [|? v2 ? ? H2 Hnil]; subst. inversion Hnil; subst.
    vm_compute in H1, H2. by simplify_eq.
  - by apply (parse_timestamp_outcome t{"1:2:3:4"} [] t{"1:2:3:4"} 0);
      [vm_compute|left|vm_compute; lia].
  - by apply (parse_timestamp_outcome t{"1:x2"} t{"5"} t{"1:x2.5"} 500)
      with (pre := [t{"1"}]) (post := []);
      [vm_compute|right; vm_compute|vm_compute; lia|vm_compute
      |repeat constructor|vm_compute].
Defined.

End ParseOutcome.

(** ** Facts on the matcher *)

Section ReFacts.

Import Re.

Context {R : Type}.
Implicit Types (k : nat -> text -> option R) (p : ascii -> bool).

(** The greedy repetition takes the whole run when the continuation cannot
    go on from inside the run. *)
Lemma star_greedy p pos s k :
  (forall i, (i < run_length p s)%nat -> k (pos + i)%nat (drop i s) = None) ->
  star p pos s k
  = k (pos + run_length p s)%nat (drop (run_length p s) s).
Proof.
  revert pos. induction s as [|c s IH]; intros pos Hk; cbn.
  - by rewrite Nat.add_0_r.
  - destruct (p c) eqn:Hc; cbn; [|by rewrite Nat.add_0_r].
    rewrite IH.
    + replace (S pos + run_length p s)%nat
        with (pos + S (run_length p s))%nat by lia.
      destruct (k _ _) eqn:E; [done|].
      specialize (Hk O). cbn in Hk. rewrite Hc in Hk.
      rewrite Nat.add_0_r in Hk. apply Hk. lia.
    + intros i Hi. specialize (Hk (S i)). cbn in Hk. rewrite Hc in Hk.
      replace (S pos + i)%nat with (pos + S i)%nat by lia.
      apply Hk. lia.
Qed.

Lemma run_word ic w pos s k :
  ic = true ->
  run ic (Word w) pos s k
  = if begins_with w s then k (pos + length w)%nat (drop (length w) s)
    else None.
Proof.
  intros ->. revert pos s. induction w as [|a w IH]; intros pos s; cbn.
  - by rewrite Nat.add_0_r.
  - destruct s as [|c s]; [done|]. cbn.
    destruct (Ascii.eqb (lower c) (lower a)); cbn; [|done].
    rewrite IH. by replace (S pos + length w)%nat
      with (pos + S (length w))%nat by lia.
Qed.

End ReFacts.

Section ReSubFacts.

Import Re.

Lemma star_longest p pos s :
  star p pos s (fun e _ => Some e) = Some (pos + run_length p s)%nat.
Proof.
  revert pos. induction s as [|c s IH]; intros pos; cbn.
  - by rewrite Nat.add_0_r.
  - destruct (p c); [|by rewrite Nat.add_0_r].
    rewrite IH. f_equal. lia.
Qed.

Lemma match_at_plus ic p pos s :
  match_at ic (Plus p) pos s
  = if (0 <? run_length p s)%nat then Some (pos + run_length p s)%nat
    else None.
Proof.
  unfold match_at. destruct s as [|c s]; cbn; [done|].
  destruct (p c); [|done]. rewrite star_longest. cbn. f_equal. lia.
Qed.

(** Characters covered by the last match are passed over. *)
Lemma sub_from_skip ic r repl pos n s :
  (n <= length s)%nat ->
  sub_from ic r repl pos n s = sub_from ic r repl (pos + n) 0 (drop n s).
Proof.
  revert pos s. induction n as [|n IH]; intros pos s Hn.
  - by rewrite Nat.add_0_r, drop_0.
  - destruct s as [|c s]; [cbn in Hn; lia|]. cbn in Hn. cbn.
    rewrite IH by lia. f_equal. lia.
Qed.

(** Where nothing matches, nothing is replaced. *)
Lemma sub_from_no_match ic r repl pos s :
  (forall i, (i <= length s)%nat ->
             match_at ic r (pos + i) (drop i s) = None) ->
  sub_from ic r repl pos 0 s = s.
Proof.
  revert pos. induction s as [|c s IH]; intros pos Hno.
  - cbn. specialize (Hno O ltac:(cbn; lia)).
    rewrite Nat.add_0_r in Hno. cbn in Hno. by rewrite Hno.
  - cbn. pose proof (Hno O ltac:(cbn; lia)) as H0.
    rewrite Nat.add_0_r in H0. cbn in H0. rewrite H0. f_equal.
    apply IH. intros i Hi. specialize (Hno (S i) ltac:(cbn; lia)).
    cbn in Hno. by replace (S pos + i)%nat with (pos + S i)%nat by lia.
Qed.

Lemma search_from_none ic r pos s :
  search_from ic r pos s = None <->
  forall i, (i <= length s)%nat -> match_at ic r (pos + i) (drop i s) = None.
Proof.
  revert pos. induction s as [|c s IH]; intros pos; cbn.
  - destruct (match_at ic r pos []) eqn:E.
    + split; [done|]. intros H. specialize (H O ltac:(lia)).
      rewrite Nat.add_0_r in H. cbn in H. congruence.
    + split; [|done]. intros _ i Hi. assert (i = O) as -> by lia.
      by rewrite Nat.add_0_r.
  - destruct (match_at ic r pos (c :: s)) eqn:E.
    + split; [done|]. intros H. specialize (H O ltac:(lia)).
      rewrite Nat.add_0_r in H. cbn in H. congruence.
    + rewrite IH. split.
      * intros H [|i] Hi; [by rewrite Nat.add_0_r|].
        cbn. replace (pos + S i)%nat with (S pos + i)%nat by lia.
        apply H. lia.
      * intros H i Hi. specialize (H (S i) ltac:(lia)). cbn in H.
        by replace (S pos + i)%nat with (pos + S i)%nat by lia.
Qed.

(** Every run of the class becomes the replacement. *)
Lemma sub_from_plus p s pos :
  sub_from false (Plus p) t{" "} pos 0 s = collapse p false s
  /\ sub_from false (Plus p) t{" "} pos (run_length p s) s
     = collapse p true s.
Proof.
  revert pos. induction s as [|c s IH]; intros pos; [done|].
  cbn [run_length collapse sub_from]. rewrite match_at_plus.
  cbn [run_length]. destruct (p c) eqn:Hc.
  - cbn [Nat.ltb Nat.leb].
    replace (pos + S (run_length p s) =? pos)%nat with false
      by (symmetry; apply Nat.eqb_neq; lia).
    replace (pos + S (run_length p s) - pos - 1)%nat
      with (run_length p s) by lia.
    by rewrite (proj2 (IH (S pos))).
  - cbn [Nat.ltb Nat.leb]. by rewrite (proj1 (IH (S pos))).
Qed.

Lemma sub_plus p s : sub false (Plus p) t{" "} s = collapse p false s.
Proof. apply sub_from_plus. Qed.

End ReSubFacts.

(** ** Facts on the patterns of [_clean_title] *)

Section PatternFacts.

Import Re Chapter.

Ltac by_cases_on c :=
  destruct c as [[|] [|] [|] [|] [|] [|] [|] [|]]; vm_compute;
  try reflexivity; try discriminate; auto.

Lemma lower_dot c : Ascii.eqb (lower c) (lower ".") = Ascii.eqb c ".".
Proof. by_cases_on c. Qed.

Lemma digit_not_separator c : is_digit c = true -> is_separator c = false.
Proof. by_cases_on c. Qed.

Lemma space_not_digit c : is_space c = true -> is_digit c = false.
Proof. by_cases_on c. Qed.

Lemma lower_t_not_digit c :
  Ascii.eqb (lower c) (lower "t") = true -> is_digit c = false.
Proof. by_cases_on c. Qed.

Lemma run_length_le p s : (run_length p s <= length s)%nat.
Proof. induction s as [|c s IH]; cbn; [lia|]. destruct (p c); cbn; lia. Qed.

Lemma drop_in_run p s i :
  (i < run_length p s)%nat ->
  exists c rest, drop i s = c :: rest /\ p c = true.
Proof.
  revert i. induction s as [|c s IH]; intros i; cbn; [lia|].
  destruct (p c) eqn:Hc; [|lia]. destruct i as [|i]; cbn.
  - by exists c, s.
  - intros Hi. apply IH. lia.
Qed.

Lemma begins_with_length w s :
  begins_with w s = true -> (length w <= length s)%nat.
Proof.
  revert s. induction w as [|a w IH]; intros [|c s]; cbn; try (done || lia).
  intros [_ H]%andb_prop. apply IH in H. lia.
Qed.

(** *** The extension *)

Lemma match_at_extension pos s :
  match_at true EXTENSION pos s
  = if extension_at s then Some (pos + 4)%nat else None.
Proof.
  unfold match_at, EXTENSION. cbn [run].
  destruct s as [|c s]; [done|]. cbn [extension_at].
  rewrite lower_dot. destruct (Ascii.eqb c "."); [|done].
  rewrite !run_word by done. cbn [andb existsb AUDIO_EXTENSIONS orb].
  cbn [length Text.of_string list_ascii_of_string].
  replace (S pos + 3)%nat with (pos + 4)%nat by lia.
  unfold at_end, nl.
  destruct (begins_with t{"mp3"} s), (begins_with t{"m4a"} s),
    (begins_with t{"m4b"} s), (drop 3 s) as [|x [|y rest]];
    try done; cbn; by repeat case_match.
Qed.

Lemma extension_at_length s : extension_at s = true -> (4 <= length s)%nat.
Proof.
  destruct s as [|c s]; [done|].
  cbn [extension_at existsb AUDIO_EXTENSIONS length].
  intros [_ H]%andb_prop. rewrite !orb_true_iff in H.
  destruct H as [H|[H|[H|H]]]; [| | |done];
    apply andb_prop in H as [H%begins_with_length _]; cbn in H; lia.
Qed.

Lemma extension_at_end s :
  extension_at s = true -> at_end (drop 4 s) = true.
Proof.
  destruct s as [|c s]; [done|].
  cbn [extension_at existsb AUDIO_EXTENSIONS drop].
  intros [_ H]%andb_prop. rewrite !orb_true_iff in H.
  destruct H as [H|[H|[H|H]]]; [| | |done]; by apply andb_prop in H as [_ H].
Qed.

Lemma has_extension_spec s :
  bool_decide (is_Some (search true EXTENSION s))
  = ends_with_audio_extension s.
Proof.
  unfold search. generalize O as pos.
  induction s as [|c s IH]; intros pos; cbn [search_from].
  - rewrite match_at_extension. done.
  - rewrite match_at_extension. cbn [ends_with_audio_extension].
    destruct (extension_at (c :: s)); [done|]. by rewrite IH.
Qed.

Lemma sub_from_extension pos s :
  sub_from true EXTENSION [] pos 0 s = strip_extension s.
Proof.
  revert pos. induction s as [|c s IH]; intros pos.
  - done.
  - cbn [sub_from strip_extension]. rewrite match_at_extension.
    destruct (extension_at (c :: s)) eqn:E; [|by rewrite IH].
    replace (pos + 4 =? pos)%nat with false
      by (symmetry; apply Nat.eqb_neq; lia).
    replace (pos + 4 - pos - 1)%nat with 3%nat by lia.
    pose proof (extension_at_length _ E) as Hlen. cbn in Hlen.
    pose proof (extension_at_end _ E) as Hend. cbn [drop] in Hend.
    rewrite sub_from_skip by lia. cbn [app drop].
    destruct (drop 3 s) as [|x [|y rest]]; [done| |done].
    cbn in Hend. apply Ascii.eqb_eq in Hend as ->. done.
Qed.

Lemma sub_extension s : sub true EXTENSION [] s = strip_extension s.
Proof. apply sub_from_extension. Qed.

Lemma strip_extension_without s :
  ends_with_audio_extension s = false -> strip_extension s = s.
Proof.
  induction s as [|c s IH]; [done|]. cbn [ends_with_audio_extension].
  intros [E H]%orb_false_elim. cbn [strip_extension]. rewrite E.
  by rewrite IH.
Qed.

(** *** The leading numeric label *)

(** The number and the separators, from position [pos]. *)
Lemma run_number pos s :
  run true (Seq (Plus is_digit) (Plus is_separator)) pos s
    (fun e _ => Some e)
  = let number := run_length is_digit s in
    let separators := run_length is_separator (drop number s) in
    if (0 <? number)%nat && (0 <? separators)%nat
    then Some (pos + number + separators)%nat else None.
Proof.
  cbn [run]. destruct s as [|c s]; [done|]. cbn [run_length].
  destruct (is_digit c) eqn:Hc; [|done].
  rewrite star_greedy.
  - cbn [Nat.ltb Nat.leb andb drop].
    change (match drop (run_length is_digit s) s with
            | [] => None
            | x :: s' =>
                if is_separator x
                then star is_separator
                       (S (S pos + run_length is_digit s)) s'
                       (fun e _ => Some e)
                else None
            end)
      with (match_at true (Plus is_separator)
              (S pos + run_length is_digit s)
              (drop (run_length is_digit s) s)).
    rewrite match_at_plus.
    destruct (run_length is_separator _); [done|].
    cbn [Nat.ltb Nat.leb]. f_equal. lia.
  - intros i Hi. destruct (drop_in_run _ _ _ Hi) as (x & rest & -> & Hx).
    by rewrite (digit_not_separator x Hx).
Qed.

Lemma run_number_not_digit pos c s :
  is_digit c = false ->
  run true (Seq (Plus is_digit) (Plus is_separator)) pos (c :: s)
    (fun e _ => Some e) = None.
Proof. intros Hc. rewrite run_number. cbn. by rewrite Hc. Qed.

Lemma match_track_number s :
  match_ true TRACK_NUMBER s = track_number_length s.
Proof.
  change (match_ true TRACK_NUMBER s)
    with (match
            run true (Word t{"track"}) 0 s (fun pos' s' =>
              star is_space pos' s' (fun pos'' s'' =>
                run true (Seq (Plus is_digit) (Plus is_separator))
                  pos'' s'' (fun e _ => Some e)))
          with
          | Some x => Some x
          | None =>
              run true (Seq (Plus is_digit) (Plus is_separator)) 0 s
                (fun e _ => Some e)
          end).
  rewrite run_word by done. unfold track_number_length.
  change (length t{"track"}) with 5%nat. change (0 + 5)%nat with 5%nat.
  destruct (begins_with t{"track"} s) eqn:Hword.
  - rewrite star_greedy.
    + rewrite run_number. cbv zeta. rewrite ?drop_drop.
      set (word := (5 + run_length is_space (drop 5 s))%nat).
      destruct (_ && _); [done|].
      destruct s as [|c s]; [done|]. apply run_number_not_digit.
      cbn in Hword. apply andb_prop in Hword as [Ht _].
      by apply lower_t_not_digit.
    + intros i Hi. destruct (drop_in_run _ _ _ Hi) as (x & rest & -> & Hx).
      apply run_number_not_digit. by apply space_not_digit.
  - rewrite run_number. cbv zeta.
    rewrite ?drop_drop, ?Nat.add_0_l, ?drop_0.
    by destruct (_ && _).
Qed.

Lemma track_number_length_bounds s n :
  track_number_length s = Some n -> (0 < n <= length s)%nat.
Proof.
  unfold track_number_length.
  set (word := if begins_with _ s then _ else _).
  set (number := run_length is_digit _).
  set (separators := run_length is_separator _).
  destruct (0 <? number)%nat eqn:Hn; [|done].
  destruct (0 <? separators)%nat eqn:Hs; [|done].
  intros [= <-]. apply Nat.ltb_lt in Hn, Hs.
  pose proof (run_length_le is_separator (drop (word + number) s)) as H1.
  fold separators in H1. rewrite length_drop in H1. lia.
Qed.

Lemma sub_track_number s :
  sub true TRACK_NUMBER [] s = strip_track_number s.
Proof.
  unfold sub, strip_track_number. rewrite <- match_track_number.
  unfold match_.
  assert (forall pos s', sub_from true TRACK_NUMBER [] (S pos) 0 s' = s')
    as Hrest.
  { intros pos s'. apply sub_from_no_match. intros i _.
    by replace (S pos + i)%nat with (S (pos + i)) by lia. }
  destruct s as [|c s].
  - by vm_compute.
  - cbn [sub_from]. destruct (match_at true TRACK_NUMBER 0 (c :: s)) as [n|] eqn:E.
    + pose proof E as Hn. fold (match_ true TRACK_NUMBER (c :: s)) in Hn.
      rewrite match_track_number in Hn.
      apply track_number_length_bounds in Hn. cbn [length] in Hn.
      destruct n as [|n]; [lia|]. cbn [Nat.eqb app drop].
      rewrite sub_from_skip by lia.
      replace (S n - 0 - 1)%nat with n by lia. apply Hrest.
    + by rewrite Hrest.
Qed.

End PatternFacts.

(** ** Title normalisation *)

Section CleanTitle.

Import Chapter.

(** The steps of [_clean_title], in the words of their description. *)
Lemma clean_title_steps title :
  _clean_title title
  = or_original title
      (light_cleanup
         (if ends_with_audio_extension title
             || begins_with_track_number (strip_extension title)
          then strip_track_number (strip_extension title)
          else strip_extension title)).
Proof.
  unfold _clean_title, light_cleanup, or_original, begins_with_track_number,
    UNDERSCORES, WHITESPACE.
  by rewrite has_extension_spec, !sub_extension, !match_track_number,
    !sub_track_number, !sub_plus.
Qed.

Lemma ends_with_audio_extension_iff s :
  ends_with_audio_extension s = true
  <-> exists base suffix, s = base ++ suffix /\ extension_at suffix = true.
Proof.
  split.
  - induction s as [|c s IH]; cbn [ends_with_audio_extension].
    + by rewrite orb_false_r.
    + intros [E|E]%orb_prop.
      * by exists [], (c :: s).
      * destruct (IH E) as (base & suffix & -> & ?).
        by exists (c :: base), suffix.
  - intros (base & suffix & -> & E).
    induction base as [|c base IH]; cbn [app ends_with_audio_extension].
    + destruct suffix; [done|]. cbn [ends_with_audio_extension].
      by rewrite E.
    + by rewrite IH, orb_true_r.
Qed.

(** C2, the counterexample: a text that is nothing but an extension, or
    nothing but a numeric label and an extension, keeps both; and a text of
    underscores alone is returned as it is, not collapsed. *)
Lemma clean_title_keeps_extension :
  _clean_title t{".mp3"} = t{".mp3"}
  /\ _clean_title t{"01 - .mp3"} = t{"01 - .mp3"}
  /\ _clean_title t{"___"} = t{"___"}
  /\ ~ (forall title,
          ends_with_audio_extension title = true ->
          ends_with_audio_extension (_clean_title title) = false)
  /\ ~ (forall title,
          ends_with_audio_extension title = false ->
          begins_with_track_number title = false ->
          _clean_title title = light_cleanup title).
Proof.
  split; [by vm_compute|]. split; [by vm_compute|].
  split; [by vm_compute|]. split.
  - intros H. specialize (H t{".mp3"} eq_refl). by vm_compute in H.
  - intros H. specialize (H t{"___"} eq_refl eq_refl). by vm_compute in H.
Qed.

(** C2, as amended: a title that neither ends in a recognized audio
    extension (a last newline after it set aside) nor begins with an
    optional [track] word, a number and a separator is changed by the light
    cleanup only (runs of underscores, then runs of whitespace, become one
    blank; the ends are trimmed); a filename-like title loses its extension
    and its leading numeric label before the light cleanup; in both cases a
    result that would be empty gives way to the original title.  So
    ["01 - Intro.mp3"] becomes ["Intro"], ["Track 02_Chapter Two.m4b"]
    becomes ["Chapter Two"], and ["The Seducer's Victim"] is unchanged. *)
Theorem clean_title_gated title :
  (ends_with_audio_extension title = false ->
   begins_with_track_number title = false ->
   _clean_title title = or_original title (light_cleanup title))
  /\ (ends_with_audio_extension title = true
      \/ begins_with_track_number title = true ->
      _clean_title title
      = or_original title
          (light_cleanup (strip_track_number (strip_extension title))))
  /\ _clean_title t{"01 - Intro.mp3"} = t{"Intro"}
  /\ _clean_title t{"Track 02_Chapter Two.m4b"} = t{"Chapter Two"}
  /\ _clean_title t{"The Seducer's Victim"} = t{"The Seducer's Victim"}.
Proof.
  split; [|split; [|by split_and!; vm_compute]].
  - intros Hext Htrack. rewrite clean_title_steps.
    by rewrite Hext, (strip_extension_without _ Hext), Htrack.
  - intros Hgate. rewrite clean_title_steps.
    destruct (ends_with_audio_extension title) eqn:Hext; [done|].
    destruct Hgate as [|Htrack]; [done|].
    by rewrite (strip_extension_without _ Hext), Htrack.
Qed.

Lemma clean_title_gated_witness :
  _clean_title t{"The  Seducer's_Victim "}
  = or_original t{"The  Seducer's_Victim "}
      (light_cleanup t{"The  Seducer's_Victim "})
  /\ _clean_title t{"TRACK 7 - a__b.M4A"}
     = or_original t{"TRACK 7 - a__b.M4A"}
         (light_cleanup
            (strip_track_number (strip_extension t{"TRACK 7 - a__b.M4A"}))).
Proof.
  split.
  - by apply (clean_title_gated t{"The  Seducer's_Victim "}); vm_compute.
  - apply (clean_title_gated t{"TRACK 7 - a__b.M4A"}). left. by vm_compute.
Defined.

(** The result is empty only for the empty title. *)
Lemma clean_title_nonempty title : title <> [] -> _clean_title title <> [].
Proof.
  intros Hne. rewrite clean_title_steps. unfold or_original.
  by destruct (light_cleanup _).
Qed.

End CleanTitle.

(** ** Facts on lists as the source uses them *)

Section ListFacts.

Import ChapterManager.

Context {A : Type}.
Implicit Types (xs ys : list A) (key : A -> Z).

Lemma len_app xs ys : len (xs ++ ys) = len xs + len ys.
Proof. unfold len. rewrite length_app. lia. Qed.

Lemma len_nonneg xs : 0 <= len xs.
Proof. unfold len. lia. Qed.


Lemma item_lookup xs i x :
  0 <= i -> xs !! Z.to_nat i = Some x -> item xs i = Ok x.
Proof.
  intros Hi Hx. unfold item.
  destruct (Z.ltb_spec i 0) as [|_]; [lia|].
  pose proof (lookup_lt_Some _ _ _ Hx) as Hlt.
  destruct (Z.leb_spec 0 i) as [_|]; [|lia].
  destruct (Z.ltb_spec i (len xs)) as [_|Hge]; [|unfold len in Hge; lia].
  cbn. by rewrite Hx.
Qed.

Lemma list_pop_lookup xs i x :
  0 <= i -> xs !! Z.to_nat i = Some x ->
  list_pop xs i = Ok (x, delete (Z.to_nat i) xs).
Proof.
  intros Hi Hx. unfold list_pop.
  destruct (Z.ltb_spec i 0) as [|_]; [lia|].
  pose proof (lookup_lt_Some _ _ _ Hx) as Hlt.
  destruct (Z.leb_spec 0 i) as [_|]; [|lia].
  destruct (Z.ltb_spec i (len xs)) as [_|Hge]; [|unfold len in Hge; lia].
  cbn. by rewrite Hx.
Qed.

(** *** Sorting *)

Lemma insert_by_perm key x xs : insert_by key x xs ≡ₚ x :: xs.
Proof.
  induction xs as [|y ys IH]; cbn; [done|].
  destruct (key x <=? key y); [done|].
  rewrite IH. apply Permutation_swap.
Qed.

Lemma sorted_cons key x xs :
  sorted key (x :: xs) = insert_by key x (sorted key xs).
Proof. done. Qed.

Lemma sorted_perm key xs : sorted key xs ≡ₚ xs.
Proof.
  induction xs as [|x xs IH]; [done|].
  by rewrite sorted_cons, insert_by_perm, IH.
Qed.

Lemma insert_by_sorted key x xs :
  Sorted Z.le (map key xs) -> Sorted Z.le (map key (insert_by key x xs)).
Proof.
  induction xs as [|y ys IH]; cbn; intros Hs.
  - by repeat constructor.
  - destruct (Z.leb_spec (key x) (key y)).
    + cbn. constructor; [done|]. by constructor.
    + inversion Hs as [|? ? Hys Hhd]; subst. cbn.
      constructor; [by apply IH|].
      destruct ys as [|z zs]; cbn.
      * constructor. lia.
      * destruct (Z.leb_spec (key x) (key z)); constructor; [lia|].
        by inversion Hhd.
Qed.

Lemma sorted_sorted key xs : Sorted Z.le (map key (sorted key xs)).
Proof.
  induction xs as [|x xs IH]; [constructor|].
  rewrite sorted_cons. by apply insert_by_sorted.
Qed.

Lemma sorted_length key xs : length (sorted key xs) = length xs.
Proof. apply Permutation_length, sorted_perm. Qed.

(** Sorting a list that is in order already changes nothing. *)
Lemma sorted_id key xs : Sorted Z.le (map key xs) -> sorted key xs = xs.
Proof.
  induction xs as [|x xs IH]; [done|].
  cbn [map]. intros Hs. inversion Hs as [|? ? Hxs Hhd]; subst.
  rewrite sorted_cons, IH by done. destruct xs as [|y ys]; [done|]. cbn.
  inversion Hhd; subst. by destruct (Z.leb_spec (key x) (key y)); [|lia].
Qed.

(** Sorting is stable: the items with one key keep their order. *)
Lemma insert_by_stable (key : A -> Z) (k : Z) x xs :
  filter (fun y => key y = k) (insert_by key x xs)
  = filter (fun y => key y = k) (x :: xs).
Proof.
  induction xs as [|y ys IH]; cbn [insert_by]; [done|].
  destruct (Z.leb_spec (key x) (key y)); [done|].
  rewrite filter_cons, IH, !filter_cons.
  destruct (decide (key y = k)), (decide (key x = k)); (done || lia).
Qed.

Lemma sorted_stable (key : A -> Z) (k : Z) xs :
  filter (fun y => key y = k) (sorted key xs) = filter (fun y => key y = k) xs.
Proof.
  induction xs as [|x xs IH]; [done|].
  rewrite sorted_cons, insert_by_stable, !filter_cons, IH. done.
Qed.

End ListFacts.

(** ** Chapters from timestamps *)

Section CreateFromTimestamps.

Import ChapterManager.

Lemma parse_loop acc timestamps :
  rfold (fun parsed '(time_str, title) =>
           rbind (_parse_timestamp time_str) (fun start_ms =>
             Ok (parsed ++ [(start_ms, title)])))
    acc timestamps
  = rbind (rmap parse_pair timestamps) (fun pairs => Ok (acc ++ pairs)).
Proof.
  revert acc. induction timestamps as [|[time_str title] rest IH];
    intros acc; cbn.
  - by rewrite app_nil_r.
  - unfold parse_pair at 1. cbn.
    destruct (_parse_timestamp time_str) as [start_ms|e]; cbn; [|done].
    rewrite IH. destruct (rmap parse_pair rest); cbn; [|done].
    by rewrite <- app_assoc.
Qed.

Lemma build_loop all pre rest cs stats :
  all = pre ++ rest ->
  for_each (enumerate (len pre) rest) (fun '(i, (start_ms, title)) =>
    bind
      (if i <? len all - 1 then
         bind (lift (item all (i + 1))) (fun following =>
           ret (Some (fst following - start_ms)))
       else ret None)
      (fun duration_ms =>
         bind (add_chapter title start_ms duration_ms None)
           (fun _ => ret tt)))
    (mk cs stats)
  = (Ok tt, mk (cs ++ with_durations rest) stats).
Proof.
  revert pre cs. induction rest as [|[start_ms title] rest IH];
    intros pre cs Hall.
  - cbn. by rewrite app_nil_r.
  - cbn [enumerate for_each with_durations].
    assert (len all = len pre + 1 + len rest) as Hlen.
    { rewrite Hall, len_app. unfold len. cbn [length]. lia. }
    unfold bind at 1.
    assert (bind
              (if len pre <? len all - 1 then
                 bind (lift (item all (len pre + 1))) (fun following =>
                   ret (Some (fst following - start_ms)))
               else ret None)
              (fun duration_ms =>
                 bind (add_chapter title start_ms duration_ms None)
                   (fun _ => ret tt))
              (mk cs stats)
            = (Ok tt,
               mk (cs ++ [Chapter.new title start_ms
                            (match rest with
                             | (next, _) :: _ => Some (next - start_ms)
                             | [] => None
                             end) None]) stats)) as ->.
    { destruct rest as [|[next title'] rest].
      - destruct (Z.ltb_spec (len pre) (len all - 1)) as [Hlt|_];
          [unfold len in *; cbn in *; lia|]. done.
      - destruct (Z.ltb_spec (len pre) (len all - 1)) as [_|Hge];
          [|pose proof (len_nonneg rest); unfold len in *; cbn in *; lia].
        rewrite (item_lookup all (len pre + 1) (next, title')).
        + done.
        + pose proof (len_nonneg pre). lia.
        + rewrite Hall. unfold len.
          replace (Z.to_nat (Z.of_nat (length pre) + 1))
            with (length pre + 1)%nat by lia.
          rewrite lookup_app_r by lia.
          by replace (length pre + 1 - length pre)%nat with 1%nat by lia. }
    replace (len pre + 1) with (len (pre ++ [(start_ms, title)]))
      by (rewrite len_app; done).
    rewrite (IH (pre ++ [(start_ms, title)])) by (by rewrite <- app_assoc).
    by rewrite <- app_assoc.
Qed.

(** What [create_from_timestamps] leaves in the manager and returns. *)
Lemma create_from_timestamps_run timestamps self :
  create_from_timestamps timestamps self
  = match rmap parse_pair timestamps with
    | Ok pairs =>
        (Ok tt, mk (with_durations (sorted fst pairs))
                  (last_create_stats self))
    | Raise e => (Raise e, mk [] (last_create_stats self))
    end.
Proof.
  unfold create_from_timestamps.
  unfold bind at 1. cbn [set_chapters].
  unfold bind at 1. unfold lift at 1. rewrite parse_loop.
  destruct (rmap parse_pair timestamps) as [pairs|e]; cbn [rbind]; [|done].
  cbn [app]. by rewrite (build_loop (sorted fst pairs) []).
Qed.

Lemma with_durations_starts pairs :
  map Chapter.start_ms (with_durations pairs) = map fst pairs.
Proof.
  induction pairs as [|[start_ms title] rest IH]; cbn; [done|].
  by rewrite IH.
Qed.

Lemma with_durations_titles pairs :
  map Chapter.title (with_durations pairs)
  = map (fun p => Chapter._clean_title (snd p)) pairs.
Proof.
  induction pairs as [|[start_ms title] rest IH]; cbn; [done|].
  by rewrite IH.
Qed.

Lemma with_durations_follow pairs : durations_follow (with_durations pairs).
Proof.
  induction pairs as [|[start_ms title] rest IH]; intros k c; [done|].
  destruct k as [|k]; cbn [with_durations lookup list_lookup].
  - intros [= <-]. cbn. by destruct rest as [|[next title'] rest].
  - apply IH.
Qed.

(** [rmap] on a list in another order. *)
Lemma rmap_returned {A B} (f : A -> result B) xs ys :
  rmap f xs = Ok ys ->
  ys = omap (fun x => returned (f x)) xs
  /\ Forall (fun x => is_ok (f x) = true) xs.
Proof.
  revert ys. induction xs as [|x xs IH]; intros ys; cbn.
  - by intros [= <-].
  - destruct (f x) as [y|e] eqn:Hx; cbn; [|done].
    destruct (rmap f xs) as [ys'|e]; cbn; [|done].
    intros [= <-]. destruct (IH _ eq_refl) as [-> ?].
    split; [done|]. constructor; [by rewrite Hx|done].
Qed.

Lemma rmap_all_ok {A B} (f : A -> result B) xs :
  Forall (fun x => is_ok (f x) = true) xs -> exists ys, rmap f xs = Ok ys.
Proof.
  induction 1 as [|x xs Hx _ [ys IH]]; cbn; [by eexists|].
  destruct (f x); [|done]. cbn. rewrite IH. by eexists.
Qed.

Lemma rmap_permutation {A B} (f : A -> result B) xs xs' ys :
  xs' ≡ₚ xs -> rmap f xs = Ok ys ->
  exists ys', rmap f xs' = Ok ys' /\ ys' ≡ₚ ys.
Proof.
  intros Hperm Hxs. apply rmap_returned in Hxs as [-> Hall].
  rewrite <- Hperm in Hall.
  destruct (rmap_all_ok f xs' Hall) as [ys' Hys']. exists ys'.
  split; [done|]. apply rmap_returned in Hys' as [-> _]. by rewrite Hperm.
Qed.

(** C3: whatever the list of (time string, title) pairs and whatever the
    manager held before, after [create_from_timestamps] the chapters are in
    ascending order of [start_ms], each has for duration the distance to the
    start of the next one and the last has none, and they do not depend on
    what the manager held.  When every time string parses, the call returns
    and the chapters are the input pairs, parsed and with the title
    normalised, in an order whose start times are the same for every order of
    the input; when one does not parse, its exception is raised and the
    model is left empty.  So [("00:05:00", "B"), ("00:00:00", "A")] gives A
    at 0 with duration 300000, then B at 300000 with no duration. *)
Theorem create_from_timestamps_sorted timestamps self :
  let outcome := create_from_timestamps timestamps self in
  let cs := chapters (snd outcome) in
  Sorted Z.le (map Chapter.start_ms cs)
  /\ durations_follow cs
  /\ (forall other,
        chapters (snd (create_from_timestamps timestamps other)) = cs)
  /\ (forall pairs,
        rmap parse_pair timestamps = Ok pairs ->
        fst outcome = Ok tt
        /\ map (fun c => (Chapter.start_ms c, Chapter.title c)) cs
           ≡ₚ map (fun p => (fst p, Chapter._clean_title (snd p))) pairs
        /\ (forall timestamps',
              timestamps' ≡ₚ timestamps ->
              map Chapter.start_ms
                (chapters (snd (create_from_timestamps timestamps' self)))
              = map Chapter.start_ms cs))
  /\ (forall e,
        rmap parse_pair timestamps = Raise e ->
        fst outcome = Raise e /\ cs = [])
  /\ create_from_timestamps
       [(t{"00:05:00"}, t{"B"}); (t{"00:00:00"}, t{"A"})] (mk [] [])
     = (Ok tt,
        mk [Chapter.mk t{"A"} 0 (Some 300000) None;
            Chapter.mk t{"B"} 300000 None None] []).
Proof.
  intros outcome cs. subst cs outcome.
  rewrite create_from_timestamps_run.
  split_and!.
  - destruct (rmap parse_pair timestamps) as [pairs|e]; cbn; [|constructor].
    rewrite with_durations_starts. apply sorted_sorted.
  - destruct (rmap parse_pair timestamps) as [pairs|e]; cbn; [|done].
    apply with_durations_follow.
  - intros other. rewrite create_from_timestamps_run.
    by destruct (rmap parse_pair timestamps).
  - intros pairs Hpairs. rewrite Hpairs. cbn [fst snd chapters].
    split_and!; [done|..].
    + transitivity (map (fun p => (fst p, Chapter._clean_title (snd p)))
                      (sorted fst pairs));
        [|by rewrite sorted_perm].
      clear. induction (sorted fst pairs) as [|[start_ms title] rest IH];
        cbn; [done|]. by rewrite IH.
    + intros timestamps' Hperm. rewrite create_from_timestamps_run.
      destruct (rmap_permutation _ _ _ _ Hperm Hpairs) as (pairs' & -> & Hp).
      cbn. rewrite !with_durations_starts.
      apply (Sorted_unique Z.le); [apply sorted_sorted..|].
      by rewrite !sorted_perm, Hp.
  - intros e He. by rewrite He.
  - by vm_compute.
Qed.

Lemma create_from_timestamps_sorted_witness :
  Sorted Z.le
    (map Chapter.start_ms
       (chapters
          (snd (create_from_timestamps
                  [(t{"1:00"}, t{"C"}); (t{"30"}, t{"B"}); (t{"0"}, t{"A"})]
                  (mk [] [])))))
  /\ fst (create_from_timestamps [(t{"1:00"}, t{"C"}); (t{"30"}, t{"B"})]
            (mk [] [])) = Ok tt.
Proof.
  split.
  - apply (create_from_timestamps_sorted
             [(t{"1:00"}, t{"C"}); (t{"30"}, t{"B"}); (t{"0"}, t{"A"})]).
  - by eapply (create_from_timestamps_sorted
                 [(t{"1:00"}, t{"C"}); (t{"30"}, t{"B"})]); vm_compute.
Defined.

End CreateFromTimestamps.

(** ** Validation *)

Section Validate.

Import ChapterManager.

Lemma title_loop acc i cs :
  foldl (fun warnings '(i, chapter) =>
           match strip (Chapter.title chapter) with
           | [] => warnings ++ [t{"Chapter "} ++ PyInt.str i
                                ++ t{" has empty title"}]
           | _ => warnings
           end)
    acc (enumerate i cs)
  = acc ++ title_warnings i cs.
Proof.
  revert acc i. induction cs as [|c cs IH]; intros acc i; cbn.
  - by rewrite app_nil_r.
  - rewrite IH. destruct (strip (Chapter.title c)); cbn.
    + by rewrite <- app_assoc.
    + done.
Qed.

Lemma time_loop acc i cs :
  foldl (fun warnings '(i, chapter) =>
           let warnings :=
             if Chapter.start_ms chapter <? 0
             then warnings ++ [t{"Chapter "} ++ PyInt.str i
                               ++ t{" has negative start time"}]
             else warnings in
           match Chapter.duration_ms chapter with
           | Some d =>
               if d <? 0
               then warnings ++ [t{"Chapter "} ++ PyInt.str i
                                 ++ t{" has negative duration"}]
               else warnings
           | None => warnings
           end)
    acc (enumerate i cs)
  = acc ++ time_warnings i cs.
Proof.
  revert acc i. induction cs as [|c cs IH]; intros acc i; cbn.
  - by rewrite app_nil_r.
  - rewrite IH.
    destruct (Chapter.start_ms c <? 0), (Chapter.duration_ms c) as [d|];
      try destruct (d <? 0); cbn; by rewrite <- ?app_assoc.
Qed.

(** On a list in ascending order of start, a duration of zero never
    overlaps: testing the duration for truth is testing that it is
    known. *)
Lemma overlap_loop all pre rest acc :
  all = pre ++ rest ->
  Sorted Z.le (map Chapter.start_ms rest) ->
  rfold (fun warnings i =>
           rbind (item all i) (fun current =>
           rbind (item all (i + 1)) (fun next_chapter =>
             if Chapter.truthy (Chapter.duration_ms current) then
               let current_end :=
                 Chapter.start_ms current
                 + default 0 (Chapter.duration_ms current) in
               if current_end >? Chapter.start_ms next_chapter
               then Ok (warnings
                        ++ [t{"Chapters '"} ++ Chapter.title current
                            ++ t{"' and '"}
                            ++ Chapter.title next_chapter
                            ++ t{"' overlap"}])
               else Ok warnings
             else Ok warnings)))
    acc (map Z.of_nat (seq (length pre) (length rest - 1)))
  = Ok (acc ++ overlap_warnings rest).
Proof.
  revert pre acc. induction rest as [|c rest IH]; intros pre acc Hall Hs.
  - cbn. by rewrite app_nil_r.
  - destruct rest as [|n rest]; [cbn; by rewrite app_nil_r|].
    replace (length (c :: n :: rest) - 1)%nat
      with (S (length (n :: rest) - 1)) by (cbn; lia).
    cbn [seq map rfold].
    assert (item all (Z.of_nat (length pre)) = Ok c) as ->.
    { apply item_lookup; [lia|]. rewrite Nat2Z.id, Hall.
      by rewrite lookup_app_r, Nat.sub_diag by lia. }
    assert (item all (Z.of_nat (length pre) + 1) = Ok n) as ->.
    { apply item_lookup; [lia|]. rewrite Hall.
      replace (Z.to_nat (Z.of_nat (length pre) + 1))
        with (length pre + 1)%nat by lia.
      rewrite lookup_app_r by lia.
      by replace (length pre + 1 - length pre)%nat with 1%nat by lia. }
    { cbn [rbind]. inversion Hs as [|? ? Hs' Hhd]; subst.
      inversion Hhd as [|? ? Hle]; subst.
      assert ((if Chapter.truthy (Chapter.duration_ms c) then
                 if Chapter.start_ms c + default 0 (Chapter.duration_ms c)
                    >? Chapter.start_ms n
                 then Ok (acc ++ [t{"Chapters '"} ++ Chapter.title c
                                  ++ t{"' and '"} ++ Chapter.title n
                                  ++ t{"' overlap"}])
                 else Ok acc
               else Ok acc)
              = Ok (acc ++ (if overlaps c n then [overlap_warning c n]
                            else []))) as ->.
      { unfold overlaps, Chapter.truthy.
        destruct (Chapter.duration_ms c) as [d|]; cbn;
          [|by rewrite app_nil_r].
        rewrite Z.gtb_ltb.
        destruct (Z.eqb_spec d 0) as [->|]; cbn.
        - destruct (Z.ltb_spec (Chapter.start_ms n) (Chapter.start_ms c + 0));
            [lia|by rewrite app_nil_r].
        - destruct (_ <? _); [done|by rewrite app_nil_r]. }
      cbn [rbind].
      replace (S (length pre)) with (length (pre ++ [c]))
        by (rewrite length_app; cbn; lia).
      rewrite (IH (pre ++ [c])); [|by rewrite <- app_assoc|done].
      cbn [overlap_warnings]. by rewrite <- app_assoc. }
Qed.

(** What [validate] returns. *)
Lemma validate_run self :
  validate self
  = (Ok (match chapters self with
         | [] => [t{"No chapters defined"}]
         | _ =>
             title_warnings 1 (chapters self)
             ++ time_warnings 1 (chapters self)
             ++ overlap_warnings (sorted Chapter.start_ms (chapters self))
         end),
     self).
Proof.
  unfold validate, bind, get_chapters.
  destruct (chapters self) as [|c cs] eqn:Hcs; [done|].
  rewrite title_loop, time_loop. unfold lift.
  unfold range. replace (Z.to_nat (len (sorted Chapter.start_ms (c :: cs)) - 1))
    with (length (sorted Chapter.start_ms (c :: cs)) - 1)%nat
    by (unfold len; lia).
  rewrite (overlap_loop (sorted Chapter.start_ms (c :: cs)) []);
    [|done|apply sorted_sorted].
  cbn [app]. unfold ret. by rewrite <- app_assoc.
Qed.

Lemma title_warnings_not_overlap i cs :
  List.filter is_overlap_warning (title_warnings i cs) = [].
Proof.
  revert i. induction cs as [|c cs IH]; intros i; cbn; [done|].
  rewrite List.filter_app, IH. by destruct (strip (Chapter.title c)).
Qed.

Lemma time_warnings_not_overlap i cs :
  List.filter is_overlap_warning (time_warnings i cs) = [].
Proof.
  revert i. induction cs as [|c cs IH]; intros i; cbn; [done|].
  rewrite !List.filter_app, IH.
  destruct (Chapter.start_ms c <? 0), (Chapter.duration_ms c) as [d|];
    try destruct (d <? 0); done.
Qed.

Lemma overlap_warnings_overlap cs :
  List.filter is_overlap_warning (overlap_warnings cs) = overlap_warnings cs.
Proof.
  induction cs as [|c cs IH]; [done|]. cbn [overlap_warnings].
  destruct cs as [|n cs]; [done|].
  rewrite List.filter_app, IH. by destruct (overlaps c n).
Qed.

(** C4: [validate] returns and leaves the manager as it was.  Its overlap
    warnings are, in order, one warning naming both titles for each pair of
    neighbours, in a copy of the chapters sorted by [start_ms], whose
    earlier chapter has a known duration and ends after the later one
    starts; no other overlap warning is emitted.  The copy [by_start] has
    the chapters of the manager, in ascending order of [start_ms], those
    with the same start in the order they have in the manager.  The
    warnings before them are those on titles and on times, or the single
    warning of an empty model. *)
Theorem validate_overlaps self :
  exists warnings by_start,
    validate self = (Ok warnings, self)
    /\ by_start ≡ₚ chapters self
    /\ Sorted Z.le (map Chapter.start_ms by_start)
    /\ (forall start,
          filter (fun c => Chapter.start_ms c = start) by_start
          = filter (fun c => Chapter.start_ms c = start) (chapters self))
    /\ by_start = sorted Chapter.start_ms (chapters self)
    /\ List.filter is_overlap_warning warnings = overlap_warnings by_start
    /\ warnings
       = match chapters self with
         | [] => [t{"No chapters defined"}]
         | _ =>
             title_warnings 1 (chapters self)
             ++ time_warnings 1 (chapters self)
             ++ overlap_warnings by_start
         end.
Proof.
  eexists _, (sorted Chapter.start_ms (chapters self)).
  split; [apply validate_run|].
  split; [apply sorted_perm|].
  split; [apply sorted_sorted|].
  split; [intros start; apply sorted_stable|].
  split; [done|]. split; [|done].
  destruct (chapters self) as [|c cs]; [done|].
  by rewrite !List.filter_app, title_warnings_not_overlap,
    time_warnings_not_overlap, overlap_warnings_overlap.
Qed.

(** C5, the counterexample: with A at 0 lasting 5000 and B at 3000 without
    a duration, an overlap warning is reported. *)
Lemma validate_warns_without_later_duration :
  let model :=
    mk [Chapter.new t{"A"} 0 (Some 5000) None;
        Chapter.new t{"B"} 3000 None None] [] in
  fst (validate model) = Ok [t{"Chapters 'A' and 'B' overlap"}]
  /\ ~ (forall warnings,
          fst (validate model) = Ok warnings ->
          List.filter is_overlap_warning warnings = []).
Proof.
  split; [by vm_compute|].
  intros H. specialize (H _ eq_refl). by vm_compute in H.
Qed.

(** C5, as amended: with A at 0 lasting 5000 and B at 3000, validation
    reports exactly one warning, the overlap of A and B, whether B has no
    duration or a duration of 1000: the check needs the duration of the
    earlier chapter only. *)
Theorem validate_overlap_examples :
  let without :=
    mk [Chapter.new t{"A"} 0 (Some 5000) None;
        Chapter.new t{"B"} 3000 None None] [] in
  let with_duration :=
    mk [Chapter.new t{"A"} 0 (Some 5000) None;
        Chapter.new t{"B"} 3000 (Some 1000) None] [] in
  validate without = (Ok [t{"Chapters 'A' and 'B' overlap"}], without)
  /\ validate with_duration
     = (Ok [t{"Chapters 'A' and 'B' overlap"}], with_duration)
  /\ overlap_warning (Chapter.new t{"A"} 0 (Some 5000) None)
       (Chapter.new t{"B"} 3000 None None)
     = t{"Chapters 'A' and 'B' overlap"}.
Proof. split_and!; by vm_compute. Qed.

End Validate.

(** ** Rendering *)

Section Render.

Import ChapterManager.

Lemma to_ffmpeg_format_block c :
  Chapter.to_ffmpeg_format c = chapter_block c.
Proof.
  unfold Chapter.to_ffmpeg_format, chapter_block, line, end_ms,
    Chapter.truthy.
  destruct (Chapter.duration_ms c) as [d|]; cbn [default negb].
  - destruct (Z.eqb_spec d 0) as [->|]; cbn [negb];
      rewrite ?Z.add_0_r, <- ?app_assoc; done.
  - by rewrite <- ?app_assoc.
Qed.

Lemma render_loop header cs :
  foldl (fun metadata chapter =>
           metadata ++ Chapter.to_ffmpeg_format chapter) header cs
  = header ++ concat (map chapter_block cs).
Proof.
  revert header. induction cs as [|c cs IH]; intros header.
  - cbn. by rewrite app_nil_r.
  - cbn [foldl map concat].
    by rewrite IH, to_ffmpeg_format_block, <- app_assoc.
Qed.

(** C6, the counterexample: the empty model renders as the empty text,
    without a header line; and two blocks follow each other without a blank
    line between them. *)
Lemma to_ffmpeg_metadata_empty_model :
  to_ffmpeg_metadata (mk [] []) = (Ok [], mk [] [])
  /\ fst (to_ffmpeg_metadata
            (mk [Chapter.new t{"A"} 0 (Some 5000) None;
                 Chapter.new t{"B"} 5000 None None] []))
     = Ok (line t{";FFMETADATA1"}
           ++ line t{"[CHAPTER]"} ++ line t{"TIMEBASE=1/1000"}
           ++ line t{"START=0"} ++ line t{"END=5000"} ++ line t{"title=A"}
           ++ line t{"[CHAPTER]"} ++ line t{"TIMEBASE=1/1000"}
           ++ line t{"START=5000"} ++ line t{"END=5000"}
           ++ line t{"title=B"})
  /\ ~ (forall self,
          exists rest,
            fst (to_ffmpeg_metadata self)
            = Ok (line t{";FFMETADATA1"} ++ rest)).
Proof.
  split; [by vm_compute|]. split; [by vm_compute|].
  intros H. destruct (H (mk [] [])) as [rest Hrest]. by vm_compute in Hrest.
Qed.

(** C6, as amended: for every model with at least one chapter,
    [to_ffmpeg_metadata] returns, without changing the model, the header
    line followed by one block for each chapter in insertion order; a block
    is the lines [[CHAPTER]], the millisecond timebase, the start, the end
    ([start_ms + duration_ms] when the duration is present, [start_ms]
    otherwise) and the title, each ended by a newline.  The empty model
    renders as the empty text. *)
Theorem to_ffmpeg_metadata_blocks self :
  to_ffmpeg_metadata self
  = (Ok (match chapters self with
         | [] => []
         | _ =>
             line t{";FFMETADATA1"}
             ++ concat (map chapter_block (chapters self))
         end),
     self)
  /\ (forall c,
        chapter_block c
        = line t{"[CHAPTER]"}
          ++ line t{"TIMEBASE=1/1000"}
          ++ line (t{"START="} ++ PyInt.str (Chapter.start_ms c))
          ++ line (t{"END="}
                   ++ PyInt.str
                        (match Chapter.duration_ms c with
                         | Some d => Chapter.start_ms c + d
                         | None => Chapter.start_ms c
                         end))
          ++ line (t{"title="} ++ Chapter.title c)).
Proof.
  split; [|done].
  unfold to_ffmpeg_metadata, bind, get_chapters, ret.
  destruct (chapters self) as [|c cs]; [done|].
  by rewrite render_loop.
Qed.

End Render.

(** ** The MDTA tag *)

Section Mdta.

Import M4BCreator.

Lemma mdta_fields chapter_num chapter :
  _format_chapter_mdta chapter_num chapter
  = t{"Menu "} ++ PyInt.str chapter_num ++ t{"# _"}
    ++ PyInt.format_0d 2 (Chapter.start_ms chapter / 3600000) ++ t{"_"}
    ++ PyInt.format_0d 2 (Chapter.start_ms chapter / 60000 mod 60) ++ t{"_"}
    ++ PyInt.format_0d 2 (Chapter.start_ms chapter / 1000 mod 60) ++ t{"_"}
    ++ PyInt.format_0d 3 (Chapter.start_ms chapter mod 1000) ++ t{": "}
    ++ Chapter.title chapter.
Proof.
  unfold _format_chapter_mdta. cbv zeta.
  set (ms := Chapter.start_ms chapter).
  replace (ms / 1000 / 3600) with (ms / 3600000)
    by (Z.to_euclidean_division_equations; lia).
  replace ((ms / 1000) mod 3600 / 60) with (ms / 60000 mod 60)
    by (Z.to_euclidean_division_equations; lia).
  done.
Qed.

(** C7: a chapter whose start is [H] hours, [M] minutes, [S] seconds and
    [mmm] milliseconds, rendered at position [i], gives
    [Menu <i># _<HH>_<MM>_<SS>_<mmm>: <title>]: the position in decimal, the
    hours zero-padded to two digits (and wider from one hundred hours on),
    the minutes and seconds on exactly two digits, the milliseconds on
    exactly three, all of them decimal digits denoting the component.  A
    start of 33970954 rendered as the third chapter gives
    [Menu 3# _09_26_10_954: <title>]. *)
Theorem format_chapter_mdta_grammar (i H M S mmm : Z) (chapter : Chapter.t) :
  0 <= M < 60 -> 0 <= S < 60 -> 0 <= mmm < 1000 ->
  Chapter.start_ms chapter = ((H * 60 + M) * 60 + S) * 1000 + mmm ->
  _format_chapter_mdta i chapter
  = t{"Menu "} ++ PyInt.str i ++ t{"# _"}
    ++ PyInt.format_0d 2 H ++ t{"_"} ++ PyInt.format_0d 2 M ++ t{"_"}
    ++ PyInt.format_0d 2 S ++ t{"_"} ++ PyInt.format_0d 3 mmm ++ t{": "}
    ++ Chapter.title chapter
  /\ (0 <= H ->
      all_digits (PyInt.format_0d 2 H) = true
      /\ value (PyInt.format_0d 2 H) = H
      /\ (2 <= length (PyInt.format_0d 2 H))%nat
      /\ (H < 100 -> length (PyInt.format_0d 2 H) = 2%nat))
  /\ (all_digits (PyInt.format_0d 2 M) = true
      /\ value (PyInt.format_0d 2 M) = M
      /\ length (PyInt.format_0d 2 M) = 2%nat)
  /\ (all_digits (PyInt.format_0d 2 S) = true
      /\ value (PyInt.format_0d 2 S) = S
      /\ length (PyInt.format_0d 2 S) = 2%nat)
  /\ (all_digits (PyInt.format_0d 3 mmm) = true
      /\ value (PyInt.format_0d 3 mmm) = mmm
      /\ length (PyInt.format_0d 3 mmm) = 3%nat)
  /\ (forall title,
        _format_chapter_mdta 3 (Chapter.mk title 33970954 None None)
        = t{"Menu 3# _09_26_10_954: "} ++ title).
Proof.
  intros HM HS Hmmm Hstart.
  destruct (format_0d_nonneg 2 M (proj1 HM)) as (? & _ & ? & _).
  destruct (format_0d_nonneg 2 S (proj1 HS)) as (? & _ & ? & _).
  destruct (format_0d_nonneg 3 mmm (proj1 Hmmm)) as (? & _ & ? & _).
  split; [|split; [|split_and!; try done]].
  - rewrite mdta_fields, Hstart.
    replace ((((H * 60 + M) * 60 + S) * 1000 + mmm) / 3600000) with H
      by (Z.to_euclidean_division_equations; lia).
    replace ((((H * 60 + M) * 60 + S) * 1000 + mmm) / 60000 mod 60) with M
      by (Z.to_euclidean_division_equations; lia).
    replace ((((H * 60 + M) * 60 + S) * 1000 + mmm) / 1000 mod 60) with S
      by (Z.to_euclidean_division_equations; lia).
    replace ((((H * 60 + M) * 60 + S) * 1000 + mmm) mod 1000) with mmm
      by (Z.to_euclidean_division_equations; lia).
    done.
  - intros HH. destruct (format_0d_nonneg 2 H HH) as (? & _ & ? & ?).
    split_and!; try done. intros ?. apply format_0d_width_2. lia.
  - apply format_0d_width_2. lia.
  - apply format_0d_width_2. lia.
  - by apply format_0d_width_3.
Qed.

Lemma format_chapter_mdta_grammar_witness :
  _format_chapter_mdta 3 (Chapter.new t{"The Seducer's Victim"} 33970954
                            (Some 2513893) None)
  = t{"Menu "} ++ PyInt.str 3 ++ t{"# _"}
    ++ PyInt.format_0d 2 9 ++ t{"_"} ++ PyInt.format_0d 2 26 ++ t{"_"}
    ++ PyInt.format_0d 2 10 ++ t{"_"} ++ PyInt.format_0d 3 954 ++ t{": "}
    ++ t{"The Seducer's Victim"}.
Proof.
  by apply (format_chapter_mdta_grammar 3 9 26 10 954
              (Chapter.new t{"The Seducer's Victim"} 33970954
                 (Some 2513893) None)); [lia..|vm_compute].
Defined.

End Mdta.

(** ** Operations by index *)

Section IndexOperations.

Import ChapterManager.

Lemma in_range_false index (cs : list Chapter.t) :
  ~ (0 <= index < len cs) -> (0 <=? index) && (index <? len cs) = false.
Proof.
  intros H. destruct (Z.leb_spec 0 index), (Z.ltb_spec index (len cs));
    cbn; (done || lia).
Qed.

(** C9: with an index outside [0, chapter count), be it negative, equal to
    the count or beyond, [remove_chapter], [update_chapter] and
    [reorder_chapter] (whichever of its two indices is out of range) return
    without raising and leave the manager, chapters included, exactly as it
    was. *)
Theorem out_of_range_index_ignored self index :
  ~ (0 <= index < len (chapters self)) ->
  remove_chapter index self = (Ok tt, self)
  /\ (forall title start_ms duration_ms,
        update_chapter index title start_ms duration_ms self = (Ok tt, self))
  /\ (forall other,
        reorder_chapter index other self = (Ok tt, self)
        /\ reorder_chapter other index self = (Ok tt, self)).
Proof.
  intros Hout%in_range_false.
  unfold remove_chapter, update_chapter, reorder_chapter, bind, get_chapters.
  rewrite Hout. split_and!; try done.
  intros other. by rewrite andb_false_r.
Qed.

Lemma out_of_range_index_ignored_witness :
  let self :=
    mk [Chapter.new t{"A"} 0 (Some 5000) None;
        Chapter.new t{"B"} 5000 None None] [] in
  remove_chapter 2 self = (Ok tt, self)
  /\ update_chapter (-1) (Some t{"X"}) None None self = (Ok tt, self)
  /\ reorder_chapter 0 2 self = (Ok tt, self).
Proof.
  intros self. split_and!.
  - apply (out_of_range_index_ignored self 2). vm_compute. intros [_ H]. done.
  - apply (out_of_range_index_ignored self (-1)). vm_compute.
    intros [H _]. by apply H.
  - apply (out_of_range_index_ignored self 2); vm_compute. intros [_ H]. done.
Defined.

(** With an index in range the three operations return as well. *)
Lemma index_operations_return self index other title start_ms duration_ms :
  fst (remove_chapter index self) = Ok tt
  /\ fst (update_chapter index title start_ms duration_ms self) = Ok tt
  /\ fst (reorder_chapter index other self) = Ok tt.
Proof.
  unfold remove_chapter, update_chapter, reorder_chapter, bind, get_chapters.
  destruct (Z.leb_spec 0 index) as [H0|]; cbn [andb]; [|done].
  destruct (Z.ltb_spec index (len (chapters self))) as [Hlt|]; cbn [andb];
    [|done].
  destruct (lookup_lt_is_Some_2 (chapters self) (Z.to_nat index)) as [c Hc];
    [unfold len in Hlt; lia|].
  unfold lift. rewrite (list_pop_lookup _ _ c), (item_lookup _ _ c) by done.
  split_and!; try done. by destruct (_ && _).
Qed.

End IndexOperations.

(** ** Stored titles *)

Section StoredTitles.

Import ChapterManager.

Lemma add_chapter_cleans title start_ms duration_ms file_path self :
  exists chapter,
    add_chapter title start_ms duration_ms file_path self
    = (Ok chapter, mk (chapters self ++ [chapter]) (last_create_stats self))
    /\ Chapter.title chapter = Chapter._clean_title title.
Proof. by eexists. Qed.

Lemma update_chapter_cleans index title start_ms duration_ms self :
  0 <= index < len (chapters self) ->
  exists chapter,
    chapters
      (snd (update_chapter index (Some title) start_ms duration_ms self))
    !! Z.to_nat index = Some chapter
    /\ Chapter.title chapter = Chapter._clean_title title.
Proof.
  intros [H0 Hlt]. unfold update_chapter, bind, get_chapters.
  destruct (Z.leb_spec 0 index); [|lia].
  destruct (Z.ltb_spec index (len (chapters self))); [|lia]. cbn [andb].
  destruct (lookup_lt_is_Some_2 (chapters self) (Z.to_nat index)) as [c Hc];
    [unfold len in Hlt; lia|].
  unfold lift. rewrite (item_lookup _ _ c) by done.
  eexists. split.
  - cbn [set_chapters snd chapters]. unfold list_set.
    apply list_lookup_insert_eq. unfold len in Hlt. lia.
  - by destruct start_ms, duration_ms.
Qed.

(** C10, at the failing input: [auto_name_chapters] stores the expansion of
    the pattern as it is; its normalised form is another text. *)
Theorem auto_name_chapters_stores_verbatim :
  let self := mk [Chapter.new t{"Intro"} 0 None None] [] in
  auto_name_chapters t{"Part_{num}"} self
  = (Ok tt, mk [Chapter.mk t{"Part_1"} 0 None None] [])
  /\ PyFormat.format t{"Part_{num}"} 1 = Ok t{"Part_1"}
  /\ Chapter._clean_title t{"Part_1"} = t{"Part 1"}
  /\ snd (update_chapter 0 (Some t{"Part_1"}) None None self)
     = mk [Chapter.mk t{"Part 1"} 0 None None] [].
Proof. split_and!; by vm_compute. Qed.

End StoredTitles.
(** ** Operations by index, inside the range *)

Section IndexInRange.

Import ChapterManager.

Lemma in_range_true index (cs : list Chapter.t) :
  0 <= index < len cs -> (0 <=? index) && (index <? len cs) = true.
Proof.
  intros [? ?]. apply andb_true_intro. split; [by apply Z.leb_le|by apply Z.ltb_lt].
Qed.

Lemma list_insert_in_range {A} (xs : list A) i x :
  0 <= i <= len xs ->
  list_insert xs i x = take (Z.to_nat i) xs ++ x :: drop (Z.to_nat i) xs.
Proof.
  intros [H0 Hle]. unfold list_insert.
  destruct (Z.ltb_spec i 0); [lia|]. by rewrite Z.min_l by lia.
Qed.

(** X1: with an index in range, [remove_chapter] returns, deletes the
    chapter at that index and no other, keeps the order of the rest, and the
    chapter count drops by one. *)
Theorem remove_chapter_in_range self index :
  0 <= index < len (chapters self) ->
  exists removed,
    chapters self !! Z.to_nat index = Some removed
    /\ remove_chapter index self
       = (Ok tt,
          mk (take (Z.to_nat index) (chapters self)
              ++ drop (S (Z.to_nat index)) (chapters self))
            (last_create_stats self))
    /\ chapters self
       = take (Z.to_nat index) (chapters self)
         ++ removed :: drop (S (Z.to_nat index)) (chapters self)
    /\ fst (get_chapter_count (snd (remove_chapter index self)))
       = Ok (len (chapters self) - 1).
Proof.
  intros Hin.
  destruct (lookup_lt_is_Some_2 (chapters self) (Z.to_nat index)) as [c Hc];
    [unfold len in Hin; lia|].
  exists c. split; [done|].
  assert (remove_chapter index self
          = (Ok tt, mk (delete (Z.to_nat index) (chapters self))
                      (last_create_stats self))) as Hrun.
  { unfold remove_chapter, bind, get_chapters, lift.
    rewrite (in_range_true index (chapters self) Hin).
    by rewrite (list_pop_lookup _ _ c (proj1 Hin) Hc). }
  split_and!.
  - by rewrite Hrun, delete_take_drop.
  - by rewrite take_drop_middle.
  - rewrite Hrun. cbn. f_equal. unfold len.
    rewrite length_delete by done.
    pose proof (lookup_lt_Some _ _ _ Hc). lia.
Qed.

Lemma remove_chapter_in_range_witness :
  snd (remove_chapter 1
         (mk [Chapter.new t{"A"} 0 None None; Chapter.new t{"B"} 1 None None;
              Chapter.new t{"C"} 2 None None] []))
  = mk [Chapter.new t{"A"} 0 None None; Chapter.new t{"C"} 2 None None] [].
Proof.
  destruct (remove_chapter_in_range
              (mk [Chapter.new t{"A"} 0 None None;
                   Chapter.new t{"B"} 1 None None;
                   Chapter.new t{"C"} 2 None None] []) 1)
    as (removed & _ & -> & _); [by vm_compute|done].
Defined.

(** What [reorder_chapter] does inside the range. *)
Lemma reorder_chapter_run self from_index to_index moved :
  0 <= from_index < len (chapters self) ->
  0 <= to_index < len (chapters self) ->
  chapters self !! Z.to_nat from_index = Some moved ->
  reorder_chapter from_index to_index self
  = (Ok tt,
     mk (take (Z.to_nat to_index) (delete (Z.to_nat from_index) (chapters self))
         ++ moved
            :: drop (Z.to_nat to_index)
                 (delete (Z.to_nat from_index) (chapters self)))
       (last_create_stats self)).
Proof.
  intros Hfrom Hto Hmoved.
  unfold reorder_chapter, bind, get_chapters, lift.
  rewrite (in_range_true _ _ Hfrom), (in_range_true _ _ Hto).
  rewrite (list_pop_lookup _ _ moved (proj1 Hfrom) Hmoved).
  cbn [andb fst snd set_chapters]. rewrite list_insert_in_range; [done|].
  unfold len in *. rewrite length_delete by done. lia.
Qed.

(** Where a moved chapter goes. *)
Lemma reorder_chapter_moved self from_index to_index :
  0 <= from_index < len (chapters self) ->
  0 <= to_index < len (chapters self) ->
  let after := snd (reorder_chapter from_index to_index self) in
  fst (reorder_chapter from_index to_index self) = Ok tt
  /\ chapters after !! Z.to_nat to_index
     = chapters self !! Z.to_nat from_index
  /\ delete (Z.to_nat to_index) (chapters after)
     = delete (Z.to_nat from_index) (chapters self)
  /\ chapters after ≡ₚ chapters self
  /\ last_create_stats after = last_create_stats self.
Proof.
  intros Hfrom Hto after. subst after.
  destruct (lookup_lt_is_Some_2 (chapters self) (Z.to_nat from_index))
    as [c Hc]; [unfold len in Hfrom; lia|].
  rewrite (reorder_chapter_run _ _ _ c) by done. cbn [fst snd chapters].
  set (rest := delete (Z.to_nat from_index) (chapters self)).
  assert (Z.to_nat to_index <= length rest)%nat as Hle.
  { subst rest. rewrite length_delete by done. unfold len in *. lia. }
  split_and!; try done.
  - rewrite Hc. rewrite lookup_app_r by (rewrite length_take; lia).
    rewrite length_take, Nat.min_l by lia. by rewrite Nat.sub_diag.
  - rewrite delete_take_drop.
    rewrite take_app_length' by (rewrite length_take; lia).
    replace (S (Z.to_nat to_index))
      with (length (take (Z.to_nat to_index) rest) + 1)%nat
      by (rewrite length_take; lia).
    rewrite drop_app_add'; [|done].
    change (drop 1 (c :: drop (Z.to_nat to_index) rest))
      with (drop (Z.to_nat to_index) rest).
    by rewrite take_drop.
  - rewrite <- Permutation_middle, take_drop. subst rest.
    rewrite delete_take_drop, Permutation_middle.
    by rewrite take_drop_middle.
Qed.

(** X2: with both indices in range, [reorder_chapter] returns and moves one
    chapter: the chapter that was at [from_index] is at [to_index], the other
    chapters keep their relative order, no chapter is lost or duplicated,
    and the count is as before. *)
Theorem reorder_chapter_moves self from_index to_index :
  0 <= from_index < len (chapters self) ->
  0 <= to_index < len (chapters self) ->
  let after := snd (reorder_chapter from_index to_index self) in
  fst (reorder_chapter from_index to_index self) = Ok tt
  /\ chapters after !! Z.to_nat to_index
     = chapters self !! Z.to_nat from_index
  /\ delete (Z.to_nat to_index) (chapters after)
     = delete (Z.to_nat from_index) (chapters self)
  /\ chapters after ≡ₚ chapters self
  /\ length (chapters after) = length (chapters self)
  /\ last_create_stats after = last_create_stats self.
Proof.
  intros Hfrom Hto after.
  destruct (reorder_chapter_moved self from_index to_index Hfrom Hto)
    as (Hret & Hat & Hrest & Hperm & Hstats).
  split_and!; try done. by apply Permutation_length.
Qed.

Lemma reorder_chapter_moves_witness :
  snd (reorder_chapter 0 2
         (mk [Chapter.new t{"A"} 0 None None; Chapter.new t{"B"} 1 None None;
              Chapter.new t{"C"} 2 None None] []))
  = mk [Chapter.new t{"B"} 1 None None; Chapter.new t{"C"} 2 None None;
        Chapter.new t{"A"} 0 None None] [].
Proof.
  pose proof (reorder_chapter_moves
                (mk [Chapter.new t{"A"} 0 None None;
                     Chapter.new t{"B"} 1 None None;
                     Chapter.new t{"C"} 2 None None] []) 0 2) as H.
  destruct H as (_ & _ & _ & _ & _ & _); [by vm_compute..|]. by vm_compute.
Defined.

(** X3: moving a chapter and moving it back restores the manager. *)
Theorem reorder_chapter_back self from_index to_index :
  0 <= from_index < len (chapters self) ->
  0 <= to_index < len (chapters self) ->
  reorder_chapter to_index from_index
    (snd (reorder_chapter from_index to_index self))
  = (Ok tt, self).
Proof.
  intros Hfrom Hto.
  destruct (lookup_lt_is_Some_2 (chapters self) (Z.to_nat from_index))
    as [c Hc]; [unfold len in Hfrom; lia|].
  destruct (reorder_chapter_moved self from_index to_index Hfrom Hto)
    as (_ & Hat & Hrest & Hperm & Hstats).
  set (after := snd (reorder_chapter from_index to_index self)) in *.
  assert (len (chapters after) = len (chapters self)) as Hlen.
  { unfold len. by rewrite Hperm. }
  rewrite (reorder_chapter_run after to_index from_index c)
    by (rewrite ?Hlen; congruence).
  rewrite Hrest, Hstats. destruct self as [cs stats]. cbn [chapters] in *.
  f_equal. f_equal.
  assert (Z.to_nat from_index < length cs)%nat
    by (by eapply lookup_lt_Some).
  rewrite delete_take_drop.
  rewrite take_app_length', drop_app_length' by (rewrite length_take; lia).
  by apply take_drop_middle.
Qed.

Lemma reorder_chapter_back_witness :
  let self :=
    mk [Chapter.new t{"A"} 0 None None; Chapter.new t{"B"} 1 None None;
        Chapter.new t{"C"} 2 None None] [] in
  reorder_chapter 2 0 (snd (reorder_chapter 0 2 self)) = (Ok tt, self).
Proof. intros self. by apply (reorder_chapter_back self 0 2); vm_compute. Defined.

(** X4: with an index in range, [update_chapter] returns and changes the
    chapter at that index only: a given title is stored normalised, a given
    start or duration is stored as it is, every field that is not given is
    kept (so a duration can be replaced but never unset), the source path is
    kept, and every other chapter and the chapter count are as before. *)
Theorem update_chapter_in_range self index title start_ms duration_ms :
  0 <= index < len (chapters self) ->
  exists old,
    chapters self !! Z.to_nat index = Some old
    /\ update_chapter index title start_ms duration_ms self
       = (Ok tt,
          mk (<[Z.to_nat index :=
                  Chapter.mk
                    (match title with
                     | Some title => Chapter._clean_title title
                     | None => Chapter.title old
                     end)
                    (default (Chapter.start_ms old) start_ms)
                    (match duration_ms with
                     | Some d => Some d
                     | None => Chapter.duration_ms old
                     end)
                    (Chapter.file_path old)]> (chapters self))
            (last_create_stats self))
    /\ (forall j,
          j <> Z.to_nat index ->
          chapters
            (snd (update_chapter index title start_ms duration_ms self)) !! j
          = chapters self !! j)
    /\ length
         (chapters (snd (update_chapter index title start_ms duration_ms self)))
       = length (chapters self).
Proof.
  intros Hin.
  destruct (lookup_lt_is_Some_2 (chapters self) (Z.to_nat index)) as [c Hc];
    [unfold len in Hin; lia|].
  exists c. split; [done|].
  assert (update_chapter index title start_ms duration_ms self
          = (Ok tt,
             mk (<[Z.to_nat index :=
                  Chapter.mk
                    (match title with
                     | Some title => Chapter._clean_title title
                     | None => Chapter.title c
                     end)
                    (default (Chapter.start_ms c) start_ms)
                    (match duration_ms with
                     | Some d => Some d
                     | None => Chapter.duration_ms c
                     end)
                    (Chapter.file_path c)]> (chapters self))
               (last_create_stats self))) as Hrun.
  { unfold update_chapter, bind, get_chapters, lift.
    rewrite (in_range_true _ _ Hin), (item_lookup _ _ c (proj1 Hin) Hc).
    unfold set_chapters, list_set. destruct c as [t0 s0 d0 p0].
    by destruct title, start_ms, duration_ms. }
  rewrite Hrun. cbn [snd chapters]. split_and!; [done|..].
  - intros j Hj. by apply list_lookup_insert_ne.
  - apply length_insert.
Qed.

Lemma update_chapter_in_range_witness :
  snd (update_chapter 1 (Some t{"02 - New_title.mp3"}) None (Some 7)
         (mk [Chapter.new t{"A"} 0 None None;
              Chapter.new t{"B"} 1 (Some 5) (Some t{"b.mp3"})] []))
  = mk [Chapter.new t{"A"} 0 None None;
        Chapter.mk t{"New title"} 1 (Some 7) (Some t{"b.mp3"})] [].
Proof.
  destruct (update_chapter_in_range
              (mk [Chapter.new t{"A"} 0 None None;
                   Chapter.new t{"B"} 1 (Some 5) (Some t{"b.mp3"})] [])
              1 (Some t{"02 - New_title.mp3"}) None (Some 7))
    as (old & Hold & -> & _); [by vm_compute|].
  vm_compute in Hold. injection Hold as <-. by vm_compute.
Defined.

(** X5: [add_chapter] appends one chapter, whose title is the normalised
    form of the given one and whose other fields are as given, returns it
    and raises the count by one; [remove_chapter] at the index of the new
    chapter then restores the manager. *)
Theorem add_chapter_appends self title start_ms duration_ms file_path :
  let added := Chapter.mk (Chapter._clean_title title) start_ms duration_ms
                 file_path in
  add_chapter title start_ms duration_ms file_path self
  = (Ok added, mk (chapters self ++ [added]) (last_create_stats self))
  /\ fst (get_chapter_count
            (snd (add_chapter title start_ms duration_ms file_path self)))
     = Ok (len (chapters self) + 1)
  /\ remove_chapter (len (chapters self))
       (snd (add_chapter title start_ms duration_ms file_path self))
     = (Ok tt, self).
Proof.
  intros added. split; [done|]. split.
  - cbn. f_equal. rewrite len_app. done.
  - cbn [add_chapter bind get_chapters set_chapters ret snd].
    unfold remove_chapter, bind, get_chapters, lift. cbn [chapters].
    rewrite in_range_true
      by (rewrite len_app; pose proof (len_nonneg (chapters self));
          unfold len in *; cbn; lia).
    rewrite (list_pop_lookup _ _ (Chapter.new title start_ms duration_ms file_path));
      [|apply len_nonneg|].
    + cbn [snd set_chapters last_create_stats chapters]. unfold len.
      rewrite Nat2Z.id, delete_take_drop.
      rewrite take_app_length, drop_ge by (rewrite length_app; cbn; lia).
      rewrite app_nil_r. by destruct self.
    + unfold len. rewrite Nat2Z.id. by rewrite lookup_app_r, Nat.sub_diag by lia.
Qed.

End IndexInRange.

(** ** Sorting the chapters *)

Section SortByStartTime.

Import ChapterManager.

(** X6: [sort_by_start_time] returns and leaves the same chapters in
    ascending order of [start_ms]; chapters with the same start keep their
    relative order; sorting again changes nothing. *)
Theorem sort_by_start_time_sorts self :
  let after := snd (sort_by_start_time self) in
  fst (sort_by_start_time self) = Ok tt
  /\ Sorted Z.le (map Chapter.start_ms (chapters after))
  /\ chapters after ≡ₚ chapters self
  /\ (forall start,
        filter (fun c => Chapter.start_ms c = start) (chapters after)
        = filter (fun c => Chapter.start_ms c = start) (chapters self))
  /\ sort_by_start_time after = (Ok tt, after)
  /\ last_create_stats after = last_create_stats self.
Proof.
  intros after. subst after.
  unfold sort_by_start_time, bind, get_chapters, set_chapters.
  cbn [fst snd chapters last_create_stats]. split_and!; try done.
  - apply sorted_sorted.
  - apply sorted_perm.
  - intros start. apply sorted_stable.
  - by rewrite sorted_id by apply sorted_sorted.
Qed.

End SortByStartTime.
(** ** Chapters from files *)

Section CreateFromFiles.

Import ChapterManager.

Context {float : Type} (to_ms : float -> result Z).

Lemma files_loop_ok prefer files durations current id3 fn cs stats :
  Forall2 (fun f d => to_ms (AudioFile.duration_seconds f) = Ok d)
    files durations ->
  for_fold files (current, id3, fn) 
    (fun '(current_time_ms, titles_from_id3, titles_from_filename)
           (audio_file : AudioFile.t float) =>
         bind (lift (to_ms (AudioFile.duration_seconds audio_file)))
           (fun duration_ms =>
              let '(title, titles_from_id3, titles_from_filename) :=
                if prefer && text_truthy (AudioFile.title audio_file)
                then (default [] (AudioFile.title audio_file),
                      titles_from_id3 + 1, titles_from_filename)
                else (AudioFile.filename audio_file,
                      titles_from_id3, titles_from_filename + 1) in
              bind (add_chapter title current_time_ms (Some duration_ms)
                      (Some (AudioFile.path audio_file)))
                (fun _ => ret (current_time_ms + duration_ms,
                               titles_from_id3, titles_from_filename)))) (mk cs stats)
  = (Ok (current + sum_list durations,
         id3 + tagged prefer files,
         fn + (len files - tagged prefer files)),
     mk (cs ++ consecutive prefer current (zip files durations)) stats).
Proof.
  intros Hall. revert current id3 fn cs.
  induction Hall as [|f d files durations Hf _ IH]; intros current id3 fn cs.
  - cbn. unfold ret, tagged, len. cbn. rewrite app_nil_r.
    change (Z.of_nat 0) with 0. by rewrite Z.sub_diag, !Z.add_0_r.
  - cbn [for_fold]. unfold bind at 1. unfold bind at 1. unfold lift at 1.
    rewrite Hf. cbn [zip zip_with consecutive sum_list foldr].
    unfold tagged, len, chosen_title in *. cbn [List.filter length].
    destruct (prefer && text_truthy (AudioFile.title f)) eqn:Hpref;
      cbn [add_chapter bind get_chapters set_chapters ret chapters
           last_create_stats];
      rewrite IH, <- app_assoc; cbn [app length];
      unfold Chapter.new; rewrite ?Hpref;
      (f_equal; f_equal; (f_equal; [f_equal|]); unfold sum_list; lia).
Qed.

Lemma files_loop_raise prefer before failing after durations e
    current id3 fn cs stats :
  Forall2 (fun f d => to_ms (AudioFile.duration_seconds f) = Ok d)
    before durations ->
  to_ms (AudioFile.duration_seconds failing) = Raise e ->
  for_fold (before ++ failing :: after) (current, id3, fn) 
    (fun '(current_time_ms, titles_from_id3, titles_from_filename)
           (audio_file : AudioFile.t float) =>
         bind (lift (to_ms (AudioFile.duration_seconds audio_file)))
           (fun duration_ms =>
              let '(title, titles_from_id3, titles_from_filename) :=
                if prefer && text_truthy (AudioFile.title audio_file)
                then (default [] (AudioFile.title audio_file),
                      titles_from_id3 + 1, titles_from_filename)
                else (AudioFile.filename audio_file,
                      titles_from_id3, titles_from_filename + 1) in
              bind (add_chapter title current_time_ms (Some duration_ms)
                      (Some (AudioFile.path audio_file)))
                (fun _ => ret (current_time_ms + duration_ms,
                               titles_from_id3, titles_from_filename))))
    (mk cs stats)
  = (Raise e, mk (cs ++ consecutive prefer current (zip before durations)) stats).
Proof.
  intros Hall He. revert current id3 fn cs.
  induction Hall as [|f d files durations Hf _ IH]; intros current id3 fn cs.
  - cbn [app for_fold]. unfold bind at 1. unfold bind at 1. unfold lift at 1.
    rewrite He. cbn. by rewrite app_nil_r.
  - cbn [app for_fold]. unfold bind at 1. unfold bind at 1. unfold lift at 1.
    rewrite Hf. cbn [zip zip_with consecutive].
    unfold chosen_title.
    destruct (prefer && text_truthy (AudioFile.title f)) eqn:Hpref;
      cbn [add_chapter bind get_chapters set_chapters ret chapters
           last_create_stats];
      rewrite IH, <- app_assoc; cbn [app];
      unfold Chapter.new; by rewrite ?Hpref.
Qed.

Lemma consecutive_length prefer start (files : list (AudioFile.t float * Z)) :
  length (consecutive prefer start files) = length files.
Proof.
  revert start. induction files as [|[f d] files IH]; intros start; cbn;
    [done|]. by rewrite IH.
Qed.

Lemma consecutive_lookup prefer start (files : list (AudioFile.t float * Z)) k c :
  consecutive prefer start files !! k = Some c ->
  exists f d,
    files !! k = Some (f, d)
    /\ Chapter.title c = Chapter._clean_title (chosen_title prefer f)
    /\ Chapter.start_ms c = start + sum_list (take k (map snd files))
    /\ Chapter.duration_ms c = Some d
    /\ Chapter.file_path c = Some (AudioFile.path f).
Proof.
  revert start k. induction files as [|[f d] files IH]; intros start k;
    [done|].
  destruct k as [|k]; cbn [consecutive lookup list_lookup].
  - intros [= <-]. exists f, d. unfold sum_list. cbn. split_and!; try done. lia.
  - intros Hc. destruct (IH _ _ Hc) as (f' & d' & ? & ? & Hs & ? & ?).
    exists f', d'. split_and!; try done. rewrite Hs.
    unfold sum_list. cbn [map snd take foldr]. lia.
Qed.

(** X7: when the duration of every file converts, [create_from_files]
    returns and replaces the chapters by one chapter for each file, in the
    order of the files: its title is the normalised tag title when tags are
    preferred and the file has a non-empty one, the normalised file name
    otherwise; its start is the sum of the durations of the files before it,
    so the first starts at 0 and each starts where the one before ends; its
    duration and its source path are those of the file.  The statistics
    count the titles taken from tags and from file names, which add up to
    the number of files. *)
Theorem create_from_files_consecutive files durations prefer self :
  Forall2 (fun f d => to_ms (AudioFile.duration_seconds f) = Ok d)
    files durations ->
  let after := snd (create_from_files to_ms files prefer self) in
  fst (create_from_files to_ms files prefer self) = Ok tt
  /\ length (chapters after) = length files
  /\ (forall k c,
        chapters after !! k = Some c ->
        exists f d,
          files !! k = Some f /\ durations !! k = Some d
          /\ Chapter.title c = Chapter._clean_title (chosen_title prefer f)
          /\ Chapter.start_ms c = sum_list (take k durations)
          /\ Chapter.duration_ms c = Some d
          /\ Chapter.file_path c = Some (AudioFile.path f)
          /\ (forall next,
                chapters after !! S k = Some next ->
                Chapter.start_ms next = Chapter.start_ms c + d))
  /\ last_create_stats after
     = [(t{"from_id3"}, tagged prefer files);
        (t{"from_filename"}, len files - tagged prefer files);
        (t{"total"}, len files)]
  /\ 0 <= tagged prefer files <= len files.
Proof.
  intros Hall after. subst after.
  assert (create_from_files to_ms files prefer self
          = (Ok tt,
             mk (consecutive prefer 0 (zip files durations))
               [(t{"from_id3"}, tagged prefer files);
                (t{"from_filename"}, len files - tagged prefer files);
                (t{"total"}, len files)])) as ->.
  { unfold create_from_files. unfold bind at 1. cbn [set_chapters].
    unfold bind at 1. rewrite (files_loop_ok _ _ _ _ _ _ _ _ Hall).
    cbn [app]. unfold set_last_create_stats. cbn [chapters].
    repeat f_equal; lia. }
  cbn [fst snd chapters last_create_stats].
  pose proof (Forall2_length _ _ _ Hall) as Hlen.
  split_and!; try done.
  - rewrite consecutive_length, length_zip_with. lia.
  - intros k c Hc. pose proof Hc as Hc'.
    apply consecutive_lookup in Hc as (f & d & Hfd & Ht & Hs & Hd & Hp).
    apply lookup_zip_with_Some in Hfd as (f' & d' & [= <- <-] & Hf & Hdk).
    assert (map snd (zip files durations) = durations) as Hsnd
      by (apply snd_zip; lia).
    rewrite Hsnd in Hs. exists f, d. split_and!; try done.
    intros next Hnext.
    apply consecutive_lookup in Hnext as (? & ? & _ & _ & Hs' & _ & _).
    rewrite Hsnd in Hs'. rewrite Hs', Hs.
    rewrite (take_S_r _ _ _ Hdk). unfold sum_list. rewrite foldr_app. cbn.
    clear. generalize (take k durations). intros l.
    induction l as [|x l IH]; cbn; lia.
  - unfold tagged. lia.
  - unfold tagged, len. pose proof (List.filter_length_le
      (fun f => prefer && text_truthy (AudioFile.title f)) files). lia.
Qed.

(** X8: when the duration of a file does not convert, [create_from_files]
    raises the exception of the conversion; the chapters of the files before
    it have been built, the files after it are not looked at, and the
    statistics are still those of the previous build. *)
Theorem create_from_files_raises before failing after durations e prefer self :
  Forall2 (fun f d => to_ms (AudioFile.duration_seconds f) = Ok d)
    before durations ->
  to_ms (AudioFile.duration_seconds failing) = Raise e ->
  create_from_files to_ms (before ++ failing :: after) prefer self
  = (Raise e,
     mk (consecutive prefer 0 (zip before durations))
       (last_create_stats self)).
Proof.
  intros Hall He. unfold create_from_files.
  unfold bind at 1. cbn [set_chapters]. unfold bind at 1.
  by rewrite (files_loop_raise _ _ _ _ _ _ _ _ _ _ _ Hall He).
Qed.

End CreateFromFiles.

Section CreateFromFilesWitnesses.

Import ChapterManager.

Lemma create_from_files_consecutive_witness :
  let files :=
    [AudioFile.mk t{"/book/01 - Intro.mp3"} t{"01 - Intro.mp3"} 2 44100 2
       None None None;
     AudioFile.mk t{"/book/02.mp3"} t{"02.mp3"} 3 44100 2
       None (Some 2) (Some t{"The Road"})] in
  fst (create_from_files (fun s => Ok (s * 1000)) files true (mk [] []))
  = Ok tt.
Proof.
  intros files.
  apply (create_from_files_consecutive (fun s => Ok (s * 1000)) files
           [2000; 3000] true (mk [] [])).
  by repeat constructor.
Defined.

Lemma create_from_files_raises_witness :
  let to_ms := fun s : Z =>
    if s <? 0 then Raise (Unsupported t{"duration"}) else Ok (s * 1000) in
  let file := fun s =>
    AudioFile.mk t{"/book/a.mp3"} t{"a.mp3"} s 44100 2 None None None in
  create_from_files to_ms ([file 2] ++ file (-1) :: [file 3]) true
    (mk [] [(t{"total"}, 7)])
  = (Raise (Unsupported t{"duration"}),
     mk [Chapter.mk t{"a"} 0 (Some 2000) (Some t{"/book/a.mp3"})]
       [(t{"total"}, 7)]).
Proof.
  intros to_ms file.
  rewrite (create_from_files_raises to_ms [file 2] (file (-1)) [file 3]
             [2000] (Unsupported t{"duration"}) true
             (mk [] [(t{"total"}, 7)])).
  - by vm_compute.
  - by repeat constructor.
  - done.
Defined.

End CreateFromFilesWitnesses.
(** ** Models without warnings *)

Section NoWarnings.

Import ChapterManager.

Lemma title_warnings_nil i cs :
  title_warnings i cs = [] <-> Forall well_titled cs.
Proof.
  revert i. induction cs as [|c cs IH]; intros i; cbn [title_warnings].
  - split; [constructor|done].
  - unfold well_titled at 1. rewrite Forall_cons, <- (IH (i + 1)).
    unfold well_titled. destruct (strip (Chapter.title c)); cbn; split;
      try done; intros [? ?]; done.
Qed.

Lemma time_warnings_nil i cs :
  time_warnings i cs = [] <-> Forall well_timed cs.
Proof.
  revert i. induction cs as [|c cs IH]; intros i; cbn [time_warnings].
  - split; [constructor|done].
  - rewrite Forall_cons, <- (IH (i + 1)). unfold well_timed.
    destruct (Z.ltb_spec (Chapter.start_ms c) 0) as [Hs|Hs];
      [split; [done|intros [[? _] _]; lia]|].
    destruct (Chapter.duration_ms c) as [d|]; cbn [app].
    + destruct (Z.ltb_spec d 0) as [Hd|Hd].
      * split; [done|]. intros [[_ H] _]. specialize (H d eq_refl). lia.
      * cbn [app]. split; [|by intros [_ ?]].
        intros ?. split_and!; try done. by intros ? [= <-].
    + split; [|by intros [_ ?]]. intros ?. by split_and!.
Qed.

Lemma overlap_warnings_nil cs : overlap_warnings cs = [] <-> no_overlap cs.
Proof.
  induction cs as [|c cs IH]; cbn [overlap_warnings].
  - split; [by intros _ k ? ? ?|done].
  - destruct cs as [|n cs].
    + split; [|done]. intros _ [|k] ? ?; by intros ? ?.
    + split.
      * intros H. apply app_eq_nil in H as [Hc Hrest].
        apply IH in Hrest. intros [|k] a b Ha Hb.
        -- cbn in Ha, Hb. simplify_eq. by destruct (overlaps a b).
        -- by apply (Hrest k).
      * intros H. rewrite (H O c n eq_refl eq_refl). cbn [app].
        apply IH. intros k a b Ha Hb. by apply (H (S k)).
Qed.

(** X9: [validate] returns no warning at all exactly when the model has at
    least one chapter, no title is blank, no start and no duration is
    negative, and in the order of their starts no chapter with a known
    duration ends after the next one starts.  That order, [by_start], has
    the chapters of the manager in ascending order of [start_ms], those
    with the same start in the order they have in the manager. *)
Theorem validate_no_warning self :
  exists by_start,
    by_start ≡ₚ chapters self
    /\ Sorted Z.le (map Chapter.start_ms by_start)
    /\ (forall start,
          filter (fun c => Chapter.start_ms c = start) by_start
          = filter (fun c => Chapter.start_ms c = start) (chapters self))
    /\ by_start = sorted Chapter.start_ms (chapters self)
    /\ (validate self = (Ok [], self)
        <-> chapters self <> []
            /\ Forall well_titled (chapters self)
            /\ Forall well_timed (chapters self)
            /\ no_overlap by_start).
Proof.
  exists (sorted Chapter.start_ms (chapters self)).
  split; [apply sorted_perm|].
  split; [apply sorted_sorted|].
  split; [intros start; apply sorted_stable|].
  split; [done|].
  rewrite validate_run.
  rewrite <- (title_warnings_nil 1), <- (time_warnings_nil 1),
    <- overlap_warnings_nil.
  destruct (chapters self) as [|c cs].
  - split; [done|]. by intros [? _].
  - split.
    + intros [= H]. apply app_eq_nil in H as [? H].
      apply app_eq_nil in H as [? ?]. done.
    + intros (_ & -> & -> & ->). done.
Qed.

(** Chapters that follow one another without a gap. *)
Lemma consecutive_clean {float} prefer start
    (files : list (AudioFile.t float * Z)) :
  0 <= start -> Forall (fun fd => 0 <= snd fd) files ->
  Forall well_timed (consecutive prefer start files)
  /\ Sorted Z.le (map Chapter.start_ms (consecutive prefer start files))
  /\ no_overlap (consecutive prefer start files).
Proof.
  intros Hstart Hall. revert start Hstart.
  induction Hall as [|[f d] files Hd _ IH]; intros start Hstart.
  - split_and!; [constructor|constructor|by intros k ? ? ?].
  - cbn in Hd. destruct (IH (start + d) ltac:(lia)) as (Ht & Hs & Ho).
    cbn [consecutive]. split_and!.
    + constructor; [|done]. split; [done|]. by intros ? [= <-].
    + cbn [map]. constructor; [done|].
      destruct files as [|[f' d'] files]; cbn; constructor. cbn. lia.
    + intros [|k] a b Ha Hb.
      * cbn in Ha. simplify_eq. destruct files as [|[f' d'] files]; [done|].
        cbn in Hb. simplify_eq. unfold overlaps. cbn.
        apply Z.ltb_ge. lia.
      * by apply (Ho k).
Qed.

(** Chapters that last until the next one starts. *)
Lemma with_durations_clean pairs :
  Sorted Z.le (map fst pairs) ->
  Forall (fun c => forall d, Chapter.duration_ms c = Some d -> 0 <= d)
    (with_durations pairs)
  /\ no_overlap (with_durations pairs).
Proof.
  induction pairs as [|[start title] rest IH]; intros Hs.
  - split; [constructor|by intros k ? ? ?].
  - cbn [map] in Hs. inversion Hs as [|? ? Hs' Hhd]; subst.
    destruct (IH Hs') as [Hd Ho]. cbn [with_durations]. split.
    + constructor; [|done]. cbn.
      destruct rest as [|[next title'] rest]; [done|].
      intros d [= <-]. inversion Hhd; subst. cbn in *. lia.
    + intros [|k] a b Ha Hb.
      * cbn in Ha. simplify_eq. destruct rest as [|[next title'] rest]; [done|].
        cbn in Hb. simplify_eq. unfold overlaps. cbn.
        apply Z.ltb_ge. lia.
      * by apply (Ho k).
Qed.

(** X10: whatever the input and whatever the manager held, the chapters that
    [create_from_timestamps] leaves have no negative duration, and
    [validate] reports no overlap for them. *)
Theorem create_from_timestamps_no_overlap timestamps self :
  let after := snd (create_from_timestamps timestamps self) in
  Forall (fun c => forall d, Chapter.duration_ms c = Some d -> 0 <= d)
    (chapters after)
  /\ (exists warnings,
        validate after = (Ok warnings, after)
        /\ List.filter is_overlap_warning warnings = []).
Proof.
  intros after. subst after. rewrite create_from_timestamps_run.
  destruct (rmap parse_pair timestamps) as [pairs|e]; cbn [snd chapters].
  - destruct (with_durations_clean (sorted fst pairs)) as [Hd Ho];
      [apply sorted_sorted|].
    split; [done|]. eexists. split; [apply validate_run|].
    cbn [chapters].
    assert (sorted Chapter.start_ms (with_durations (sorted fst pairs))
            = with_durations (sorted fst pairs)) as ->.
    { apply sorted_id. rewrite with_durations_starts. apply sorted_sorted. }
    apply overlap_warnings_nil in Ho. rewrite Ho.
    destruct (with_durations (sorted fst pairs)); [done|].
    by rewrite !List.filter_app, title_warnings_not_overlap,
      time_warnings_not_overlap.
  - split; [constructor|]. eexists. split; [apply validate_run|done].
Qed.

End NoWarnings.

Section FilesThenValidate.

Import ChapterManager.

Context {float : Type} (to_ms : float -> result Z).

(** X11: when every duration converts to a non-negative number of
    milliseconds, the chapters that [create_from_files] builds are in
    ascending order of start already, and [validate] finds neither a
    negative time nor an overlap in them: its warnings are those on blank
    titles, or the one warning of an empty model when there is no file. *)
Theorem create_from_files_validates files durations prefer self :
  Forall2 (fun f d => to_ms (AudioFile.duration_seconds f) = Ok d)
    files durations ->
  Forall (fun d => 0 <= d) durations ->
  let after := snd (create_from_files to_ms files prefer self) in
  sort_by_start_time after = (Ok tt, after)
  /\ validate after
     = (Ok (match files with
            | [] => [t{"No chapters defined"}]
            | _ => title_warnings 1 (chapters after)
            end),
        after).
Proof.
  intros Hall Hpos after.
  assert (after
          = mk (consecutive prefer 0 (zip files durations))
              [(t{"from_id3"}, tagged prefer files);
               (t{"from_filename"}, len files - tagged prefer files);
               (t{"total"}, len files)]) as Hafter.
  { subst after. unfold create_from_files. unfold bind at 1.
    cbn [set_chapters]. unfold bind at 1.
    rewrite (files_loop_ok _ _ _ _ _ _ _ _ _ Hall).
    cbn [app]. unfold set_last_create_stats. cbn [snd chapters].
    repeat f_equal; lia. }
  clearbody after. subst after.
  destruct (consecutive_clean prefer 0 (zip files durations))
    as (Ht & Hs & Ho); [done| |].
  { apply Forall_forall. intros [f d] Hin.
    apply elem_of_zip_r in Hin. cbn.
    by eapply (proj1 (Forall_forall _ _) Hpos). }
  assert (sorted Chapter.start_ms (consecutive prefer 0 (zip files durations))
          = consecutive prefer 0 (zip files durations)) as Hsorted
    by (by apply sorted_id).
  split.
  - unfold sort_by_start_time, bind, get_chapters, set_chapters.
    cbn [fst snd chapters last_create_stats]. by rewrite Hsorted.
  - rewrite validate_run. cbn [chapters]. rewrite Hsorted.
    apply time_warnings_nil with (i := 1) in Ht.
    apply overlap_warnings_nil in Ho. rewrite Ht, Ho.
    pose proof (Forall2_length _ _ _ Hall) as Hlen.
    destruct files as [|f files], durations as [|d durations]; try done.
    cbn [zip zip_with consecutive app]. by rewrite app_nil_r.
Qed.

End FilesThenValidate.

Section FilesThenValidateWitness.

Import ChapterManager.

Lemma create_from_files_validates_witness :
  let files :=
    [AudioFile.mk t{"/book/01 - Intro.mp3"} t{"01 - Intro.mp3"} 2 44100 2
       None None None;
     AudioFile.mk t{"/book/02.mp3"} t{"02.mp3"} 3 44100 2
       None (Some 2) (Some t{"The Road"})] in
  let after :=
    snd (create_from_files (fun s => Ok (s * 1000)) files true (mk [] [])) in
  validate after = (Ok (title_warnings 1 (chapters after)), after).
Proof.
  intros files after.
  apply (proj2 (create_from_files_validates (fun s => Ok (s * 1000)) files
                  [2000; 3000] true (mk [] [])
                  ltac:(by repeat constructor)
                  ltac:(by repeat constructor))).
Defined.

End FilesThenValidateWitness.
(** ** The timestamps of the chapter list for mp4chaps *)

Section Mp4ChapsTimestamp.

Import ChapterManager M4BCreator.

Lemma rpartition_none sep s :
  contains sep s = false -> rpartition sep s = None.
Proof.
  induction s as [|c s IH]; cbn; [done|].
  rewrite (Ascii.eqb_sym sep c).
  destruct (Ascii.eqb c sep); cbn; [done|].
  intros H. by rewrite IH.
Qed.

Lemma rpartition_app sep a b :
  contains sep b = false -> rpartition sep (a ++ sep :: b) = Some (a, b).
Proof.
  intros Hb. induction a as [|c a IH]; cbn.
  - by rewrite (rpartition_none _ _ Hb), Ascii.eqb_refl.
  - by rewrite IH.
Qed.

Lemma digit_not_dot c : is_digit c = true -> Ascii.eqb c "." = false.
Proof.
  destruct c as [[] [] [] [] [] [] [] []]; by vm_compute.
Qed.

Lemma digit_value_bounds c :
  is_digit c = true -> 0 <= digit_value c <= 9.
Proof.
  destruct c as [[] [] [] [] [] [] [] []]; vm_compute;
    (discriminate || (intros _; split; discriminate)).
Qed.

Lemma digit_value_zero c :
  is_digit c = true -> digit_value c = 0 -> c = "0"%char.
Proof.
  destruct c as [[] [] [] [] [] [] [] []]; vm_compute;
    (discriminate || reflexivity || (intros _; discriminate)).
Qed.

(** The milliseconds field without its trailing zeros. *)
Lemma trimmed_fraction F :
  all_digits F = true -> length F = 3%nat ->
  let ms := rstrip_chars t{"."} (rstrip_chars t{"0"} F) in
  all_digits ms = true
  /\ (exists zeros, F = ms ++ zeros /\ Forall (fun c => c = "0"%char) zeros)
  /\ last ms <> Some "0"%char
  /\ last ms <> Some "."%char
  /\ fraction_ms ms = value F
  /\ (ms = [] <-> value F = 0).
Proof.
  intros HF Hlen.
  destruct F as [|a [|b [|c [|d F]]]]; try done.
  cbn in HF. apply andb_prop in HF as [Ha HF].
  apply andb_prop in HF as [Hb HF]. apply andb_prop in HF as [Hc _].
  pose proof (digit_not_dot a Ha) as Hda.
  pose proof (digit_not_dot b Hb) as Hdb.
  pose proof (digit_not_dot c Hc) as Hdc.
  pose proof (digit_value_bounds a Ha) as Hva.
  pose proof (digit_value_bounds b Hb) as Hvb.
  pose proof (digit_value_bounds c Hc) as Hvc.
  assert (value [a; b; c]
          = 100 * digit_value a + 10 * digit_value b + digit_value c) as Hval
    by (unfold value, value_from; cbn [foldl]; lia).
  rewrite Hval.
  unfold rstrip_chars. cbn [rev app lstrip_chars existsb Text.of_string
    list_ascii_of_string].
  rewrite !orb_false_r.
  destruct (Ascii.eqb_spec c "0") as [->|Hc0];
    [destruct (Ascii.eqb_spec b "0") as [->|Hb0];
      [destruct (Ascii.eqb_spec a "0") as [->|Ha0]|]|];
    cbn [rev app lstrip_chars existsb]; rewrite ?orb_false_r, ?Hda, ?Hdb, ?Hdc;
    cbn [rev app all_digits forallb]; rewrite ?Ha, ?Hb, ?Hc.
  - split_and!; try done. exists t{"000"}. split; [done|]. by repeat constructor.
  - split_and!; try done.
    + exists t{"00"}. split; [done|]. by repeat constructor.
    + cbn. congruence.
    + cbn. intros [= ->]. done.
    + split; [done|]. intros E. exfalso. apply Ha0.
      apply digit_value_zero; [done|]. change (digit_value "0") with 0 in E. lia.
  - split_and!; try done.
    + exists t{"0"}. split; [done|]. by repeat constructor.
    + cbn. congruence.
    + cbn. intros [= ->]. done.
    + split; [done|]. intros E. exfalso. apply Hb0.
      apply digit_value_zero; [done|]. change (digit_value "0") with 0 in E. lia.
  - split_and!; try done.
    + exists []. split; [done|]. constructor.
    + cbn. congruence.
    + cbn. intros [= ->]. done.
    + split; [done|]. intros E. exfalso. apply Hc0.
      apply digit_value_zero; [done|]. lia.
Qed.


(** What is written for a start that is not negative. *)
Lemma mp4chaps_timestamp_run start_ms :
  0 <= start_ms ->
  _parse_timestamp (_mp4chaps_timestamp start_ms) = Ok start_ms
  /\ (exists dropped,
        format_timestamp start_ms = _mp4chaps_timestamp start_ms ++ dropped
        /\ Forall (fun c => c = "0"%char \/ c = "."%char) dropped)
  /\ (contains "." (_mp4chaps_timestamp start_ms) = false
      <-> start_ms mod 1000 = 0)
  /\ (contains "." (_mp4chaps_timestamp start_ms) = true ->
      last (_mp4chaps_timestamp start_ms) <> Some "0"%char
      /\ last (_mp4chaps_timestamp start_ms) <> Some "."%char).
Proof.
  intros Hms.
  destruct (format_timestamp_fields start_ms Hms)
    as (Heq & (HH & HHne & HHv) & (HM & HMlen & HMv) & (HS & HSlen & HSv)
        & (HF & HFlen & HFv)).
  set (H := PyInt.format_0d 2 (start_ms / 1000 / 3600)) in *.
  set (M := PyInt.format_0d 2 ((start_ms / 1000) mod 3600 / 60)) in *.
  set (S := PyInt.format_0d 2 ((start_ms / 1000) mod 60)) in *.
  set (F := PyInt.format_0d 3 (start_ms mod 1000)) in *.
  set (base := H ++ t{":"} ++ M ++ t{":"} ++ S).
  assert (contains "." base = false) as Hnodot.
  { unfold base. rewrite !contains_app.
    rewrite (contains_digits "." H), (contains_digits "." M),
      (contains_digits "." S) by done. done. }
  assert (format_timestamp start_ms = base ++ "."%char :: F) as Hfmt
    by (rewrite Heq; unfold base; by rewrite <- !app_assoc).
  destruct (trimmed_fraction F HF HFlen) as (Hd & (zeros & HFz & Hz) & Hlast & Hlastdot & Hv & Hnil).
  set (ms := rstrip_chars t{"."} (rstrip_chars t{"0"} F)) in *.
  assert (rmap PyInt.int (split ":" base)
          = Ok [value H; value M; value S]) as Hparts.
  { unfold base.
    replace (H ++ t{":"} ++ M ++ t{":"} ++ S)
      with (H ++ ":"%char :: (M ++ ":"%char :: S)) by done.
    rewrite split_app, split_app, split_without by (by apply contains_digits).
    cbn [rmap rbind]. rewrite !int_digits; try done.
    - intros E. by rewrite E in HSlen.
    - intros E. by rewrite E in HMlen. }
  assert (length (split ":" base) = 3%nat) as Hlen3.
  { unfold base.
    replace (H ++ t{":"} ++ M ++ t{":"} ++ S)
      with (H ++ ":"%char :: (M ++ ":"%char :: S)) by done.
    by rewrite split_app, split_app, split_without
      by (by apply contains_digits). }
  assert (_mp4chaps_timestamp start_ms
          = match ms with [] => base | _ => base ++ t{"."} ++ ms end) as Hts.
  { unfold _mp4chaps_timestamp, rsplit1. cbv zeta.
    rewrite Hfmt, rpartition_app by (by apply contains_digits). done. }
  assert ((seconds_of [value H; value M; value S]) * 1000 + value F
          = start_ms) as Hsum.
  { cbn [seconds_of]. rewrite HHv, HMv, HSv, HFv.
    Z.to_euclidean_division_equations; lia. }
  rewrite Hts, Hfmt. destruct ms as [|m ms'] eqn:Ems.
  - cbn [app] in HFz. subst zeros.
    assert (value F = 0) as HF0 by (by apply Hnil).
    split_and!.
    + rewrite (parse_timestamp_segments base [] base 0 Hnodot) by (by left).
      rewrite Hlen3, Hparts. rewrite bool_decide_eq_true_2 by lia.
      cbn [rbind]. f_equal. lia.
    + exists ("."%char :: F). split; [done|]. constructor; [by right|].
      eapply Forall_impl; [done|]. by left.
    + by rewrite <- HFv.
    + by rewrite Hnodot.
  - assert (contains "." (base ++ t{"."} ++ m :: ms') = true) as Hdot.
    { rewrite contains_app. cbn. by rewrite orb_true_r. }
    split_and!.
    + rewrite (parse_timestamp_segments base (m :: ms')
                 (base ++ t{"."} ++ m :: ms') (fraction_ms (m :: ms')) Hnodot)
        by (right; by split_and!).
      rewrite Hlen3, Hparts. rewrite bool_decide_eq_true_2 by lia.
      cbn [rbind]. f_equal. rewrite Hv. lia.
    + exists zeros. split.
      * rewrite HFz. cbn. by rewrite <- !app_assoc.
      * eapply Forall_impl; [done|]. by left.
    + rewrite Hdot. split; [done|]. intros Hmod.
      rewrite <- HFv in Hmod. by apply Hnil in Hmod.
    + intros _.
      assert (last (base ++ t{"."} ++ m :: ms') = last (m :: ms')) as ->.
      { rewrite app_assoc. change (m :: ms') with ([m] ++ ms').
        rewrite app_assoc, last_app. destruct (last ms') eqn:E; [|].
        - by rewrite last_app, E.
        - apply last_None in E. subst ms'. by rewrite app_nil_r, !last_snoc. }
      done.
Qed.

(** X12: the timestamp written for mp4chaps is the formatted start without
    the trailing zeros of its milliseconds, and without the dot when no
    digit is left; for a start that is not negative [_parse_timestamp] reads
    it back as the same number of milliseconds. *)
Theorem mp4chaps_timestamp_roundtrip start_ms :
  0 <= start_ms ->
  _parse_timestamp (_mp4chaps_timestamp start_ms) = Ok start_ms
  /\ (exists dropped,
        format_timestamp start_ms = _mp4chaps_timestamp start_ms ++ dropped
        /\ Forall (fun c => c = "0"%char \/ c = "."%char) dropped)
  /\ (contains "." (_mp4chaps_timestamp start_ms) = false
      <-> start_ms mod 1000 = 0)
  /\ (contains "." (_mp4chaps_timestamp start_ms) = true ->
      last (_mp4chaps_timestamp start_ms) <> Some "0"%char
      /\ last (_mp4chaps_timestamp start_ms) <> Some "."%char).
Proof.
  intros Hstart.
  destruct (mp4chaps_timestamp_run start_ms Hstart)
    as (Hparse & Hdropped & Hwhole & Hlast).
  by split_and!.
Qed.

Lemma mp4chaps_timestamp_roundtrip_witness :
  _mp4chaps_timestamp 3723500 = t{"01:02:03.5"}
  /\ _parse_timestamp t{"01:02:03.5"} = Ok 3723500.
Proof.
  split; [by vm_compute|].
  change t{"01:02:03.5"} with (_mp4chaps_timestamp 3723500).
  apply (mp4chaps_timestamp_roundtrip 3723500). lia.
Defined.


Lemma contains_false sep s :
  contains sep s = false <-> Forall (fun c => c <> sep) s.
Proof.
  unfold contains. induction s as [|c s IH]; cbn; [by split; [constructor|]|].
  rewrite Forall_cons, <- IH, orb_false_iff.
  destruct (Ascii.eqb_spec sep c); split; intros [? ?]; split; try done;
    congruence.
Qed.



End Mp4ChapsTimestamp.
(** ** The name of the output file *)

Section OutputFilename.

Import M4BCreator.



Lemma filter_all {A} (p : A -> bool) (s : list A) :
  Forall (fun c => p c = true) s -> List.filter p s = s.
Proof. induction 1 as [|c s Hc _ IH]; cbn; [done|]. by rewrite Hc, IH. Qed.

Lemma last_app_nonempty {A} (l1 l2 : list A) :
  l2 <> [] -> last (l1 ++ l2) = last l2.
Proof.
  intros Hne. rewrite last_app. destruct (last l2) eqn:E; [done|].
  by apply last_None in E.
Qed.


Lemma words_are_words s : Forall is_word (words s).
Proof.
  induction s as [|c s IH]; cbn [words]; [constructor|].
  destruct (is_space c) eqn:Hc; [done|].
  destruct s as [|c' s']; [by repeat constructor|].
  destruct (is_space c') eqn:Hc'.
  - constructor; [|done]. by repeat constructor.
  - destruct (words (c' :: s')) as [|w ws]; [by repeat constructor|].
    inversion IH as [|? ? [Hw1 Hw2] Hws]; subst.
    constructor; [|done]. split; [done|]. by constructor.
Qed.

Lemma concat_words s :
  concat (words s) = List.filter (fun c => negb (is_space c)) s.
Proof.
  induction s as [|c s IH]; cbn [words]; [done|].
  cbn [List.filter]. destruct (is_space c) eqn:Hc; cbn [negb]; [done|].
  destruct s as [|c' s']; [done|].
  destruct (is_space c') eqn:Hc'.
  - cbn [concat app]. by rewrite IH.
  - destruct (words (c' :: s')) as [|w ws]; cbn [concat app] in *;
      by rewrite <- IH.
Qed.

Lemma join_cons sep w ws :
  join sep (w :: ws) = match ws with [] => w | _ => w ++ sep ++ join sep ws end.
Proof. by destruct ws. Qed.

(** Words joined by single blanks. *)
Lemma join_words ws :
  Forall is_word ws ->
  let s := join t{" "} ws in
  List.filter (fun c => negb (is_space c)) s = concat ws
  /\ Forall (fun c => is_space c = true -> c = " "%char) s
  /\ (forall i, s !! i = Some " "%char ->
        (exists c, s !! S i = Some c /\ is_space c = false)
        /\ (exists j c, i = S j /\ s !! j = Some c /\ is_space c = false))
  /\ (s <> [] -> exists c, head s = Some c /\ is_space c = false)
  /\ last s = last (concat ws).
Proof.
  induction 1 as [|w ws [Hne Hw] Hws IH]; [by split_and!|].
  cbv zeta. rewrite join_cons. destruct ws as [|w' ws].
  - cbn [concat]. rewrite app_nil_r. split_and!.
    + apply filter_all. eapply Forall_impl; [done|]. cbn. by intros c ->.
    + eapply Forall_impl; [done|]. cbn. congruence.
    + intros i Hi. apply (Forall_lookup_1 _ _ _ _ Hw) in Hi. done.
    + intros _. destruct w as [|c w]; [done|]. exists c. split; [done|].
      by inversion Hw.
    + done.
  - cbv zeta in IH. destruct IH as (IHf & IHs & IHi & IHh & IHl).
    set (rest := join t{" "} (w' :: ws)) in *.
    assert (rest <> []) as Hrest.
    { unfold rest. rewrite join_cons. inversion Hws as [|? ? [Hw' _] _]; subst.
      destruct ws; [done|]. by destruct w'. }
    destruct (IHh Hrest) as (h & Hh & Hhs).
    destruct rest as [|h' rest'] eqn:Erest; [done|]. cbn in Hh.
    injection Hh as ->.
    assert (exists l, last w = Some l /\ is_space l = false) as (l & Hl & Hls).
    { destruct (last w) as [l|] eqn:El; [|by apply last_None in El].
      exists l. split; [done|].
      apply last_Some in El as [w0 ->]. apply Forall_app in Hw as [_ Hw].
      by inversion Hw. }
    split_and!.
    + rewrite !List.filter_app, IHf. cbn [concat].
      f_equal. apply filter_all. eapply Forall_impl; [done|]. cbn.
      by intros c ->.
    + apply Forall_app. split; [eapply Forall_impl; [done|]; cbn; congruence|].
      apply Forall_app. split; [by repeat constructor|done].
    + intros i Hi. unfold text in *.
      destruct (decide (i < length w)%nat) as [Hlt|Hge].
      { rewrite lookup_app_l in Hi by done.
        apply (Forall_lookup_1 _ _ _ _ Hw) in Hi. done. }
      destruct (decide (i = length w)) as [->|Hne'].
      { split.
        - exists h. split; [|done]. rewrite lookup_app_r by lia.
          by replace (S (length w) - length w)%nat with 1%nat by lia.
        - apply last_Some in Hl as [w0 ->]. rewrite length_app. cbn.
          exists (length w0), l. split; [lia|]. split; [|done].
          rewrite <- app_assoc. by apply list_lookup_middle. }
      rewrite lookup_app_r in Hi by lia.
      destruct (i - length w)%nat as [|k] eqn:Ek; [lia|]. cbn in Hi.
      destruct (IHi k Hi) as [(c & Hc & Hcs) (j & c' & -> & Hj & Hjs)].
      split.
      * exists c. split; [|done]. rewrite lookup_app_r by lia.
        by replace (S i - length w)%nat with (S (S (S j))) by lia.
      * exists (i - 1)%nat, c'. split; [lia|]. split; [|done].
        rewrite lookup_app_r by lia.
        by replace (i - 1 - length w)%nat with (S j) by lia.
    + intros _. destruct w as [|c w]; [done|]. exists c. split; [done|].
      by inversion Hw.
    + inversion Hws as [|? ? [Hw' _] Hws']; subst.
      rewrite app_assoc, (last_app_nonempty _ (h :: rest')) by done.
      rewrite IHl. change (concat (w :: w' :: ws)) with (w ++ concat (w' :: ws)).
      rewrite last_app_nonempty; [done|]. cbn [concat]. by destruct w'.
Qed.


End OutputFilename.
(** ** The ffmpeg command *)

Section FfmpegCommand.

Import ChapterManager M4BCreator.

Lemma following_skip flag a b rest :
  a <> flag -> following flag (a :: b :: rest) = following flag (b :: rest).
Proof. intros Ha. cbn [following]. by rewrite bool_decide_eq_false_2. Qed.

Lemma following_skip_both flag a b rest :
  a <> flag -> b <> flag ->
  following flag (a :: b :: rest) = following flag rest.
Proof.
  intros Ha Hb. rewrite following_skip by done.
  destruct rest as [|c rest]; [done|]. by rewrite following_skip.
Qed.

Lemma following_take flag b rest :
  following flag (flag :: b :: rest) = b :: following flag rest.
Proof. cbn [following]. by rewrite bool_decide_eq_true_2. Qed.

(** The two tags of a chapter. *)
Lemma chapter_tags cmd (cs : list Chapter.t) start :
  foldl (fun cmd '(i, chapter) =>
           let chapter_str := _format_chapter_mdta i chapter in
           (cmd ++ [t{"-metadata"};
                    t{"chapter"} ++ PyInt.str i ++ t{"="} ++ chapter_str])
           ++ [t{"-metadata"};
               [chr 169] ++ t{"chp"} ++ PyInt.str i ++ t{"="} ++ chapter_str])
    cmd (enumerate start cs)
  = cmd ++ mdta_arguments (enumerate start cs).
Proof.
  unfold mdta_arguments.
  revert cmd start. induction cs as [|c cs IH]; intros cmd start;
    cbn [enumerate foldl map concat].
  - by rewrite app_nil_r.
  - rewrite IH. cbv zeta. unfold mdta_tag. by rewrite <- !app_assoc.
Qed.

Lemma mdta_arguments_cons i chapter numbered rest :
  mdta_arguments ((i, chapter) :: numbered) ++ rest
  = t{"-metadata"} :: mdta_tag t{"chapter"} i chapter
    :: t{"-metadata"} :: mdta_tag ([chr 169] ++ t{"chp"}) i chapter
    :: (mdta_arguments numbered ++ rest).
Proof. done. Qed.

Lemma run_ffmpeg_cmd_parts concat_file metadata_file cover_file output_path
    chapter_manager :
  _run_ffmpeg_cmd concat_file metadata_file cover_file output_path
    chapter_manager
  = [t{"ffmpeg"}; t{"-f"}; t{"concat"}; t{"-safe"}; t{"0"}; t{"-i"};
     concat_file]
    ++ match cover_file with Some cover => [t{"-i"}; cover] | None => [] end
    ++ [t{"-i"}; metadata_file; t{"-map"}; t{"0:a"}]
    ++ match cover_file with
       | Some _ =>
           [t{"-map"}; t{"1:v"}; t{"-disposition:v:0"}; t{"attached_pic"}]
       | None => []
       end
    ++ [t{"-map_metadata"}; t{"2"}]
    ++ mdta_arguments (enumerate 1 (chapters chapter_manager))
    ++ [t{"-c:a"}; t{"copy"}]
    ++ match cover_file with Some _ => [t{"-c:v"}; t{"copy"}] | None => [] end
    ++ [t{"-f"}; t{"mp4"}; t{"-y"}; output_path].
Proof.
  unfold _run_ffmpeg_cmd. cbv zeta. rewrite chapter_tags.
  destruct cover_file; by rewrite <- ?app_assoc.
Qed.

Lemma following_tags flag (cs : list (Z * Chapter.t)) rest :
  head flag = Some "-"%char -> flag <> t{"-metadata"} ->
  following flag
    (mdta_arguments cs ++ rest)
  = following flag rest.
Proof.
  intros Hdash Hflag. induction cs as [|[i c] cs IH]; [done|].
  rewrite mdta_arguments_cons, !following_skip_both; try done.
  all: intros <-; done.
Qed.

Lemma following_metadata_tags (cs : list (Z * Chapter.t)) rest :
  following t{"-metadata"}
    (mdta_arguments cs ++ rest)
  = concat (map (fun '(i, chapter) =>
                   [mdta_tag t{"chapter"} i chapter;
                    mdta_tag ([chr 169] ++ t{"chp"}) i chapter]) cs)
    ++ following t{"-metadata"} rest.
Proof.
  induction cs as [|[i c] cs IH]; [done|].
  by rewrite mdta_arguments_cons, !following_take, IH.
Qed.

Lemma following_skip_app flag a xs r rest :
  a <> flag ->
  following flag (a :: xs ++ r :: rest) = following flag (xs ++ r :: rest).
Proof. intros Ha. destruct xs; by apply following_skip. Qed.

Ltac scan :=
  repeat first
    [ rewrite following_take
    | rewrite following_skip by first [assumption | by vm_compute]
    | rewrite following_skip_app by first [assumption | by vm_compute]
    | rewrite following_tags by done ].

(** X15: in the command, the files named as inputs are the concat file,
    the cover when there is one, and the metadata file, in this order; the
    option [-map_metadata] is given once, with the index 2.  So the metadata
    file is input 2 exactly when a cover is given: without a cover it is
    input 1, and there is no input 2. *)
Theorem run_ffmpeg_metadata_input concat_file metadata_file cover_file
    output_path chapter_manager :
  let cmd :=
    _run_ffmpeg_cmd concat_file metadata_file cover_file output_path
      chapter_manager in
  Forall (fun path => head path <> Some "-"%char)
    (concat_file :: metadata_file :: option_list cover_file) ->
  following t{"-i"} cmd
  = concat_file :: option_list cover_file ++ [metadata_file]
  /\ following t{"-map_metadata"} cmd = [t{"2"}]
  /\ (following t{"-i"} cmd !! 2%nat = Some metadata_file
      <-> is_Some cover_file).
Proof.
  intros cmd Hpaths. subst cmd. rewrite run_ffmpeg_cmd_parts.
  inversion Hpaths as [|? ? Hc Hpaths']; subst.
  inversion Hpaths' as [|? ? Hm Hcover]; subst.
  assert (concat_file <> t{"-map_metadata"}) by (by intros ->).
  assert (metadata_file <> t{"-map_metadata"}) by (by intros ->).
  destruct cover_file as [cover|]; cbn [app option_list].
  - inversion Hcover as [|? ? Hcv _]; subst.
    assert (cover <> t{"-map_metadata"}) by (by intros ->).
    split_and!.
    + by scan.
    + by scan.
    + scan. cbn. split; [by eexists|done].
  - split_and!.
    + by scan.
    + by scan.
    + scan. cbn. split; [done|]. by intros [? ?].
Qed.

Lemma run_ffmpeg_metadata_input_witness :
  following t{"-i"}
    (_run_ffmpeg_cmd t{"/tmp/concat.txt"} t{"/tmp/metadata.txt"} None
       t{"/out/book.m4b"} (mk [Chapter.mk t{"Intro"} 0 None None] []))
  = [t{"/tmp/concat.txt"}; t{"/tmp/metadata.txt"}]
  /\ following t{"-map_metadata"}
       (_run_ffmpeg_cmd t{"/tmp/concat.txt"} t{"/tmp/metadata.txt"} None
          t{"/out/book.m4b"} (mk [Chapter.mk t{"Intro"} 0 None None] []))
     = [t{"2"}].
Proof.
  destruct (run_ffmpeg_metadata_input t{"/tmp/concat.txt"}
              t{"/tmp/metadata.txt"} None t{"/out/book.m4b"}
              (mk [Chapter.mk t{"Intro"} 0 None None] []))
    as (Hi & Hm & _).
  - by repeat constructor.
  - by split.
Defined.

Lemma tags_lookup start (cs : list Chapter.t) k c :
  cs !! k = Some c ->
  let tags :=
    concat (map (fun '(i, chapter) =>
                   [mdta_tag t{"chapter"} i chapter;
                    mdta_tag ([chr 169] ++ t{"chp"}) i chapter])
              (enumerate start cs)) in
  tags !! (2 * k)%nat = Some (mdta_tag t{"chapter"} (start + Z.of_nat k) c)
  /\ tags !! S (2 * k)
     = Some (mdta_tag ([chr 169] ++ t{"chp"}) (start + Z.of_nat k) c).
Proof.
  revert start k. induction cs as [|c' cs IH]; intros start k Hk; [done|].
  destruct k as [|k].
  - cbn in Hk. injection Hk as ->. cbn. by rewrite Z.add_0_r.
  - cbn in Hk. destruct (IH (start + 1) k Hk) as [H1 H2].
    replace (2 * S k)%nat with (S (S (2 * k))) by lia.
    replace (start + Z.of_nat (S k)) with (start + 1 + Z.of_nat k) by lia.
    by split.
Qed.

Lemma tags_length start (cs : list Chapter.t) :
  length (concat (map (fun '(i, chapter) =>
                         [mdta_tag t{"chapter"} i chapter;
                          mdta_tag ([chr 169] ++ t{"chp"}) i chapter])
                    (enumerate start cs)))
  = (2 * length cs)%nat.
Proof.
  revert start. induction cs as [|c cs IH]; intros start; [done|].
  cbn [enumerate map concat length app]. rewrite IH. lia.
Qed.

(** X16: the command gives two tags for each chapter, in the order of the
    chapters and numbered from 1: the key [chapter] and the key of the
    copyright sign followed by [chp], both with the number of the chapter and
    both with the same value, the chapter in the MDTA form under that
    number; it gives no other tag. *)
Theorem run_ffmpeg_chapter_tags concat_file metadata_file cover_file
    output_path chapter_manager :
  let tags :=
    following t{"-metadata"}
      (_run_ffmpeg_cmd concat_file metadata_file cover_file output_path
         chapter_manager) in
  Forall (fun path => head path <> Some "-"%char)
    (concat_file :: metadata_file :: option_list cover_file) ->
  length tags = (2 * length (chapters chapter_manager))%nat
  /\ (forall k chapter,
        chapters chapter_manager !! k = Some chapter ->
        let value := _format_chapter_mdta (Z.of_nat k + 1) chapter in
        tags !! (2 * k)%nat
        = Some (t{"chapter"} ++ PyInt.str (Z.of_nat k + 1) ++ t{"="} ++ value)
        /\ tags !! S (2 * k)
           = Some ([chr 169] ++ t{"chp"} ++ PyInt.str (Z.of_nat k + 1)
                   ++ t{"="} ++ value)).
Proof.
  intros tags Hpaths. subst tags. rewrite run_ffmpeg_cmd_parts.
  inversion Hpaths as [|? ? Hc Hpaths']; subst.
  inversion Hpaths' as [|? ? Hm Hcover]; subst.
  assert (concat_file <> t{"-metadata"}) by (by intros ->).
  assert (metadata_file <> t{"-metadata"}) by (by intros ->).
  assert (following t{"-metadata"}
            ([t{"ffmpeg"}; t{"-f"}; t{"concat"}; t{"-safe"}; t{"0"};
              t{"-i"}; concat_file]
             ++ match cover_file with
                | Some cover => [t{"-i"}; cover]
                | None => []
                end
             ++ [t{"-i"}; metadata_file; t{"-map"}; t{"0:a"}]
             ++ match cover_file with
                | Some _ =>
                    [t{"-map"}; t{"1:v"}; t{"-disposition:v:0"};
                     t{"attached_pic"}]
                | None => []
                end
             ++ [t{"-map_metadata"}; t{"2"}]
             ++ mdta_arguments (enumerate 1 (chapters chapter_manager))
             ++ [t{"-c:a"}; t{"copy"}]
             ++ match cover_file with
                | Some _ => [t{"-c:v"}; t{"copy"}]
                | None => []
                end
             ++ [t{"-f"}; t{"mp4"}; t{"-y"}; output_path])
          = concat (map (fun '(i, chapter) =>
                           [mdta_tag t{"chapter"} i chapter;
                            mdta_tag ([chr 169] ++ t{"chp"}) i chapter])
                      (enumerate 1 (chapters chapter_manager)))) as ->.
  { destruct cover_file as [cover|]; cbn [app option_list].
    - inversion Hcover as [|? ? Hcv _]; subst.
      assert (cover <> t{"-metadata"}) by (by intros ->).
      scan. rewrite following_metadata_tags. scan. by rewrite app_nil_r.
    - scan. rewrite following_metadata_tags. scan. by rewrite app_nil_r. }
  split; [apply tags_length|].
  intros k chapter Hk value. subst value.
  destruct (tags_lookup 1 _ _ _ Hk) as [H1 H2].
  replace (1 + Z.of_nat k) with (Z.of_nat k + 1) in H1, H2 by lia.
  split.
  - etrans; [exact H1|]. done.
  - etrans; [exact H2|]. unfold mdta_tag. by rewrite <- !app_assoc.
Qed.

Lemma run_ffmpeg_chapter_tags_witness :
  following t{"-metadata"}
    (_run_ffmpeg_cmd t{"/tmp/concat.txt"} t{"/tmp/metadata.txt"}
       (Some t{"/tmp/cover.jpg"}) t{"/out/book.m4b"}
       (mk [Chapter.mk t{"Intro"} 0 None None] []))
  !! 0%nat
  = Some t{"chapter1=Menu 1# _00_00_00_000: Intro"}.
Proof.
  destruct (run_ffmpeg_chapter_tags t{"/tmp/concat.txt"}
              t{"/tmp/metadata.txt"} (Some t{"/tmp/cover.jpg"})
              t{"/out/book.m4b"}
              (mk [Chapter.mk t{"Intro"} 0 None None] []))
    as (_ & Htags).
  - by repeat constructor.
  - destruct (Htags 0%nat (Chapter.mk t{"Intro"} 0 None None) eq_refl)
      as [H1 _].
    exact H1.
Defined.

End FfmpegCommand.
(** ** The metadata file *)

Section MetadataFile.

Import ChapterManager M4BCreator.

Lemma unlines_app a b : unlines (a ++ b) = unlines a ++ unlines b.
Proof. unfold unlines. by rewrite map_app, concat_app. Qed.

Lemma unlines_cons l lines : unlines (l :: lines) = l ++ [nl] ++ unlines lines.
Proof. unfold unlines, line. cbn [map concat]. by rewrite <- app_assoc. Qed.

Lemma unlines_nil : unlines [] = [].
Proof. done. Qed.

Lemma split_unlines lines :
  Forall (fun l => contains nl l = false) lines ->
  split nl (unlines lines) = lines ++ [[]].
Proof.
  induction 1 as [|l lines Hl _ IH]; [done|].
  unfold unlines in *. cbn [map concat]. unfold line at 1.
  rewrite <- app_assoc. cbn [app]. by rewrite split_app, IH.
Qed.

Lemma str_negative n : n < 0 -> PyInt.str n = "-"%char :: PyInt.str (- n).
Proof. destruct n as [|p|p]; try lia. intros _. done. Qed.

Lemma str_one_line n : contains nl (PyInt.str n) = false.
Proof.
  destruct (Z.lt_ge_cases n 0) as [Hn|Hn].
  - rewrite str_negative by done. cbn.
    apply contains_digits; [done|]. apply str_nonneg. lia.
  - apply contains_digits; [done|]. by apply str_nonneg.
Qed.

Lemma replace_app old new a b :
  replace old new (a ++ b) = replace old new a ++ replace old new b.
Proof.
  induction a as [|c a IH]; [done|]. cbn [app replace].
  by rewrite IH, app_assoc.
Qed.

Lemma sanitise_replace s :
  replace ";" t{","} (replace nl t{" "} s) = map sanitise s.
Proof.
  induction s as [|c s IH]; [done|].
  cbn [replace map]. rewrite replace_app, IH. f_equal.
  unfold sanitise. destruct (Ascii.eqb c nl) eqn:E1; [done|].
  cbn [replace]. by destruct (Ascii.eqb c ";").
Qed.

Lemma sanitise_one_line s : contains nl (map sanitise s) = false.
Proof.
  apply contains_false, Forall_forall. intros c Hc.
  apply list_elem_of_fmap in Hc as (x & -> & _). unfold sanitise.
  destruct (Ascii.eqb_spec x nl); [done|].
  by destruct (Ascii.eqb_spec x ";").
Qed.

Lemma join_one_line sep pieces :
  contains nl sep = false ->
  Forall (fun p => contains nl p = false) pieces ->
  contains nl (join sep pieces) = false.
Proof.
  intros Hsep. induction 1 as [|p ps Hp _ IH]; [done|].
  rewrite join_cons. destruct ps; [done|].
  by rewrite !contains_app, Hp, Hsep, IH.
Qed.

Lemma chapters_loop content cs :
  foldl (fun content chapter =>
           (content ++ Chapter.to_ffmpeg_format chapter) ++ [nl])
    content cs
  = content ++ unlines (concat (map (fun c => chapter_lines c ++ [[]]) cs)).
Proof.
  revert content. induction cs as [|c cs IH]; intros content.
  - cbn. by rewrite app_nil_r.
  - cbn [foldl map concat]. rewrite IH, unlines_app, to_ffmpeg_format_block.
    assert (unlines (chapter_lines c ++ [[]]) = chapter_block c ++ [nl]) as ->.
    { unfold unlines, chapter_block, chapter_lines, line.
      cbn [map concat app]. by rewrite <- !app_assoc. }
    by rewrite <- !app_assoc.
Qed.

(** The file as a sequence of lines. *)
Lemma create_metadata_file_unlines chapter_manager metadata narrator :
  _create_metadata_file chapter_manager metadata narrator
  = unlines (book_lines metadata narrator ++ [[]]
             ++ concat (map (fun c => chapter_lines c ++ [[]])
                          (chapters chapter_manager))).
Proof.
  unfold _create_metadata_file. cbv zeta. rewrite chapters_loop.
  unfold book_lines, text_truthy, Chapter.truthy.
  destruct (BookMetadata.authors metadata) as [|a authors];
    destruct narrator as [[|n narrator]|];
    destruct (BookMetadata.publication_year metadata) as [year|];
    try destruct (year =? 0);
    destruct (BookMetadata.description metadata) as [[|d description]|];
    cbn [negb default from_option id];
    rewrite ?sanitise_replace, ?unlines_app, ?unlines_cons, ?unlines_nil;
    rewrite <- ?app_assoc; rewrite ?app_nil_r, ?app_nil_l; done.
Qed.

Lemma book_lines_one_line metadata narrator :
  contains nl (BookMetadata.title metadata) = false ->
  Forall (fun author => contains nl author = false)
    (BookMetadata.authors metadata) ->
  (forall name, narrator = Some name -> contains nl name = false) ->
  Forall (fun l => contains nl l = false) (book_lines metadata narrator).
Proof.
  intros Htitle Hauthors Hnarrator. unfold book_lines.
  pose proof (join_one_line t{", "} _ eq_refl Hauthors) as Hjoin.
  repeat (apply Forall_app; split).
  - repeat constructor. by rewrite contains_app, Htitle.
  - destruct (BookMetadata.authors metadata); [constructor|].
    repeat constructor; by rewrite contains_app, Hjoin.
  - repeat constructor. by rewrite contains_app, Htitle.
  - destruct narrator as [[|c name]|]; try constructor; [|constructor].
    by rewrite contains_app, (Hnarrator (c :: name)).
  - destruct (BookMetadata.publication_year metadata) as [year|];
      [|constructor].
    destruct (year =? 0); repeat constructor.
    by rewrite contains_app, str_one_line.
  - destruct (BookMetadata.description metadata) as [[|c d]|];
      try constructor; [|constructor].
    by rewrite contains_app, sanitise_one_line.
  - by repeat constructor.
Qed.

Lemma chapter_lines_one_line cs :
  Forall (fun c => contains nl (Chapter.title c) = false) cs ->
  Forall (fun l => contains nl l = false)
    (concat (map (fun c => chapter_lines c ++ [[]]) cs)).
Proof.
  induction 1 as [|c cs Hc _ IH]; [constructor|].
  cbn [map concat]. apply Forall_app. split; [|done].
  unfold chapter_lines. repeat constructor;
    by rewrite ?contains_app, ?str_one_line, ?Hc.
Qed.

(** X17: when neither the title of the book, nor an author, nor the
    narrator, nor the title of a chapter holds a newline, the metadata file
    has these lines and no other: the header line and the title; the two
    artist lines when there is an author; the album; the composer when a
    narrator is given and not empty; the date when a year is given and not
    0; the comment when a description is given and not empty, which is the
    description with every newline replaced by a blank and every semicolon
    by a comma, so one line whatever the description; the genre and an
    empty line; then for each chapter its five lines and an empty line. *)
Theorem create_metadata_file_lines chapter_manager metadata narrator :
  contains nl (BookMetadata.title metadata) = false ->
  Forall (fun author => contains nl author = false)
    (BookMetadata.authors metadata) ->
  (forall name, narrator = Some name -> contains nl name = false) ->
  Forall (fun c => contains nl (Chapter.title c) = false)
    (chapters chapter_manager) ->
  split nl (_create_metadata_file chapter_manager metadata narrator)
  = book_lines metadata narrator ++ [[]]
    ++ concat (map (fun c => chapter_lines c ++ [[]])
                 (chapters chapter_manager))
    ++ [[]].
Proof.
  intros Htitle Hauthors Hnarrator Hchapters.
  rewrite create_metadata_file_unlines, split_unlines.
  - by rewrite <- !app_assoc.
  - apply Forall_app. split; [by apply book_lines_one_line|].
    apply Forall_app. split; [by repeat constructor|].
    by apply chapter_lines_one_line.
Qed.

Lemma create_metadata_file_lines_witness :
  split nl
    (_create_metadata_file
       (mk [Chapter.mk t{"Intro"} 0 (Some 1500) None] [])
       (BookMetadata.mk t{"Emma"} [t{"Jane Austen"}]
          (Some (t{"A novel;"} ++ [nl] ++ t{"in three volumes"}))
          None (Some 0) None None None None)
       (Some []))
  = [t{";FFMETADATA1"}; t{"title=Emma"}; t{"artist=Jane Austen"};
     t{"album_artist=Jane Austen"}; t{"album=Emma"};
     t{"comment=A novel, in three volumes"}; t{"genre=Audiobook"}; [];
     t{"[CHAPTER]"}; t{"TIMEBASE=1/1000"}; t{"START=0"}; t{"END=1500"};
     t{"title=Intro"}; []; []].
Proof.
  rewrite (create_metadata_file_lines
             (mk [Chapter.mk t{"Intro"} 0 (Some 1500) None] [])
             (BookMetadata.mk t{"Emma"} [t{"Jane Austen"}]
                (Some (t{"A novel;"} ++ [nl] ++ t{"in three volumes"}))
                None (Some 0) None None None None)
             (Some [])).
  - by vm_compute.
  - by vm_compute.
  - by repeat constructor.
  - by intros name [= <-].
  - by repeat constructor.
Defined.

End MetadataFile.
(** ** The shape of a normalised title *)

Section TitleShape.

Import Chapter.

Ltac by_cases_on c :=
  destruct c as [[|] [|] [|] [|] [|] [|] [|] [|]]; vm_compute;
  try reflexivity; try discriminate; auto.

Lemma space_not_t c :
  is_space c = true -> Ascii.eqb (lower c) (lower "t") = false.
Proof. by_cases_on c. Qed.

Lemma lstrip_nil s : lstrip s = [] <-> Forall (fun c => is_space c = true) s.
Proof.
  induction s as [|c s IH]; cbn [lstrip]; [by split; [constructor|]|].
  destruct (is_space c) eqn:Hc.
  - rewrite IH. split; [by constructor|]. by inversion 1.
  - split; [done|]. inversion 1; subst. congruence.
Qed.

Lemma lstrip_head s c s' : lstrip s = c :: s' -> is_space c = false.
Proof.
  induction s as [|x s IH]; cbn [lstrip]; [done|].
  destruct (is_space x) eqn:Hx; [done|]. by intros [= <- _].
Qed.

Lemma lstrip_app a b :
  lstrip (a ++ b)
  = match lstrip a with [] => lstrip b | r => r ++ b end.
Proof.
  induction a as [|c a IH]; cbn [app lstrip]; [done|].
  by destruct (is_space c).
Qed.

Lemma rstrip_cons c s :
  rstrip (c :: s)
  = match rstrip s with
    | [] => if is_space c then [] else [c]
    | r => c :: r
    end.
Proof.
  unfold rstrip. cbn [rev]. rewrite lstrip_app.
  destruct (lstrip (rev s)) as [|x r] eqn:E.
  - cbn. by destruct (is_space c).
  - rewrite rev_app_distr. change (rev [c]) with [c].
    destruct (rev (x :: r)) as [|y r'] eqn:E'; [|done].
    apply (f_equal (@length _)) in E'. by rewrite length_rev in E'.
Qed.

Lemma rstrip_nil s : rstrip s = [] <-> Forall (fun c => is_space c = true) s.
Proof.
  induction s as [|c s IH]; [by split; [constructor|]|].
  rewrite rstrip_cons. destruct (rstrip s) as [|x r] eqn:E.
  - destruct (is_space c) eqn:Hc.
    + split; [|done]. intros _. constructor; [done|]. by apply IH.
    + split; [done|]. inversion 1; congruence.
  - split; [done|]. inversion 1 as [|? ? _ Hs]; subst. by apply IH in Hs.
Qed.

Lemma strip_nil s : strip s = [] <-> Forall (fun c => is_space c = true) s.
Proof.
  unfold strip. rewrite rstrip_nil. split.
  - intros H. apply lstrip_nil. destruct (lstrip s) as [|c r] eqn:E; [done|].
    apply lstrip_head in E. inversion H; congruence.
  - intros H. apply lstrip_nil in H. rewrite H. constructor.
Qed.

(** A text that [strip] returns is blank only when it is empty. *)
Lemma strip_strip_nil s : strip (strip s) = [] -> strip s = [].
Proof.
  intros H. apply strip_nil in H. unfold strip in *.
  destruct (lstrip s) as [|c r] eqn:E; [done|].
  pose proof (lstrip_head _ _ _ E) as Hc.
  rewrite rstrip_cons in *. destruct (rstrip r).
  - rewrite Hc in *. inversion H; congruence.
  - inversion H; congruence.
Qed.

Lemma join_words_nil s : join t{" "} (words s) = [] <-> words s = [].
Proof.
  split; [|by intros ->].
  pose proof (words_are_words s) as Hw.
  destruct (words s) as [|w ws]; [done|]. rewrite join_cons.
  inversion Hw as [|? ? [Hne _] _]; subst.
  destruct ws; destruct w; done.
Qed.

Lemma join_words_cons c s :
  join t{" "} (words (c :: s))
  = if is_space c then join t{" "} (words s)
    else c :: match s with
              | [] => []
              | c' :: _ =>
                  if is_space c'
                  then match join t{" "} (words s) with
                       | [] => []
                       | r => " "%char :: r
                       end
                  else join t{" "} (words s)
              end.
Proof.
  cbn [words]. destruct (is_space c) eqn:Hc; [done|].
  destruct s as [|c' s']; [done|].
  destruct (is_space c') eqn:Hc'.
  - rewrite join_cons.
    destruct (words (c' :: s')) as [|w ws] eqn:E; [done|].
    destruct (join t{" "} (w :: ws)) eqn:E'; [|done].
    rewrite <- E in E'. apply join_words_nil in E'. congruence.
  - destruct (words (c' :: s')) as [|w ws] eqn:E.
    + exfalso. cbn [words] in E. rewrite Hc' in E.
      destruct s' as [|c'' s'']; [done|].
      destruct (is_space c''); [done|]. by destruct (words (c'' :: s'')).
    + rewrite !join_cons. by destruct ws.
Qed.

(** Collapsing the whitespace and trimming gives the words joined by
    single blanks. *)
Lemma rstrip_collapse s :
  rstrip (collapse is_space true s) = join t{" "} (words s)
  /\ rstrip (collapse is_space false s)
     = match s with
       | [] => []
       | c :: _ =>
           if is_space c
           then match join t{" "} (words s) with
                | [] => []
                | r => " "%char :: r
                end
           else join t{" "} (words s)
       end.
Proof.
  induction s as [|c s [IHt IHf]]; [done|].
  assert (rstrip (collapse is_space true (c :: s))
          = join t{" "} (words (c :: s))) as Ht.
  { rewrite join_words_cons. cbn [collapse].
    destruct (is_space c) eqn:Hc; [done|].
    rewrite rstrip_cons, IHf, Hc.
    destruct s as [|c' s']; [done|].
    by destruct (is_space c'); destruct (join t{" "} (words (c' :: s'))). }
  split; [done|].
  destruct (is_space c) eqn:Hc.
  - cbn [collapse]. rewrite Hc. rewrite rstrip_cons, IHt.
    rewrite join_words_cons, Hc.
    by destruct (join t{" "} (words s)).
  - rewrite <- Ht. cbn [collapse]. by rewrite Hc.
Qed.

Lemma lstrip_collapse s :
  lstrip (collapse is_space false s) = collapse is_space true s.
Proof.
  induction s as [|c s IH]; [done|].
  cbn [collapse]. destruct (is_space c) eqn:Hc; cbn [lstrip].
  - change (is_space " ") with true. cbn iota.
    clear IH. induction s as [|c' s IH]; [done|].
    cbn [collapse]. destruct (is_space c') eqn:Hc'; [done|].
    cbn [lstrip]. by rewrite Hc'.
  - by rewrite Hc.
Qed.

Lemma strip_collapse s :
  strip (collapse is_space false s) = join t{" "} (words s).
Proof. unfold strip. rewrite lstrip_collapse. apply rstrip_collapse. Qed.

Lemma light_cleanup_words s :
  light_cleanup s
  = join t{" "} (words (collapse (Ascii.eqb "_") false s)).
Proof. apply strip_collapse. Qed.

Lemma words_word w s :
  is_word w -> words (w ++ " "%char :: s) = w :: words s.
Proof.
  intros [Hne Hw]. induction Hw as [|c w Hc Hw IH]; [done|].
  cbn [app words]. rewrite Hc. destruct w as [|c' w'].
  - cbn [app]. change (is_space " ") with true. done.
  - cbn [app]. inversion Hw as [|? ? Hc' _]; subst. rewrite Hc'.
    cbn [app] in IH. by rewrite IH.
Qed.

Lemma words_one_word w : is_word w -> words w = [w].
Proof.
  intros [Hne Hw]. induction Hw as [|c w Hc Hw IH]; [done|].
  cbn [words]. rewrite Hc. destruct w as [|c' w']; [done|].
  inversion Hw as [|? ? Hc' _]; subst. rewrite Hc'. by rewrite IH.
Qed.

Lemma words_join ws : Forall is_word ws -> words (join t{" "} ws) = ws.
Proof.
  induction 1 as [|w ws Hw Hws IH]; [done|].
  rewrite join_cons. destruct ws as [|w' ws]; [by apply words_one_word|].
  change (w ++ t{" "} ++ join t{" "} (w' :: ws))
    with (w ++ " "%char :: join t{" "} (w' :: ws)).
  by rewrite words_word, IH.
Qed.

Lemma collapse_no_underscore in_run s :
  Forall (fun c => c <> "_"%char) (collapse (Ascii.eqb "_") in_run s).
Proof.
  revert in_run. induction s as [|c s IH]; intros in_run; [constructor|].
  cbn [collapse]. destruct (Ascii.eqb_spec "_" c) as [<-|Hc].
  - destruct in_run; [done|]. by constructor.
  - constructor; [congruence|done].
Qed.

Lemma collapse_without_underscore s :
  contains "_" s = false -> collapse (Ascii.eqb "_") false s = s.
Proof.
  unfold contains. induction s as [|c s IH]; [done|].
  cbn [existsb collapse]. intros [-> Hs]%orb_false_iff. by rewrite IH.
Qed.

Lemma light_cleanup_tidy s :
  let cleaned := light_cleanup s in
  join t{" "} (words cleaned) = cleaned /\ contains "_" cleaned = false.
Proof.
  cbv zeta. rewrite light_cleanup_words.
  set (z := collapse (Ascii.eqb "_") false s).
  pose proof (words_are_words z) as Hw.
  split; [by rewrite words_join|].
  destruct (join_words (words z) Hw) as (Hf & _).
  rewrite concat_words in Hf.
  apply contains_false, Forall_forall. intros c Hc ->.
  apply list_elem_of_In in Hc.
  assert (In "_"%char (List.filter (fun c => negb (is_space c))
                         (join t{" "} (words z)))) as Hin
    by (by apply filter_In).
  rewrite Hf in Hin. apply filter_In in Hin as [Hin _].
  apply list_elem_of_In in Hin.
  by apply (proj1 (Forall_forall _ _) (collapse_no_underscore false s)) in Hin.
Qed.

(** A title that is not blank is not normalised to a blank one. *)
Lemma clean_title_not_blank title :
  strip title <> [] -> strip (_clean_title title) <> [].
Proof.
  intros Hne. rewrite clean_title_steps. unfold or_original.
  destruct (light_cleanup _) as [|c r] eqn:E; [done|].
  rewrite <- E. unfold light_cleanup in *. intros H%strip_strip_nil.
  congruence.
Qed.

(** X18: the title that [_clean_title] returns is blank exactly when the
    title it is given is blank: a title with a character that is not
    whitespace is never normalised to a blank one, and a blank title is
    returned as it is. *)
Theorem clean_title_blank title :
  (strip (_clean_title title) = [] <-> strip title = [])
  /\ (strip title = [] -> _clean_title title = title).
Proof.
  assert (strip title = [] -> _clean_title title = title) as Hblank.
  { intros Hall%strip_nil. rewrite clean_title_steps.
    assert (contains "." title = false) as Hdot.
    { apply contains_false. eapply Forall_impl; [done|].
      intros c Hc ->. done. }
    assert (ends_with_audio_extension title = false) as Hext.
    { clear Hall. induction title as [|c title IH]; [done|].
      cbn [contains existsb] in Hdot.
      apply orb_false_iff in Hdot as [Hc Hdot].
      cbn [ends_with_audio_extension extension_at].
      rewrite Ascii.eqb_sym, Hc. by apply IH. }
    rewrite Hext, (strip_extension_without _ Hext).
    assert (begins_with_track_number title = false) as ->.
    { unfold begins_with_track_number, track_number_length.
      destruct Hall as [|c title Hc _]; [done|].
      assert (begins_with t{"track"} (c :: title) = false) as ->.
      { cbn [begins_with Text.of_string list_ascii_of_string].
        by rewrite (space_not_t c Hc). }
      cbn [drop run_length Nat.add]. rewrite (space_not_digit c Hc).
      done. }
    cbn [orb]. rewrite light_cleanup_words.
    rewrite collapse_without_underscore.
    - assert (words title = []) as ->; [|done].
      clear Hdot Hext. induction Hall as [|c title Hc _ IH]; [done|].
      cbn [words]. by rewrite Hc.
    - apply contains_false. eapply Forall_impl; [done|].
      intros c Hc ->. done. }
  split; [|done]. split; [|by intros H; rewrite Hblank].
  intros H. destruct (strip title) eqn:E; [done|].
  by apply clean_title_not_blank in H; [|rewrite E].
Qed.

(** X19: [_clean_title] returns the title as it is given, or a tidy text:
    one without an underscore, and equal to its own words joined by single
    blanks, so without whitespace at its ends and with one blank between two
    words. *)
Theorem clean_title_tidy title :
  _clean_title title = title
  \/ (_clean_title title <> []
      /\ join t{" "} (words (_clean_title title)) = _clean_title title
      /\ contains "_" (_clean_title title) = false).
Proof.
  rewrite clean_title_steps. unfold or_original.
  match goal with |- context [light_cleanup ?y] => set (inner := y) end.
  destruct (light_cleanup_tidy inner) as [Hj Hu].
  destruct (light_cleanup inner) eqn:E; [by left|right].
  by split_and!.
Qed.

(** X20: a tidy title that does not look like a file name is its own
    normal form: when it holds no underscore, equals its words joined by
    single blanks, does not end in a recognized audio extension and does not
    begin with a track number, [_clean_title] returns it unchanged. *)
Theorem clean_title_fixed_point title :
  contains "_" title = false ->
  join t{" "} (words title) = title ->
  ends_with_audio_extension title = false ->
  begins_with_track_number title = false ->
  _clean_title title = title.
Proof.
  intros Hu Hj Hext Htrack. rewrite clean_title_steps.
  rewrite Hext, (strip_extension_without _ Hext), Htrack. cbn [orb].
  rewrite light_cleanup_words, collapse_without_underscore, Hj by done.
  unfold or_original. by destruct title.
Qed.

Lemma clean_title_fixed_point_witness :
  _clean_title t{"Chapter 12: The Road"} = t{"Chapter 12: The Road"}.
Proof. by apply clean_title_fixed_point; vm_compute. Defined.

End TitleShape.
(** ** Naming the chapters by a pattern *)

Section AutoName.

Import ChapterManager.

Lemma outcome_rbind {A B} (r1 r2 : result A) (k1 k2 : A -> result B) :
  outcome r1 = outcome r2 ->
  (forall x y, outcome (k1 x) = outcome (k2 y)) ->
  outcome (rbind r1 k1) = outcome (rbind r2 k2).
Proof. destruct r1, r2; cbn; try done; intros; congruence. Qed.

Lemma expand_field_outcome name conversion spec i j :
  outcome (PyFormat.expand_field name conversion spec i)
  = outcome (PyFormat.expand_field name conversion spec j).
Proof.
  unfold PyFormat.expand_field.
  destruct (PyFormat.get_integer 0 (PyFormat.first_of name)) as [index|e];
    [|done].
  cbn [rbind]. destruct (PyFormat.first_of name) as [|c first]; [done|].
  destruct index; [done|]. destruct (bool_decide _); [|done].
  destruct (bool_decide _); [|done].
  destruct (match conversion with None => _ | Some _ => _ end); [|done].
  cbn [rbind]. by destruct spec.
Qed.

Lemma format_from_outcome i j n :
  forall s position,
    (length s <= n)%nat ->
    outcome (PyFormat.format_from i position s)
    = outcome (PyFormat.format_from j position s).
Proof.
  induction n as [|n IH]; intros s position Hlen.
  - destruct s; [|cbn in Hlen; lia]. by destruct position.
  - destruct s as [|c s]; [by destruct position|].
    cbn [length] in Hlen.
    assert (forall name conversion spec,
              outcome (rbind (PyFormat.expand_field name conversion spec i)
                         (fun piece =>
                            rbind (PyFormat.format_from i PyFormat.Literal s)
                              (fun rest => Ok (piece ++ rest))))
              = outcome (rbind (PyFormat.expand_field name conversion spec j)
                           (fun piece =>
                              rbind (PyFormat.format_from j PyFormat.Literal s)
                                (fun rest => Ok (piece ++ rest))))) as Hfield.
    { intros name conversion spec.
      apply outcome_rbind; [apply expand_field_outcome|].
      intros x y. apply outcome_rbind; [apply IH; lia|done]. }
    destruct position as [|name|name|name|name conversion
                          |name conversion spec depth];
      cbn [PyFormat.format_from].
    + destruct (Ascii.eqb c "{").
      * destruct s as [|c' s']; [done|]. cbn [length] in Hlen.
        destruct (Ascii.eqb c' "{"); [|apply IH; cbn [length]; lia].
        apply outcome_rbind; [apply IH; lia|done].
      * destruct (Ascii.eqb c "}").
        -- destruct s as [|c' s']; [done|]. cbn [length] in Hlen.
           destruct (Ascii.eqb c' "}"); [|done].
           apply outcome_rbind; [apply IH; lia|done].
        -- apply outcome_rbind; [apply IH; lia|done].
    + destruct (Ascii.eqb c "{"); [done|].
      destruct (Ascii.eqb c "["); [apply IH; lia|].
      destruct (Ascii.eqb c "}"); [apply Hfield|].
      destruct (Ascii.eqb c ":"); [apply IH; lia|].
      destruct (Ascii.eqb c "!"); apply IH; lia.
    + destruct (Ascii.eqb c "]"); apply IH; lia.
    + apply IH; lia.
    + destruct (Ascii.eqb c "}"); [apply Hfield|].
      destruct (Ascii.eqb c ":"); [apply IH; lia|done].
    + destruct (Ascii.eqb c "{"); [apply IH; lia|].
      destruct (Ascii.eqb c "}"); [|apply IH; lia].
      destruct depth as [|[|depth]]; [apply Hfield|apply Hfield|apply IH; lia].
Qed.
(** Whether a pattern expands, and the exception when it does not, do not
    depend on the number. *)
Lemma format_outcome pattern i j :
  outcome (PyFormat.format pattern i) = outcome (PyFormat.format pattern j).
Proof. by apply (format_from_outcome i j (length pattern)). Qed.

Lemma format_ok_all pattern i title :
  PyFormat.format pattern i = Ok title ->
  forall j, exists title', PyFormat.format pattern j = Ok title'.
Proof.
  intros Hi j. pose proof (format_outcome pattern i j) as H.
  rewrite Hi in H. destruct (PyFormat.format pattern j); [by eexists|done].
Qed.

Lemma format_raise_all pattern i e :
  PyFormat.format pattern i = Raise e ->
  forall j, PyFormat.format pattern j = Raise e.
Proof.
  intros Hi j. pose proof (format_outcome pattern i j) as H.
  rewrite Hi in H. destruct (PyFormat.format pattern j); [done|].
  cbn in H. congruence.
Qed.

Lemma list_set_middle {A} (before after : list A) old new :
  list_set (before ++ old :: after) (len before) new
  = before ++ new :: after.
Proof.
  unfold list_set, len. rewrite Nat2Z.id.
  replace (length before) with (length before + 0)%nat by lia.
  by rewrite insert_app_r.
Qed.

(** The loop of [auto_name_chapters] when the pattern expands. *)
Lemma auto_name_loop_ok pattern rest :
  (forall i, exists title, PyFormat.format pattern i = Ok title) ->
  forall renamed_before stats,
  exists renamed,
    for_each (enumerate (len renamed_before + 1) rest)
      (fun '(i, chapter) =>
         bind (lift (PyFormat.format pattern i)) (fun title =>
           bind get_chapters (fun now =>
             set_chapters
               (list_set now (i - 1)
                  (Chapter.mk title (Chapter.start_ms chapter)
                     (Chapter.duration_ms chapter)
                     (Chapter.file_path chapter))))))
      (mk (renamed_before ++ rest) stats)
    = (Ok tt, mk (renamed_before ++ renamed) stats)
    /\ Forall2
         (fun '(i, chapter) named =>
            exists title,
              PyFormat.format pattern i = Ok title
              /\ named = Chapter.mk title (Chapter.start_ms chapter)
                           (Chapter.duration_ms chapter)
                           (Chapter.file_path chapter))
         (enumerate (len renamed_before + 1) rest) renamed.
Proof.
  intros Hok. induction rest as [|c rest IH]; intros renamed_before stats.
  - exists []. split; [done|constructor].
  - destruct (Hok (len renamed_before + 1)) as [title Htitle].
    set (named := Chapter.mk title (Chapter.start_ms c)
                    (Chapter.duration_ms c) (Chapter.file_path c)).
    destruct (IH (renamed_before ++ [named]) stats) as (renamed & Hrun & Hall).
    assert (len (renamed_before ++ [named]) + 1 = len renamed_before + 1 + 1)
      as Hlen by (unfold len; rewrite length_app; cbn; lia).
    rewrite Hlen, <- !app_assoc in Hrun. rewrite Hlen in Hall.
    exists (named :: renamed). split.
    + cbn [enumerate for_each]. unfold bind at 1. unfold bind at 1.
      unfold lift at 1. rewrite Htitle.
      unfold bind at 1. unfold get_chapters at 1. cbn [fst snd chapters].
      replace (len renamed_before + 1 - 1) with (len renamed_before) by lia.
      rewrite list_set_middle. unfold set_chapters at 1.
      cbn [fst snd last_create_stats]. exact Hrun.
    + cbn [enumerate]. constructor; [|done]. by exists title.
Qed.

Lemma auto_name_loop_raise pattern e c rest self :
  PyFormat.format pattern 1 = Raise e ->
  for_each (enumerate 1 (c :: rest))
    (fun '(i, chapter) =>
       bind (lift (PyFormat.format pattern i)) (fun title =>
         bind get_chapters (fun now =>
           set_chapters
             (list_set now (i - 1)
                (Chapter.mk title (Chapter.start_ms chapter)
                   (Chapter.duration_ms chapter)
                   (Chapter.file_path chapter))))))
    self
  = (Raise e, self).
Proof.
  intros He. cbn [enumerate for_each]. unfold bind at 1. unfold bind at 1.
  unfold lift at 1. by rewrite He.
Qed.

(** A pattern on which the expansion stays within what is interpreted of
    [str.format], for every number. *)
Lemma interpreted_by_one pattern :
  (forall what, PyFormat.format pattern 1 <> Raise (Unsupported what)) ->
  forall num what, PyFormat.format pattern num <> Raise (Unsupported what).
Proof.
  intros Hone num what Hnum. apply (Hone what).
  by apply (format_raise_all _ num).
Qed.

(** X21: on a pattern whose expansion never gets to apply an attribute, an
    index or a format specification to [num], [auto_name_chapters] changes
    all the titles or none.  With no chapter it returns.  When it raises,
    no chapter has been changed, and the pattern fails for every number
    with the same exception.  When it returns, each chapter has for title
    the expansion of the pattern for its number, counted from 1 and stored
    as it is, and keeps its start, its duration and its source path; the
    statistics are as before. *)
Theorem auto_name_chapters_all_or_nothing pattern self :
  (forall num what, PyFormat.format pattern num <> Raise (Unsupported what)) ->
  (chapters self = [] -> auto_name_chapters pattern self = (Ok tt, self))
  /\ (forall e after,
        auto_name_chapters pattern self = (Raise e, after) ->
        after = self
        /\ (forall num, PyFormat.format pattern num = Raise e)
        /\ exists m, e = ValueError m \/ e = IndexError m \/ e = KeyError m)
  /\ (forall after,
        auto_name_chapters pattern self = (Ok tt, after) ->
        last_create_stats after = last_create_stats self
        /\ Forall2
             (fun '(i, chapter) named =>
                exists title,
                  PyFormat.format pattern i = Ok title
                  /\ named = Chapter.mk title (Chapter.start_ms chapter)
                               (Chapter.duration_ms chapter)
                               (Chapter.file_path chapter))
             (enumerate 1 (chapters self)) (chapters after))
  /\ ((exists after, auto_name_chapters pattern self = (Ok tt, after))
      \/ exists e, auto_name_chapters pattern self = (Raise e, self)).
Proof.
  intros Hinterpreted. destruct self as [cs stats].
  destruct (PyFormat.format pattern 1) as [title|e] eqn:E.
  - destruct (auto_name_loop_ok pattern cs (format_ok_all _ _ _ E) [] stats)
      as (renamed & Hrun & Hall).
    cbn [app] in Hrun. change (len [] + 1) with 1 in Hrun, Hall.
    assert (auto_name_chapters pattern (mk cs stats)
            = (Ok tt, mk renamed stats)) as -> by exact Hrun.
    split_and!.
    + cbn [chapters]. intros ->. cbn [enumerate] in Hall.
      by inversion Hall.
    + intros e after [=].
    + by intros after [= <-].
    + left. by eexists.
  - destruct cs as [|c cs].
    + split_and!; try done.
      * intros after [= <-]. split; [done|constructor].
      * left. by eexists.
    + assert (auto_name_chapters pattern (mk (c :: cs) stats)
              = (Raise e, mk (c :: cs) stats)) as ->
        by exact (auto_name_loop_raise _ _ _ _ _ E).
      split_and!; try done.
      * intros e' after [= <- <-]. split; [done|].
        split; [by apply (format_raise_all _ 1)|].
        destruct e as [m|m|m|what]; [eauto..|].
        by destruct (Hinterpreted 1 what).
      * right. by eexists.
Qed.

Lemma auto_name_chapters_all_or_nothing_witness :
  let model :=
    mk [Chapter.mk t{"a"} 0 (Some 5) None; Chapter.mk t{"b"} 5 None None] [] in
  auto_name_chapters t{"{title} {num}"} model
  = (Raise (KeyError (MissingFormatKey t{"title"})), model)
  /\ forall num,
       PyFormat.format t{"{title} {num}"} num
       = Raise (KeyError (MissingFormatKey t{"title"})).
Proof.
  intros model.
  destruct (auto_name_chapters_all_or_nothing t{"{title} {num}"} model)
    as (_ & Hraise & _ & _).
  - apply interpreted_by_one. intros what. by vm_compute.
  - split; [by vm_compute|].
    by apply (Hraise (KeyError (MissingFormatKey t{"title"})) model).
Defined.

Lemma format_literal num literal rest :
  contains "{" literal = false -> contains "}" literal = false ->
  PyFormat.format_from num PyFormat.Literal (literal ++ rest)
  = rbind (PyFormat.format_from num PyFormat.Literal rest)
      (fun expanded => Ok (literal ++ expanded)).
Proof.
  unfold contains. induction literal as [|c literal IH]; cbn [existsb app].
  - intros _ _. by destruct (PyFormat.format_from num PyFormat.Literal rest).
  - intros [Ho Hno]%orb_false_iff [Hc Hnc]%orb_false_iff.
    cbn [PyFormat.format_from].
    rewrite (Ascii.eqb_sym c "{"), Ho, (Ascii.eqb_sym c "}"), Hc.
    rewrite IH by done.
    by destruct (PyFormat.format_from num PyFormat.Literal rest).
Qed.

Lemma format_num_field num rest :
  PyFormat.format_from num PyFormat.Literal (t{"{num}"} ++ rest)
  = rbind (PyFormat.format_from num PyFormat.Literal rest)
      (fun expanded => Ok (PyInt.str num ++ expanded)).
Proof. done. Qed.

(** The expansion of a pattern with one field and literal text around it. *)
Lemma format_numbered prefix suffix num :
  contains "{" prefix = false -> contains "}" prefix = false ->
  contains "{" suffix = false -> contains "}" suffix = false ->
  PyFormat.format (prefix ++ t{"{num}"} ++ suffix) num
  = Ok (prefix ++ PyInt.str num ++ suffix).
Proof.
  intros Hpo Hpc Hso Hsc. unfold PyFormat.format.
  rewrite format_literal, format_num_field by done.
  replace suffix with (suffix ++ []) at 1 by apply app_nil_r.
  rewrite format_literal by done. cbn. by rewrite app_nil_r.
Qed.

(** The run with one field between two literal texts. *)
Lemma auto_name_numbered_run prefix suffix self :
  contains "{" prefix = false -> contains "}" prefix = false ->
  contains "{" suffix = false -> contains "}" suffix = false ->
  auto_name_chapters (prefix ++ t{"{num}"} ++ suffix) self
  = (Ok tt,
     mk (map (fun '(i, chapter) =>
                Chapter.mk (prefix ++ PyInt.str i ++ suffix)
                  (Chapter.start_ms chapter) (Chapter.duration_ms chapter)
                  (Chapter.file_path chapter))
           (enumerate 1 (chapters self)))
       (last_create_stats self)).
Proof.
  intros Hpo Hpc Hso Hsc. destruct self as [cs stats].
  destruct (auto_name_loop_ok (prefix ++ t{"{num}"} ++ suffix) cs
              (fun i => ex_intro _ _ (format_numbered prefix suffix i
                                        Hpo Hpc Hso Hsc))
              [] stats) as (renamed & Hrun & Hall).
  cbn [app] in Hrun. change (len [] + 1) with 1 in Hrun, Hall.
  etrans; [exact Hrun|]. cbn [chapters last_create_stats]. do 2 f_equal.
  clear Hrun. revert Hall. generalize (enumerate 1 cs).
  intros numbered Hall. induction Hall as [|[i c] named ? ? Hx _ IH];
    [done|].
  cbn [map]. rewrite IH. f_equal.
  destruct Hx as (title & Htitle & ->).
  rewrite format_numbered in Htitle by done. by injection Htitle as <-.
Qed.

Lemma numbered_lookup {B} (f : Z * Chapter.t -> B) start cs k c :
  cs !! k = Some c ->
  map f (enumerate start cs) !! k = Some (f (start + Z.of_nat k, c)).
Proof.
  revert start k. induction cs as [|c' cs IH]; intros start k Hk; [done|].
  destruct k as [|k]; cbn [enumerate map].
  - cbn in Hk. injection Hk as ->. cbn. by rewrite Z.add_0_r.
  - cbn in Hk. specialize (IH (start + 1) k Hk).
    replace (start + Z.of_nat (S k)) with (start + 1 + Z.of_nat k) by lia.
    exact IH.
Qed.

Lemma numbered_length {B} (f : Z * Chapter.t -> B) start cs :
  length (map f (enumerate start cs)) = length cs.
Proof.
  rewrite length_map. revert start.
  induction cs as [|c cs IH]; intros start; [done|].
  cbn [enumerate length]. by rewrite IH.
Qed.

(** X22: with a pattern made of the field [{num}] between two texts
    without braces, [auto_name_chapters] returns and keeps the number of
    chapters; the chapter at index [k] has for title the first text, the
    decimal form of [k + 1] and the second text, stored as it is, and keeps
    its start, its duration and its source path. *)
Theorem auto_name_chapters_numbers prefix suffix self :
  contains "{" prefix = false -> contains "}" prefix = false ->
  contains "{" suffix = false -> contains "}" suffix = false ->
  let after := snd (auto_name_chapters (prefix ++ t{"{num}"} ++ suffix) self) in
  fst (auto_name_chapters (prefix ++ t{"{num}"} ++ suffix) self) = Ok tt
  /\ length (chapters after) = length (chapters self)
  /\ last_create_stats after = last_create_stats self
  /\ (forall k chapter,
        chapters self !! k = Some chapter ->
        chapters after !! k
        = Some (Chapter.mk (prefix ++ PyInt.str (Z.of_nat k + 1) ++ suffix)
                  (Chapter.start_ms chapter) (Chapter.duration_ms chapter)
                  (Chapter.file_path chapter))).
Proof.
  intros Hpo Hpc Hso Hsc after. subst after.
  rewrite auto_name_numbered_run by done. cbn [fst snd chapters
    last_create_stats].
  split_and!; try done.
  - apply numbered_length.
  - intros k chapter Hk.
    rewrite (numbered_lookup _ 1 _ k chapter Hk).
    by replace (1 + Z.of_nat k) with (Z.of_nat k + 1) by lia.
Qed.

Lemma auto_name_chapters_numbers_witness :
  snd (auto_name_chapters (t{"Chapter "} ++ t{"{num}"} ++ [])
         (mk [Chapter.mk t{"a"} 0 (Some 5) None;
              Chapter.mk t{"b"} 5 None None] []))
  = mk [Chapter.mk t{"Chapter 1"} 0 (Some 5) None;
        Chapter.mk t{"Chapter 2"} 5 None None] [].
Proof.
  destruct (auto_name_chapters_numbers t{"Chapter "} []
              (mk [Chapter.mk t{"a"} 0 (Some 5) None;
                   Chapter.mk t{"b"} 5 None None] [])
              eq_refl eq_refl eq_refl eq_refl)
    as (_ & _ & _ & _).
  by vm_compute.
Defined.

End AutoName.
(** ** A session in the chapter editor *)

Section EditorSession.

Import ChapterManager.

Context {widgets : Type} {toolkit : ChapterEditorScreen.Toolkit widgets}.

Lemma kept_refl cm : kept cm cm.
Proof. by split_and!. Qed.

Lemma kept_trans a b c : kept a b -> kept b c -> kept a c.
Proof.
  intros (Hs1 & Hl1 & Hn1 & Hw1) (Hs2 & Hl2 & Hn2 & Hw2). split_and!.
  - by etrans.
  - congruence.
  - auto.
  - auto.
Qed.

Lemma steady_ret {A} (a : A) : steady (ChapterEditorScreen.ret a).
Proof. intros [cm row w]. by exists (Ok a), w. Qed.

Lemma steady_lift {A} (r : result A) :
  (quiet toolkit -> is_ok r = true) -> steady (ChapterEditorScreen.lift r).
Proof. intros Hr [cm row w]. by exists r, w. Qed.

Lemma steady_call {A} (op : widgets -> result A * widgets) :
  (quiet toolkit -> forall w, is_ok (fst (op w)) = true) ->
  steady (ChapterEditorScreen.call op).
Proof.
  intros Hop [cm row w]. unfold ChapterEditorScreen.call.
  cbn [ChapterEditorScreen.chapter_manager ChapterEditorScreen.selected_row
       ChapterEditorScreen.app].
  destruct (op w) as [r w'] eqn:E. exists r, w'. split; [done|].
  intros Hq. specialize (Hop Hq w). by rewrite E in Hop.
Qed.

Lemma steady_bind {A B} (m : ChapterEditorScreen.M widgets A)
    (k : A -> ChapterEditorScreen.M widgets B) :
  steady m -> (forall a, steady (k a)) -> steady (ChapterEditorScreen.bind m k).
Proof.
  intros Hm Hk self. unfold ChapterEditorScreen.bind.
  destruct (Hm self) as (r & w & -> & Hr). destruct r as [a|e].
  - destruct (Hk a (ChapterEditorScreen.mk
                      (ChapterEditorScreen.chapter_manager self)
                      (ChapterEditorScreen.selected_row self) w))
      as (r' & w' & -> & Hr').
    by exists r', w'.
  - by exists (Raise e), w.
Qed.

Lemma steady_for_each {A} (xs : list A)
    (body : A -> ChapterEditorScreen.M widgets unit) :
  (forall x, steady (body x)) -> steady (ChapterEditorScreen.for_each xs body).
Proof.
  intros Hbody. induction xs as [|x xs IH]; cbn [ChapterEditorScreen.for_each].
  - apply steady_ret.
  - apply steady_bind; [apply Hbody|done].
Qed.

Lemma steady_get_selected_row : steady ChapterEditorScreen.get_selected_row.
Proof. intros [cm row w]. by exists (Ok row), w. Qed.

Lemma steady_get_chapters :
  steady (ChapterEditorScreen.manager get_chapters).
Proof. intros [cm row w]. by exists (Ok (chapters cm)), w. Qed.

Ltac steady_step :=
  first
    [ apply steady_ret
    | apply steady_get_selected_row
    | apply steady_get_chapters
    | apply steady_bind; [|intros ?]
    | apply steady_for_each; intros [? ?]
    | apply steady_call; intros (? & ? & ? & ? & ? & ? & ? & ? & ?) ?;
      by repeat match goal with H : _ |- _ => rewrite H end
    | apply steady_lift; intros (? & ? & ? & ? & ? & ? & ? & ? & ?); done ].

Lemma steady_populate_table : steady ChapterEditorScreen._populate_table.
Proof.
  unfold ChapterEditorScreen._populate_table. repeat steady_step.
  destruct (Chapter.truthy _); repeat steady_step.
Qed.

Ltac steadily := repeat first [apply steady_populate_table | steady_step].

Lemma bind_eval {A B} (m : ChapterEditorScreen.M widgets A)
    (k : A -> ChapterEditorScreen.M widgets B) self a self' :
  m self = (Ok a, self') -> ChapterEditorScreen.bind m k self = k a self'.
Proof. unfold ChapterEditorScreen.bind. by intros ->. Qed.

Lemma steady_goes_well {A} before (m : ChapterEditorScreen.M widgets A) self :
  steady m -> kept before (ChapterEditorScreen.chapter_manager self) ->
  goes_well before m self.
Proof.
  intros Hm Hkept. destruct (Hm self) as (r & w & E & Hr).
  unfold goes_well. by rewrite E.
Qed.

Lemma bind_goes_well {A B} before (m : ChapterEditorScreen.M widgets A)
    (k : A -> ChapterEditorScreen.M widgets B) self :
  steady m -> kept before (ChapterEditorScreen.chapter_manager self) ->
  (forall a w,
     goes_well before (k a)
       (ChapterEditorScreen.mk (ChapterEditorScreen.chapter_manager self)
          (ChapterEditorScreen.selected_row self) w)) ->
  goes_well before (ChapterEditorScreen.bind m k) self.
Proof.
  intros Hm Hkept Hk. destruct (Hm self) as (r & w & E & Hr).
  unfold goes_well, ChapterEditorScreen.bind. rewrite E.
  destruct r as [a|e]; [apply Hk|done].
Qed.

Lemma eval_goes_well {A B} before (m : ChapterEditorScreen.M widgets A)
    (k : A -> ChapterEditorScreen.M widgets B) self a self' :
  m self = (Ok a, self') -> goes_well before (k a) self' ->
  goes_well before (ChapterEditorScreen.bind m k) self.
Proof. intros E. unfold goes_well. by rewrite (bind_eval _ _ _ _ _ E). Qed.

Lemma row_in_range_true row cs :
  ChapterEditorScreen.row_in_range row cs = true -> 0 <= row < len cs.
Proof.
  unfold ChapterEditorScreen.row_in_range.
  intros [?%Z.leb_le ?%Z.ltb_lt]%andb_prop. lia.
Qed.

Lemma remove_chapter_run self index c :
  0 <= index < len (chapters self) ->
  chapters self !! Z.to_nat index = Some c ->
  remove_chapter index self
  = (Ok tt, ChapterManager.mk (delete (Z.to_nat index) (chapters self))
              (last_create_stats self)).
Proof.
  intros Hin Hc. unfold remove_chapter, bind, get_chapters, lift.
  rewrite (in_range_true index (chapters self) Hin).
  by rewrite (list_pop_lookup _ _ c (proj1 Hin) Hc).
Qed.

Lemma update_chapter_title_run self index title c :
  0 <= index < len (chapters self) ->
  chapters self !! Z.to_nat index = Some c ->
  update_chapter index (Some title) None None self
  = (Ok tt,
     ChapterManager.mk
       (<[Z.to_nat index :=
            Chapter.mk (Chapter._clean_title title) (Chapter.start_ms c)
              (Chapter.duration_ms c) (Chapter.file_path c)]> (chapters self))
       (last_create_stats self)).
Proof.
  intros Hin Hc. unfold update_chapter, bind, get_chapters, lift.
  by rewrite (in_range_true _ _ Hin), (item_lookup _ _ c (proj1 Hin) Hc).
Qed.

Lemma numbered_timing (f : Z -> text) start cs :
  map timing
    (map (fun '(i, chapter) =>
            Chapter.mk (f i) (Chapter.start_ms chapter)
              (Chapter.duration_ms chapter) (Chapter.file_path chapter))
       (enumerate start cs))
  = map timing cs.
Proof.
  revert start. induction cs as [|c cs IH]; intros start; [done|].
  cbn [enumerate map]. by rewrite IH.
Qed.

Lemma numbered_well_titled start cs :
  Forall well_titled
    (map (fun '(i, chapter) =>
            Chapter.mk (t{"Chapter "} ++ PyInt.str i ++ [])
              (Chapter.start_ms chapter)
              (Chapter.duration_ms chapter) (Chapter.file_path chapter))
       (enumerate start cs)).
Proof.
  revert start. induction cs as [|c cs IH]; intros start; [constructor|].
  cbn [enumerate map]. constructor; [|done].
  unfold well_titled. cbn [Chapter.title]. intros H%strip_nil.
  by inversion H.
Qed.

(** What the three methods of the manager do to it. *)
Lemma auto_name_kept cm :
  kept cm
    (ChapterManager.mk
       (map (fun '(i, chapter) =>
               Chapter.mk (t{"Chapter "} ++ PyInt.str i ++ [])
                 (Chapter.start_ms chapter) (Chapter.duration_ms chapter)
                 (Chapter.file_path chapter))
          (enumerate 1 (chapters cm)))
       (last_create_stats cm)).
Proof.
  split_and!; cbn [chapters last_create_stats].
  - by rewrite (numbered_timing (fun i => t{"Chapter "} ++ PyInt.str i ++ [])).
  - done.
  - by destruct (chapters cm).
  - intros _. apply numbered_well_titled.
Qed.

Lemma update_title_kept cm index c title :
  chapters cm !! index = Some c -> strip title <> [] ->
  kept cm
    (ChapterManager.mk
       (<[index := Chapter.mk (Chapter._clean_title title)
                     (Chapter.start_ms c) (Chapter.duration_ms c)
                     (Chapter.file_path c)]> (chapters cm))
       (last_create_stats cm)).
Proof.
  intros Hc Htitle. split_and!; cbn [chapters last_create_stats].
  - rewrite list_fmap_insert. rewrite list_insert_id; [done|].
    by rewrite list_lookup_fmap, Hc.
  - done.
  - intros Hne E. apply (f_equal (@length _)) in E.
    rewrite length_insert in E. by destruct (chapters cm).
  - intros Hall. apply Forall_insert; [done|].
    unfold well_titled. cbn [Chapter.title].
    by apply clean_title_not_blank.
Qed.

Lemma delete_kept cm index :
  (index < length (chapters cm))%nat -> length (chapters cm) <> 1%nat ->
  kept cm (ChapterManager.mk (delete index (chapters cm)) (last_create_stats cm)).
Proof.
  intros Hin Hmore. split_and!; cbn [chapters last_create_stats].
  - rewrite list_fmap_delete. apply sublist_delete.
  - done.
  - intros _ E. apply (f_equal (@length _)) in E.
    rewrite length_delete in E by (by apply lookup_lt_is_Some_2). cbn in E. lia.
  - apply Forall_delete.
Qed.

Ltac project :=
  cbn [ChapterEditorScreen.chapter_manager ChapterEditorScreen.selected_row
       ChapterEditorScreen.app] in *.

Ltac evaluate := eapply eval_goes_well; [reflexivity|]; project.

(** One action. *)
Lemma handle_goes_well before action self :
  kept before (ChapterEditorScreen.chapter_manager self) ->
  goes_well before (handle action) self.
Proof.
  intros Hkept. destruct self as [cm row w]. project.
  destruct action as [cursor_row| | | |change]; cbn [handle].
  - unfold ChapterEditorScreen.on_data_table_row_selected.
    do 3 evaluate.
    destruct (ChapterEditorScreen.row_in_range _ _) eqn:Hin;
      [|by apply steady_goes_well; [steadily|]].
    apply row_in_range_true in Hin.
    destruct (lookup_lt_is_Some_2 (chapters cm) (Z.to_nat cursor_row))
      as [c Hc]; [unfold len in Hin; lia|].
    eapply eval_goes_well;
      [unfold ChapterEditorScreen.lift;
       by rewrite (item_lookup _ _ c (proj1 Hin) Hc)|].
    by apply steady_goes_well; [steadily|].
  - unfold ChapterEditorScreen._auto_name_chapters.
    change t{"Chapter {num}"} with (t{"Chapter "} ++ t{"{num}"} ++ []).
    eapply eval_goes_well;
      [unfold ChapterEditorScreen.manager; project;
       by rewrite auto_name_numbered_run|].
    apply steady_goes_well; [steadily|]. project.
    eapply kept_trans; [exact Hkept|apply auto_name_kept].
  - unfold ChapterEditorScreen._update_chapter.
    do 2 evaluate.
    destruct (ChapterEditorScreen.row_in_range _ _) eqn:Hin; cbn [negb];
      [|by apply steady_goes_well; [steadily|]].
    apply row_in_range_true in Hin.
    destruct (lookup_lt_is_Some_2 (chapters cm) (Z.to_nat row)) as [c Hc];
      [unfold len in Hin; lia|].
    apply bind_goes_well; [steadily|done|]. intros _ w1. project.
    apply bind_goes_well; [steadily|done|]. intros value w2. project.
    destruct (strip value) as [|x new_title] eqn:Hnew;
      [by apply steady_goes_well; [steadily|]|].
    evaluate.
    eapply eval_goes_well;
      [unfold ChapterEditorScreen.manager; project;
       by rewrite (update_chapter_title_run _ _ _ c Hin Hc)|].
    apply steady_goes_well; [steadily|]. project.
    eapply kept_trans; [exact Hkept|]. apply update_title_kept; [done|].
    rewrite <- Hnew. intros H%strip_strip_nil. congruence.
  - unfold ChapterEditorScreen._delete_chapter.
    do 2 evaluate.
    destruct (ChapterEditorScreen.row_in_range _ _) eqn:Hin; cbn [negb];
      [|by apply steady_goes_well; [steadily|]].
    apply row_in_range_true in Hin.
    evaluate.
    destruct (Z.eqb_spec (len (chapters cm)) 1) as [Hone|Hmore];
      [by apply steady_goes_well; [steadily|]|].
    destruct (lookup_lt_is_Some_2 (chapters cm) (Z.to_nat row)) as [c Hc];
      [unfold len in Hin; lia|].
    evaluate.
    eapply eval_goes_well;
      [unfold ChapterEditorScreen.manager; project;
       by rewrite (remove_chapter_run _ _ c Hin Hc)|].
    apply steady_goes_well; [steadily|]. project.
    eapply kept_trans; [exact Hkept|]. apply delete_kept.
    + unfold len in Hin. lia.
    + unfold len in Hmore. lia.
  - unfold goes_well. by cbn.
Qed.

(** A session. *)
Lemma session_goes_well before actions :
  forall self,
    kept before (ChapterEditorScreen.chapter_manager self) ->
    goes_well before (session actions) self.
Proof.
  induction actions as [|action actions IH]; intros self Hkept;
    cbn [session].
  - by split.
  - destruct (handle_goes_well before action self Hkept) as [Hmid Hok].
    unfold goes_well, ChapterEditorScreen.bind.
    destruct (handle action self) as [[[]|e] mid]; [|done].
    by apply IH.
Qed.


(** X23: whatever the widgets of Textual do, a session in the chapter
    editor, whether it ends or is cut short by an exception, leaves at
    least one chapter when there was one, leaves no blank title when there
    was none (so [validate] has neither of the two warnings to give), and
    changes no start, no duration and no source path: the chapters left
    are chapters that were there, in their order and with the times they
    had, also after a deletion.  The screen itself raises nothing: when
    every call into the widgets and every formatting of a duration
    returns, the session returns. *)
Theorem editor_session_keeps (actions : list (user_action widgets))
    (self : ChapterEditorScreen.t widgets) :
  let after := snd (session actions self) in
  sublist
    (map timing (chapters (ChapterEditorScreen.chapter_manager after)))
    (map timing (chapters (ChapterEditorScreen.chapter_manager self)))
  /\ last_create_stats (ChapterEditorScreen.chapter_manager after)
     = last_create_stats (ChapterEditorScreen.chapter_manager self)
  /\ (chapters (ChapterEditorScreen.chapter_manager self) <> [] ->
      chapters (ChapterEditorScreen.chapter_manager after) <> [])
  /\ (Forall well_titled (chapters (ChapterEditorScreen.chapter_manager self)) ->
      Forall well_titled
        (chapters (ChapterEditorScreen.chapter_manager after)))
  /\ (quiet toolkit -> fst (session actions self) = Ok tt).
Proof.
  intros after. subst after.
  destruct (session_goes_well (ChapterEditorScreen.chapter_manager self)
              actions self (kept_refl _))
    as [(Htimes & Hstats & Hleft & Htitles) Hok].
  split_and!; try done.
  intros Hquiet. specialize (Hok Hquiet).
  by destruct (fst (session actions self)) as [[]|].
Qed.

End EditorSession.

Section EditorSessionWitness.

Import ChapterManager.

Lemma editor_session_keeps_witness :
  let self :=
    ChapterEditorScreen.mk
      (ChapterManager.mk
         [Chapter.mk t{"a"} 0 (Some 5) None; Chapter.mk t{"b"} 5 None None] [])
      0 [] in
  let actions :=
    [SelectRow 1; Elsewhere (fun _ => t{"  Epilogue "}); PressUpdate;
     PressDelete; PressDelete; PressAutoName] in
  fst (session (toolkit := input_only) actions self) = Ok tt
  /\ chapters
       (ChapterEditorScreen.chapter_manager
          (snd (session (toolkit := input_only) actions self)))
     <> [].
Proof.
  intros self actions.
  destruct (editor_session_keeps (toolkit := input_only) actions self)
    as (_ & _ & Hleft & _ & Hok).
  split; [apply Hok; by repeat split|by apply Hleft].
Defined.

End EditorSessionWitness.
(** ** Sorting the audio files *)

Section ListSort.

Import AudioHandler.

Context {A K : Type} (lt : K -> K -> bool) (key : A -> K).

Lemma insert_sorted_perm x xs : insert_sorted lt key x xs ≡ₚ x :: xs.
Proof.
  induction xs as [|y ys IH]; cbn [insert_sorted]; [done|].
  destruct (lt (key x) (key y)); [done|]. by rewrite IH, Permutation_swap.
Qed.

Lemma list_sort_loop_perm sorted xs :
  foldl (fun sorted x => insert_sorted lt key x sorted) sorted xs
  ≡ₚ sorted ++ xs.
Proof.
  revert sorted. induction xs as [|x xs IH]; intros sorted; cbn [foldl].
  - by rewrite app_nil_r.
  - rewrite IH, insert_sorted_perm. apply Permutation_middle.
Qed.

Lemma list_sort_perm xs : list_sort lt key xs ≡ₚ xs.
Proof. unfold list_sort. by rewrite list_sort_loop_perm. Qed.

Hypothesis lt_irrefl : forall a, lt a a = false.
Hypothesis lt_trans :
  forall a b c, lt a b = true -> lt b c = true -> lt a c = true.

Lemma insert_sorted_sorted x xs :
  StronglySorted (fun a b => lt (key b) (key a) = false) xs ->
  StronglySorted (fun a b => lt (key b) (key a) = false)
    (insert_sorted lt key x xs).
Proof.
  induction 1 as [|y ys Hys IH Hy]; cbn [insert_sorted].
  - by repeat constructor.
  - destruct (lt (key x) (key y)) eqn:Hxy.
    + constructor; [by constructor|]. constructor.
      * destruct (lt (key y) (key x)) eqn:Hyx; [|done].
        by rewrite <- (lt_irrefl (key x)), (lt_trans _ _ _ Hxy Hyx).
      * eapply Forall_impl; [done|]. cbn. intros z Hz.
        destruct (lt (key z) (key x)) eqn:Hzx; [|done].
        by rewrite <- Hz, (lt_trans _ _ _ Hzx Hxy).
    + constructor; [done|].
      rewrite (insert_sorted_perm x ys). by constructor.
Qed.

Lemma list_sort_sorted xs :
  StronglySorted (fun a b => lt (key b) (key a) = false)
    (list_sort lt key xs).
Proof.
  unfold list_sort.
  assert (StronglySorted (fun a b => lt (key b) (key a) = false) [])
    as Hnil by constructor.
  revert Hnil. generalize (@nil A). induction xs as [|x xs IH];
    intros sorted Hsorted; cbn [foldl]; [done|].
  by apply IH, insert_sorted_sorted.
Qed.

End ListSort.

Section SortFiles.

Import AudioHandler.

Lemma text_lt_irrefl a : text_lt a a = false.
Proof.
  induction a as [|x a IH]; [done|]. cbn [text_lt].
  by rewrite Nat.ltb_irrefl.
Qed.

Lemma text_lt_trans a b c :
  text_lt a b = true -> text_lt b c = true -> text_lt a c = true.
Proof.
  revert b c. induction a as [|x a IH]; intros [|y b] [|z c]; try done.
  cbn [text_lt].
  destruct (Nat.ltb_spec (code x) (code y)), (Nat.ltb_spec (code y) (code x)),
    (Nat.ltb_spec (code y) (code z)), (Nat.ltb_spec (code z) (code y)),
    (Nat.ltb_spec (code x) (code z)), (Nat.ltb_spec (code z) (code x));
    try done; try lia.
  apply IH.
Qed.

Lemma key_lt_irrefl a : key_lt a a = false.
Proof. unfold key_lt. rewrite Z.eqb_refl. apply text_lt_irrefl. Qed.

Lemma key_lt_trans a b c :
  key_lt a b = true -> key_lt b c = true -> key_lt a c = true.
Proof.
  unfold key_lt.
  destruct (Z.eqb_spec (fst a) (fst b)), (Z.eqb_spec (fst b) (fst c)),
    (Z.eqb_spec (fst a) (fst c)); try lia; rewrite ?Z.ltb_lt;
    try apply text_lt_trans; lia.
Qed.

Lemma track_key_fst {float} (x : AudioFile.t float) :
  fst (track_key x) = default 999 (AudioFile.track_number x).
Proof. unfold track_key. by destruct (AudioFile.track_number x). Qed.

Lemma track_key_snd {float} (x : AudioFile.t float) :
  snd (track_key x) = AudioFile.filename x.
Proof. done. Qed.

(** X24: [sort_files] returns the files it is given, each as often as it is
    there, whatever the criterion, and returns them as they are for a
    criterion other than the three it knows.  By file name, no file comes
    after a file with a greater name.  By track, the files come in the order
    of their track numbers, a file without a track number counting as
    number 999, and among the files of one number no file comes after a
    file with a greater name. *)
Theorem sort_files_sorts {float} (float_lt : float -> float -> bool)
    (audio_files : list (AudioFile.t float)) :
  let track := fun x : AudioFile.t float =>
    default 999 (AudioFile.track_number x) in
  (forall sort_by, sort_files float_lt sort_by audio_files ≡ₚ audio_files)
  /\ (forall sort_by,
        sort_by ∉ [t{"filename"}; t{"track"}; t{"duration"}] ->
        sort_files float_lt sort_by audio_files = audio_files)
  /\ StronglySorted
       (fun a b =>
          text_lt (AudioFile.filename b) (AudioFile.filename a) = false)
       (sort_files float_lt t{"filename"} audio_files)
  /\ StronglySorted
       (fun a b =>
          track a < track b
          \/ (track a = track b
              /\ text_lt (AudioFile.filename b) (AudioFile.filename a)
                 = false))
       (sort_files float_lt t{"track"} audio_files).
Proof.
  intros track. split_and!.
  - intros sort_by. unfold sort_files.
    repeat (destruct (bool_decide _)); try apply list_sort_perm. done.
  - intros sort_by Hother. unfold sort_files.
    rewrite !bool_decide_eq_false_2; [done|..];
      intros ->; apply Hother; by repeat constructor.
  - apply (list_sort_sorted text_lt AudioFile.filename text_lt_irrefl
             text_lt_trans).
  - pose proof (list_sort_sorted key_lt track_key key_lt_irrefl key_lt_trans
                  audio_files) as Hsorted.
    change (sort_files float_lt t{"track"} audio_files)
      with (list_sort key_lt track_key audio_files).
    induction Hsorted as [|a sorted _ IH Ha]; constructor; [done|].
    eapply Forall_impl; [done|]. cbn. intros b. unfold key_lt.
    rewrite !track_key_fst, !track_key_snd. fold (track a) (track b).
    destruct (Z.eqb_spec (track b) (track a)) as [E|E].
    + intros Hab. right. by split.
    + intros Hab%Z.ltb_ge. left. lia.
Qed.

End SortFiles.
